(** * GhostFAT (ENERTY tinyuf2): a shallow embedding of [src/ghostfat.c]

    The virtual FAT16 volume of the bootloader: cluster allocation over
    the file table, on-demand synthesis of boot, FAT, root-directory
    and data sectors ([uf2_read_block]) and the UF2 write protocol
    ([uf2_write_block]).

    C integers are modelled as [Z] with the wrap-around of their width
    written out ([u8], [u16], [u32]); a sector buffer is a [list Z] of
    byte values; multi-byte fields are stored little-endian, as on the
    target (ESP32-S2). *)

From Stdlib Require Import String Ascii.
From Stdlib Require Import ZArith List Lia Bool.
Import ListNotations.
Local Open Scope Z_scope.

(** ** Machine integers *)

Definition u8 (z : Z) : Z := z mod 2 ^ 8.
Definition u16 (z : Z) : Z := z mod 2 ^ 16.
Definition u32 (z : Z) : Z := z mod 2 ^ 32.

(** [UF2_DIV_CEIL(_v, _d)] *)
Definition UF2_DIV_CEIL (v d : Z) : Z :=
  (v / d) + (if v mod d =? 0 then 0 else 1).

(** ** Byte buffers *)

(** The [n] low bytes of [v], least significant first. *)
Fixpoint le_bytes (n : nat) (v : Z) : list Z :=
  match n with
  | O => []
  | S k => v mod 256 :: le_bytes k (v / 256)
  end.

(** The value of a little-endian byte string. *)
Fixpoint le_value (bs : list Z) : Z :=
  match bs with
  | [] => 0
  | b :: r => b + 256 * le_value r
  end.

(** Store the bytes [bs] at offset [off] of [d].  A store that runs past
    the end of [d] (a buffer overflow in C) shows as a longer list. *)
Definition write_at (off : nat) (bs : list Z) (d : list Z) : list Z :=
  firstn off d ++ bs ++ skipn (off + length bs) d.

(** The [n] bytes of [d] from offset [off]; bytes past the end of [d]
    read as 0. *)
Definition read_at (off n : nat) (d : list Z) : list Z :=
  map (fun k => nth (off + k) d 0) (seq 0 n).

Definition set8 (d : list Z) (off : Z) (v : Z) : list Z :=
  write_at (Z.to_nat off) (le_bytes 1 v) d.
Definition set16 (d : list Z) (off : Z) (v : Z) : list Z :=
  write_at (Z.to_nat off) (le_bytes 2 v) d.
Definition set32 (d : list Z) (off : Z) (v : Z) : list Z :=
  write_at (Z.to_nat off) (le_bytes 4 v) d.
Definition get8 (d : list Z) (off : Z) : Z := nth (Z.to_nat off) d 0.
Definition get16 (d : list Z) (off : Z) : Z := le_value (read_at (Z.to_nat off) 2 d).
Definition get32 (d : list Z) (off : Z) : Z := le_value (read_at (Z.to_nat off) 4 d).

(** [memset(data, 0, n)] on a fresh buffer of [n] bytes. *)
Definition zero_sector (n : nat) : list Z := repeat 0 n.

(** [memcpy(dst, src, n)]: the first [n] bytes of [src] over the start of
    [dst]. *)
Definition memcpy (dst src : list Z) (n : nat) : list Z :=
  write_at 0 (read_at 0 n src) dst.

Definition bytes_of_string (s : string) : list Z :=
  map (fun c => Z.of_N (N_of_ascii c)) (list_ascii_of_string s).

(** ** Build configuration

    The constants of [uf2.h], [board_api.h] and [compile_date.h], which
    [ghostfat.c] only uses by name. *)
Record Config := mkConfig {
  CFG_UF2_SECTORS_PER_CLUSTER : Z;
  CFG_UF2_NUM_BLOCKS : Z;
  MAX_BLOCKS : Z;
  BOARD_UF2_FAMILY_ID : Z;
  BOARD_FLASH_APP_START : Z;
  BOARD_FLASH_ADDR_ZERO : Z;
  UF2_MAGIC_START0 : Z;
  UF2_MAGIC_START1 : Z;
  UF2_MAGIC_END : Z;
  UF2_FLAG_NOFLASH : Z;
  UF2_FLAG_FAMILYID : Z;
  SERIALNUM_MAGIC_START0 : Z;
  SERIALNUM_MAGIC_START1 : Z;
  SERIALNUM_MAGIC_END : Z;
  COMPILE_SECONDS_INT : Z;
  COMPILE_DOS_TIME : Z;
  COMPILE_DOS_DATE : Z
}.

(** [board.h] *)
Definition UF2_VOLUME_LABEL : string := "ENERTYMBOOT"%string.

(** ** The file table *)

(** [FileContent_t]; [content = None] is the C [NULL]. *)
Record FileContent_t := mkFile {
  name : list Z;
  content : option (list Z);
  size : Z;
  cluster_start : Z;
  cluster_end : Z
}.

Definition no_file : FileContent_t := mkFile [] None 0 0 0.

Definition BPB_SECTOR_SIZE : Z := 512.
Definition BPB_RESERVED_SECTORS : Z := 1.
Definition BPB_NUMBER_OF_FATS : Z := 2.
Definition BPB_ROOT_DIR_ENTRIES : Z := 64.
Definition BPB_MEDIA_DESCRIPTOR_BYTE : Z := 0xF8.
Definition FAT_ENTRY_SIZE : Z := 2.
Definition FAT_ENTRIES_PER_SECTOR : Z := BPB_SECTOR_SIZE / FAT_ENTRY_SIZE.
Definition FAT_END_OF_CHAIN : Z := 0xFFFF.
Definition sizeof_DirEntry : Z := 32.
Definition DIRENTRIES_PER_SECTOR : Z := BPB_SECTOR_SIZE / sizeof_DirEntry.
Definition ROOT_DIR_SECTOR_COUNT : Z :=
  UF2_DIV_CEIL BPB_ROOT_DIR_ENTRIES DIRENTRIES_PER_SECTOR.
Definition UF2_FIRMWARE_BYTES_PER_SECTOR : Z := 256.

(** [BYTE_COUNT(_flash_size)], in [uint32_t] arithmetic. *)
Definition BYTE_COUNT (flash_size : Z) : Z :=
  u32 ((flash_size / UF2_FIRMWARE_BYTES_PER_SECTOR) * BPB_SECTOR_SIZE).

Section Geometry.
Variable cfg : Config.

Definition BPB_SECTORS_PER_CLUSTER : Z := CFG_UF2_SECTORS_PER_CLUSTER cfg.
Definition BPB_TOTAL_SECTORS : Z := CFG_UF2_NUM_BLOCKS cfg.
Definition TOTAL_CLUSTERS_ROUND_UP : Z :=
  UF2_DIV_CEIL BPB_TOTAL_SECTORS BPB_SECTORS_PER_CLUSTER.
Definition BPB_SECTORS_PER_FAT : Z :=
  UF2_DIV_CEIL TOTAL_CLUSTERS_ROUND_UP FAT_ENTRIES_PER_SECTOR.
Definition BPB_BYTES_PER_CLUSTER : Z :=
  BPB_SECTOR_SIZE * BPB_SECTORS_PER_CLUSTER.
Definition NUM_SECTORS_IN_DATA_REGION : Z :=
  BPB_TOTAL_SECTORS - BPB_RESERVED_SECTORS
  - (BPB_NUMBER_OF_FATS * BPB_SECTORS_PER_FAT) - ROOT_DIR_SECTOR_COUNT.
Definition CLUSTER_COUNT : Z :=
  NUM_SECTORS_IN_DATA_REGION / BPB_SECTORS_PER_CLUSTER.
Definition FS_START_FAT0_SECTOR : Z := BPB_RESERVED_SECTORS.
Definition FS_START_FAT1_SECTOR : Z :=
  FS_START_FAT0_SECTOR + BPB_SECTORS_PER_FAT.
Definition FS_START_ROOTDIR_SECTOR : Z :=
  FS_START_FAT1_SECTOR + BPB_SECTORS_PER_FAT.
Definition FS_START_CLUSTERS_SECTOR : Z :=
  FS_START_ROOTDIR_SECTOR + ROOT_DIR_SECTOR_COUNT.

(** The [STATIC_ASSERT]s on the geometry that the build enforces. *)
Definition geometry_ok : Prop :=
  0 < BPB_SECTORS_PER_CLUSTER
  /\ Z.land BPB_SECTORS_PER_CLUSTER (BPB_SECTORS_PER_CLUSTER - 1) = 0
  /\ BPB_BYTES_PER_CLUSTER <= 32 * 1024
  /\ 0x1015 <= CLUSTER_COUNT < 0xFFD5.

(** *** [init_starting_clusters] *)

(** The loop body for one table entry, entered with [start_cluster]. *)
Definition assign_clusters (start_cluster : Z) (f : FileContent_t)
  : FileContent_t :=
  mkFile (name f) (content f) (size f)
    start_cluster
    (u16 (u32 (start_cluster
               + UF2_DIV_CEIL (size f) (BPB_SECTOR_SIZE * BPB_SECTORS_PER_CLUSTER)
               - 1))).

Fixpoint init_clusters_from (start_cluster : Z) (tbl : list FileContent_t)
  : list FileContent_t :=
  match tbl with
  | [] => []
  | f :: rest =>
      let f' := assign_clusters start_cluster f in
      f' :: init_clusters_from (u16 (cluster_end f' + 1)) rest
  end.

Definition init_starting_clusters (tbl : list FileContent_t)
  : list FileContent_t :=
  init_clusters_from 2 tbl.
End Geometry.

(** ** Reading: [uf2_read_block] *)

(** What a read depends on: the file table as [uf2_init] left it, the
    flash size, and the bytes the two external readers deliver
    ([board_flash_read] by flash address, [board_measuremnt_data_read]
    by offset into the measurement data). *)
Record Env := mkEnv {
  info : list FileContent_t;
  _flash_size : Z;
  flash_byte : Z -> Z;
  measurement_byte : Z -> Z
}.

(** [padded_memcpy]: [len] bytes of [src], blanks from its first NUL on. *)
Fixpoint padded_memcpy (src : list Z) (len : nat) : list Z :=
  match len with
  | O => []
  | S n =>
      match src with
      | c :: rest =>
          if c =? 0 then 32 :: padded_memcpy src n
          else c :: padded_memcpy rest n
      | [] => 32 :: padded_memcpy src n
      end
  end.

(** The integers [0 .. n-1], the values of a C loop counter. *)
Definition upto (n : nat) : list Z := map Z.of_nat (seq 0 n).

(** [board_flash_read(addr, buf, len)] and
    [board_measuremnt_data_read(offset, buf, len)] fill [len] bytes. *)
Definition board_flash_read (env : Env) (addr : Z) (len : nat) : list Z :=
  map (fun k => flash_byte env (addr + k)) (upto len).
Definition board_measuremnt_data_read (env : Env) (offset : Z) (len : nat)
  : list Z :=
  map (fun k => measurement_byte env (offset + k)) (upto len).

(** [info_index_of]'s scan of the table from index [i]. *)
Fixpoint info_scan (i : nat) (tbl : list FileContent_t) (cluster : Z)
  : option nat :=
  match tbl with
  | [] => None
  | f :: rest =>
      if (cluster_start f <=? cluster) && (cluster <=? cluster_end f)
      then Some i
      else info_scan (S i) rest cluster
  end.

Section Read.
Variable cfg : Config.
Variable env : Env.

Definition NUM_FILES : nat := length (info env).
Definition FID_MEASURMENT_DATA : nat := (NUM_FILES - 2)%nat.
Definition FID_UF2 : nat := (NUM_FILES - 1)%nat.

Definition UF2_SECTOR_COUNT : Z :=
  _flash_size env / UF2_FIRMWARE_BYTES_PER_SECTOR.
Definition UF2_BYTE_COUNT : Z := u32 (UF2_SECTOR_COUNT * BPB_SECTOR_SIZE).

Definition info_index_of (cluster : Z) : nat :=
  if 0xFFF0 <=? cluster then FID_UF2
  else match info_scan 0 (info env) cluster with
       | Some i => i
       | None => FID_UF2
       end.

(** The packed [FAT_BootBlock] constant, 62 bytes. *)
Definition BootBlock : list Z :=
  [0xeb; 0x3c; 0x90]
  ++ bytes_of_string "UF2 UF2 "
  ++ le_bytes 2 BPB_SECTOR_SIZE
  ++ le_bytes 1 (BPB_SECTORS_PER_CLUSTER cfg)
  ++ le_bytes 2 BPB_RESERVED_SECTORS
  ++ le_bytes 1 BPB_NUMBER_OF_FATS
  ++ le_bytes 2 BPB_ROOT_DIR_ENTRIES
  ++ le_bytes 2 (if 0xFFFF <? BPB_TOTAL_SECTORS cfg then 0
                 else BPB_TOTAL_SECTORS cfg)
  ++ le_bytes 1 BPB_MEDIA_DESCRIPTOR_BYTE
  ++ le_bytes 2 (BPB_SECTORS_PER_FAT cfg)
  ++ le_bytes 2 1
  ++ le_bytes 2 1
  ++ le_bytes 4 0
  ++ le_bytes 4 (if 0xFFFF <? BPB_TOTAL_SECTORS cfg
                 then BPB_TOTAL_SECTORS cfg else 0)
  ++ le_bytes 1 0x80
  ++ le_bytes 1 0
  ++ le_bytes 1 0x29
  ++ le_bytes 4 0x00420042
  ++ bytes_of_string UF2_VOLUME_LABEL
  ++ bytes_of_string "FAT16   ".
Definition BootBlock_VolumeLabel : list Z := read_at 43 11 BootBlock.
Definition sizeof_BootBlock : nat := 62.

(** *** FAT sectors *)

(** "Set default FAT values first." *)
Definition fat_default (sectorFirstCluster firstUnusedCluster : Z)
    (data : list Z) : list Z :=
  fold_left
    (fun data i =>
       let cluster := u32 (i + sectorFirstCluster) in
       if firstUnusedCluster <=? cluster then set16 data (2 * i) 0
       else set16 data (2 * i) (cluster + 1))
    (upto (Z.to_nat FAT_ENTRIES_PER_SECTOR)) data.

(** "Exception #1: clusters 0 and 1 need special handling" *)
Definition fat_reserved (sectionRelativeSector : Z) (data : list Z)
  : list Z :=
  if sectionRelativeSector =? 0 then
    let data := set8 data 0 BPB_MEDIA_DESCRIPTOR_BYTE in
    let data := set8 data 1 0xff in
    set16 data (2 * 1) FAT_END_OF_CHAIN
  else data.

(** "Exception #2: the final cluster of each file must be set to
    END_OF_CHAIN" *)
Definition fat_chain_ends (sectorFirstCluster : Z) (data : list Z)
  : list Z :=
  fold_left
    (fun data f =>
       let lastClusterOfFile := cluster_end f in
       if sectorFirstCluster <=? lastClusterOfFile then
         let idx := u32 (lastClusterOfFile - sectorFirstCluster) in
         if idx <? FAT_ENTRIES_PER_SECTOR
         then set16 data (2 * idx) FAT_END_OF_CHAIN
         else data
       else data)
    (info env) data.

Definition read_fat_sector (block_no : Z) (data : list Z) : list Z :=
  let sectionRelativeSector := u32 (block_no - FS_START_FAT0_SECTOR) in
  let sectionRelativeSector :=
    if BPB_SECTORS_PER_FAT cfg <=? sectionRelativeSector
    then u32 (sectionRelativeSector - BPB_SECTORS_PER_FAT cfg)
    else sectionRelativeSector in
  let sectorFirstCluster :=
    u32 (sectionRelativeSector * FAT_ENTRIES_PER_SECTOR) in
  let firstUnusedCluster :=
    u32 (cluster_end (nth FID_UF2 (info env) no_file) + 1) in
  let data := fat_default sectorFirstCluster firstUnusedCluster data in
  let data := fat_reserved sectionRelativeSector data in
  fat_chain_ends sectorFirstCluster data.

(** *** Root-directory sectors *)

(** The volume-label entry: name and [attrs = 0x28]. *)
Definition write_label_entry (d : Z) (data : list Z) : list Z :=
  let base := sizeof_DirEntry * d in
  let data :=
    write_at (Z.to_nat base) (padded_memcpy BootBlock_VolumeLabel 11) data in
  set8 data (base + 11) 0x28.

(** The body of the loop over files: the fields stored through [d]
    ([attrs] and [reserved] are left as [memset] made them). *)
Definition write_file_entry (d : Z) (inf : FileContent_t) (data : list Z)
  : list Z :=
  let base := sizeof_DirEntry * d in
  let startCluster := cluster_start inf in
  let data := write_at (Z.to_nat base) (padded_memcpy (name inf) 11) data in
  let data := set8 data (base + 13) (COMPILE_SECONDS_INT cfg mod 2 * 100) in
  let data := set16 data (base + 14) (COMPILE_DOS_TIME cfg) in
  let data := set16 data (base + 16) (COMPILE_DOS_DATE cfg) in
  let data := set16 data (base + 18) (COMPILE_DOS_DATE cfg) in
  let data := set16 data (base + 20) (Z.shiftr startCluster 16) in
  let data := set16 data (base + 22) (COMPILE_DOS_TIME cfg) in
  let data := set16 data (base + 24) (COMPILE_DOS_DATE cfg) in
  let data := set16 data (base + 26) (Z.land startCluster 0xFFFF) in
  set32 data (base + 28)
    (match content inf with
     | Some _ => size inf
     | None => UF2_BYTE_COUNT
     end).

(** The loop [for (fileIndex = startingFileIndex; remainingEntries > 0
    && fileIndex < NUM_FILES; fileIndex++, d++)], entered with the
    files from [fileIndex] on; [remainingEntries] is not changed by
    the loop. *)
Fixpoint dir_entries (remainingEntries : Z) (files : list FileContent_t)
    (d : Z) (data : list Z) : list Z :=
  match files with
  | [] => data
  | inf :: rest =>
      if 0 <? remainingEntries
      then dir_entries remainingEntries rest (d + 1)
             (write_file_entry d inf data)
      else data
  end.

Definition read_rootdir_sector (block_no : Z) (data : list Z) : list Z :=
  let sectionRelativeSector :=
    u32 (block_no - FS_START_ROOTDIR_SECTOR cfg) in
  let remainingEntries := DIRENTRIES_PER_SECTOR in
  if sectionRelativeSector =? 0 then
    let data := write_label_entry 0 data in
    dir_entries (remainingEntries - 1) (info env) 1 data
  else
    let startingFileIndex :=
      u32 (DIRENTRIES_PER_SECTOR * sectionRelativeSector - 1) in
    dir_entries remainingEntries
      (skipn (Z.to_nat startingFileIndex) (info env)) 0 data.

(** *** Data sectors *)

(** "Handle all files other than CURRENT.UF2": a window of at most one
    sector on the static content.  Every file that reaches this branch
    has content in the table of the source; a [NULL] here (a read
    through a null pointer in C) reads as an empty buffer. *)
Definition read_static_file (inf : FileContent_t)
    (fileRelativeSector : Z) (data : list Z) : list Z :=
  let fileContentStartOffset := u32 (fileRelativeSector * BPB_SECTOR_SIZE) in
  let fileContentLength := size inf in
  if fileContentStartOffset <? fileContentLength then
    let dataStart :=
      skipn (Z.to_nat fileContentStartOffset)
        (match content inf with Some c => c | None => [] end) in
    let bytesToCopy := fileContentLength - fileContentStartOffset in
    let bytesToCopy :=
      if BPB_SECTOR_SIZE <? bytesToCopy then BPB_SECTOR_SIZE
      else bytesToCopy in
    memcpy data dataStart (Z.to_nat bytesToCopy)
  else data.

(** "CURRENT.UF2: generate data on-the-fly".  The [UF2_Block] fields
    lie at offsets 0 (magicStart0), 4 (magicStart1), 8 (flags),
    12 (targetAddr), 16 (payloadSize), 20 (blockNo), 24 (numBlocks),
    28 (familyID), 32 (data) and 508 (magicEnd). *)
Definition read_current_uf2 (fileRelativeSector : Z) (data : list Z)
  : list Z :=
  let addr :=
    u32 (BOARD_FLASH_APP_START cfg
         + fileRelativeSector * UF2_FIRMWARE_BYTES_PER_SECTOR) in
  if addr <? u32 (BOARD_FLASH_ADDR_ZERO cfg + _flash_size env) then
    let data := set32 data 0 (UF2_MAGIC_START0 cfg) in
    let data := set32 data 4 (UF2_MAGIC_START1 cfg) in
    let data := set32 data 508 (UF2_MAGIC_END cfg) in
    let data := set32 data 20 fileRelativeSector in
    let data := set32 data 24 UF2_SECTOR_COUNT in
    let data := set32 data 12 addr in
    let data := set32 data 16 UF2_FIRMWARE_BYTES_PER_SECTOR in
    let data := set32 data 8 (UF2_FLAG_FAMILYID cfg) in
    let data := set32 data 28 (BOARD_UF2_FAMILY_ID cfg) in
    write_at 32
      (board_flash_read env addr (Z.to_nat UF2_FIRMWARE_BYTES_PER_SECTOR))
      data
  else data.

(** The measurement-data file: the same window, filled by
    [board_measuremnt_data_read]. *)
Definition read_measurement_file (inf : FileContent_t)
    (fileRelativeSector : Z) (data : list Z) : list Z :=
  let fileContentStartOffset := u32 (fileRelativeSector * BPB_SECTOR_SIZE) in
  let fileContentLength := size inf in
  if fileContentStartOffset <? fileContentLength then
    let bytesToCopy := fileContentLength - fileContentStartOffset in
    let bytesToCopy :=
      if BPB_SECTOR_SIZE <? bytesToCopy then BPB_SECTOR_SIZE
      else bytesToCopy in
    write_at 0
      (board_measuremnt_data_read env fileContentStartOffset
         (Z.to_nat bytesToCopy))
      data
  else data.

Definition read_data_sector (block_no : Z) (data : list Z) : list Z :=
  let sectionRelativeSector :=
    u32 (block_no - FS_START_CLUSTERS_SECTOR cfg) in
  let fid :=
    info_index_of
      (u32 (2 + sectionRelativeSector / BPB_SECTORS_PER_CLUSTER cfg)) in
  let inf := nth fid (info env) no_file in
  let fileRelativeSector :=
    u32 (sectionRelativeSector
         - (cluster_start inf - 2) * BPB_SECTORS_PER_CLUSTER cfg) in
  if negb (fid =? FID_UF2)%nat && negb (fid =? FID_MEASURMENT_DATA)%nat
  then read_static_file inf fileRelativeSector data
  else if (fid =? FID_UF2)%nat
  then read_current_uf2 fileRelativeSector data
  else read_measurement_file inf fileRelativeSector data.

(** [uf2_read_block(block_no, data)]: the sector left in [data]. *)
Definition uf2_read_block (block_no : Z) : list Z :=
  let data := zero_sector (Z.to_nat BPB_SECTOR_SIZE) in
  if block_no =? 0 then
    let data := memcpy data BootBlock sizeof_BootBlock in
    let data := set8 data 510 0x55 in
    set8 data 511 0xaa
  else if block_no <? FS_START_ROOTDIR_SECTOR cfg then
    read_fat_sector block_no data
  else if block_no <? FS_START_CLUSTERS_SECTOR cfg then
    read_rootdir_sector block_no data
  else if block_no <? BPB_TOTAL_SECTORS cfg then
    read_data_sector block_no data
  else data.
End Read.

(** ** The persistence store (ESP-IDF NVS) *)

(** [esp_err_t] values of ESP-IDF used by the code. *)
Definition ESP_OK : Z := 0.
Definition ESP_ERR_INVALID_SIZE : Z := 0x104.
Definition ESP_ERR_NVS_NOT_FOUND : Z := 0x1102.
Definition ESP_ERR_NVS_INVALID_LENGTH : Z := 0x110c.
Definition ESP_ERR_NVS_NO_FREE_PAGES : Z := 0x110d.
Definition ESP_ERR_NVS_NEW_VERSION_FOUND : Z := 0x1110.

(** What one [nvs_get_blob(nvs, key, &size, &required_size)] call did:
    the code it returned and the value it stored into [size], if it
    stored one. *)
Record nvs_get_blob_result := mkGetBlob {
  get_err : Z;
  get_stored : option Z
}.

(** [get_measurment_data_size_nvs].  The local [size] is declared
    without an initialiser: [indeterminate] stands for what it holds
    when [nvs_get_blob] stores nothing. *)
Definition get_measurment_data_size_nvs (indeterminate : Z)
    (r : nvs_get_blob_result) : Z :=
  let size := match get_stored r with
              | Some v => v
              | None => indeterminate
              end in
  if negb (get_err r =? ESP_OK) && negb (get_err r =? ESP_ERR_NVS_NOT_FOUND)
  then 512
  else size.

(** ** Writing: [uf2_write_block] *)

(** [WriteState]; [writtenMask] holds one bit per block index. *)
Record WriteState := mkWriteState {
  numBlocks : Z;
  numWritten : Z;
  writtenMask : list Z
}.

(** The calls [uf2_write_block] makes to its collaborators, in order. *)
Inductive Event : Type :=
| board_flash_write (addr : Z) (data : list Z) (len : Z)
| board_flash_flush
| nvs_open
| nvs_set_blob (value : list Z)
| nvs_commit
| nvs_close
| esp_restart.

(** What the persistence store answers to the calls of
    [serialnum_to_nvs]. *)
Record NvsReplies := mkNvsReplies {
  nvs_open_err : Z;
  nvs_set_blob_err : Z;
  nvs_commit_err : Z
}.

Definition serialnum_to_nvs (nvs : NvsReplies) (serialNumberHex : list Z)
  : Z * list Event :=
  if negb (nvs_open_err nvs =? ESP_OK) then (nvs_open_err nvs, [nvs_open])
  else if negb (nvs_set_blob_err nvs =? ESP_OK)
  then (nvs_set_blob_err nvs, [nvs_open; nvs_set_blob serialNumberHex])
  else if negb (nvs_commit_err nvs =? ESP_OK)
  then (nvs_commit_err nvs,
        [nvs_open; nvs_set_blob serialNumberHex; nvs_commit])
  else (ESP_OK,
        [nvs_open; nvs_set_blob serialNumberHex; nvs_commit; nvs_close;
         esp_restart]).

(** Modelled from the spec: the layout of [UF2_Block] ([uf2.h] is not
    among the sources): "two start magics + flags + target address +
    payload size + block index + total blocks + family id + 256-byte
    payload region + end magic, totaling 512 bytes", every header
    field 32 bits wide, the end magic in the last four bytes, and
    between header and end magic the 476 bytes of [data]: "up to 256
    bytes of payload plus padding to fill the block". *)
Record UF2_Block := mkUF2 {
  magicStart0 : Z;
  magicStart1 : Z;
  flags : Z;
  targetAddr : Z;
  payloadSize : Z;
  blockNo : Z;
  bl_numBlocks : Z;
  familyID : Z;
  bl_data : list Z;
  magicEnd : Z
}.

Definition as_UF2_Block (data : list Z) : UF2_Block :=
  mkUF2 (get32 data 0) (get32 data 4) (get32 data 8) (get32 data 12)
        (get32 data 16) (get32 data 20) (get32 data 24) (get32 data 28)
        (read_at 32 476 data) (get32 data 508).

(** Modelled from the spec: the layout of [SerialNum_Block] ([uf2.h]):
    a control block with "its own three magic values and a small
    control payload region (at least 6 bytes for a serial number)",
    laid out like a UF2 block: two magics first, the payload after
    them, the end magic in the last four bytes. *)
Record SerialNum_Block := mkSerialNum {
  sn_magicStart0 : Z;
  sn_magicStart1 : Z;
  serialNumber : list Z;
  sn_magicEnd : Z
}.

Definition as_SerialNum_Block (data : list Z) : SerialNum_Block :=
  mkSerialNum (get32 data 0) (get32 data 4) (read_at 8 6 data)
              (get32 data 508).

Section Write.
Variable cfg : Config.

Definition is_uf2_block (bl : UF2_Block) : bool :=
  (magicStart0 bl =? UF2_MAGIC_START0 cfg)
  && (magicStart1 bl =? UF2_MAGIC_START1 cfg)
  && (magicEnd bl =? UF2_MAGIC_END cfg)
  && negb (Z.land (flags bl) (UF2_FLAG_FAMILYID cfg) =? 0)
  && (Z.land (flags bl) (UF2_FLAG_NOFLASH cfg) =? 0).

Definition is_serialnum_block (bl : SerialNum_Block) : bool :=
  (sn_magicStart0 bl =? SERIALNUM_MAGIC_START0 cfg)
  && (sn_magicStart1 bl =? SERIALNUM_MAGIC_START1 cfg)
  && (sn_magicEnd bl =? SERIALNUM_MAGIC_END cfg).

(** "Update state num blocks if needed" *)
Definition update_numBlocks (bl : UF2_Block) (state : WriteState)
  : WriteState :=
  if negb (numBlocks state =? bl_numBlocks bl) then
    if (MAX_BLOCKS cfg <=? bl_numBlocks bl) || negb (numBlocks state =? 0)
    then mkWriteState 0xffffffff (numWritten state) (writtenMask state)
    else mkWriteState (bl_numBlocks bl) (numWritten state)
           (writtenMask state)
  else state.

(** The bit of block index [blockNo] in the mask, as the code tests
    it: [writtenMask[pos] & mask]. *)
Definition written (state : WriteState) (blockNo : Z) : bool :=
  let mask := u8 (Z.shiftl 1 (blockNo mod 8)) in
  let pos := Z.to_nat (blockNo / 8) in
  negb (Z.land (nth pos (writtenMask state) 0) mask =? 0).

(** "only increase written number with new write" *)
Definition mark_written (bl : UF2_Block) (state : WriteState)
  : WriteState :=
  let mask := u8 (Z.shiftl 1 (blockNo bl mod 8)) in
  let pos := Z.to_nat (blockNo bl / 8) in
  if Z.land (nth pos (writtenMask state) 0) mask =? 0 then
    mkWriteState (numBlocks state) (u32 (numWritten state + 1))
      (write_at pos [Z.lor (nth pos (writtenMask state) 0) mask]
         (writtenMask state))
  else state.

(** "Update written blocks": the new state and the calls made. *)
Definition update_written (bl : UF2_Block) (state : WriteState)
  : WriteState * list Event :=
  if negb (bl_numBlocks bl =? 0) then
    let state := update_numBlocks bl state in
    if blockNo bl <? MAX_BLOCKS cfg then
      let state := mark_written bl state in
      if numBlocks state <=? numWritten state
      then (state, [board_flash_flush])
      else (state, [])
    else (state, [])
  else (state, []).

(** [uf2_write_block(block_no, data, state)]: the value returned, the
    state left in [*state] and the calls made, in order. *)
Definition uf2_write_block (nvs : NvsReplies) (block_no : Z)
    (data : list Z) (state : WriteState)
  : Z * WriteState * list Event :=
  let bl := as_UF2_Block data in
  if negb (is_uf2_block bl) then
    let sn := as_SerialNum_Block data in
    if is_serialnum_block sn then
      let '(err, calls) := serialnum_to_nvs nvs (serialNumber sn) in
      if negb (err =? ESP_OK) then (-1, state, calls)
      else (BPB_SECTOR_SIZE, state, calls)
    else (-1, state, [])
  else if familyID bl =? BOARD_UF2_FAMILY_ID cfg then
    let '(state', calls) := update_written bl state in
    (BPB_SECTOR_SIZE, state',
     board_flash_write (targetAddr bl) (bl_data bl) (payloadSize bl)
     :: calls)
  else (-1, state, []).
End Write.

(** ** The information text

    [infoUf2File] is a character array; [uf2_init] patches the serial
    number into it and appends the flash size.  A pointer into an
    array is the array and an offset. *)

(** [const char hexDigits[] = "0123456789ABCDEF"] *)
Definition hexDigits : list Z := bytes_of_string "0123456789ABCDEF" ++ [0].

(** [u32_to_hexstr(value, buffer)], [buffer] pointing [off] bytes into
    [buf]. *)
Definition u32_to_hexstr (value : Z) (buf : list Z) (off : nat) : list Z :=
  let buf :=
    fold_left
      (fun buf i =>
         write_at (off + i)
           [nth (Z.to_nat (Z.land (Z.shiftr value (28 - Z.of_nat i * 4)) 0xF))
              hexDigits 0]
           buf)
      (seq 0 8) buf in
  write_at (off + 8) [0] buf.

(** [u8_to_hexstr(value, arr_len, buffer)], [buffer] pointing [off]
    bytes into [buf]. *)
Definition u8_to_hexstr (value : list Z) (arr_len : nat) (buf : list Z)
    (off : nat) : list Z :=
  let buf :=
    fold_left
      (fun buf i =>
         let buf :=
           write_at (off + i * 2)
             [nth (Z.to_nat (Z.land (Z.shiftr (nth i value 0) 4) 0xF))
                hexDigits 0]
             buf in
         write_at (off + i * 2 + 1)
           [nth (Z.to_nat (Z.land (nth i value 0) 0xF)) hexDigits 0] buf)
      (seq 0 arr_len) buf in
  write_at (off + arr_len * 2) [0] buf.

(** The C library on character arrays.  [strlen]: the characters
    before the first NUL (an array without NUL is read to its end). *)
Fixpoint strlen (s : list Z) : nat :=
  match s with
  | [] => 0
  | c :: s' => if c =? 0 then 0 else S (strlen s')
  end.

(** The characters [chars] stand at the start of [s]. *)
Fixpoint starts_with (chars s : list Z) : bool :=
  match chars, s with
  | [], _ => true
  | n :: chars', c :: s' => (c =? n) && starts_with chars' s'
  | _ :: _, [] => false
  end.

(** The offset of the first occurrence of [chars] in the string
    [haystack]. *)
Fixpoint find_chars (chars haystack : list Z) : option nat :=
  if starts_with chars haystack then Some 0%nat
  else match haystack with
       | [] => None
       | c :: haystack' =>
           if c =? 0 then None else option_map S (find_chars chars haystack')
       end.

(** [strstr(haystack, needle)]: the offset of the first occurrence of
    the string [needle] in the string [haystack], [None] for [NULL]. *)
Definition strstr (haystack needle : list Z) : option nat :=
  find_chars (firstn (strlen needle) needle) haystack.

(** [strncpy(dst, src, n)], [dst] pointing [off] bytes into [buf]: the
    characters of [src] up to its NUL or [n] of them, then NULs up to
    [n] bytes. *)
Definition strncpy (buf : list Z) (off : nat) (src : list Z) (n : nat)
  : list Z :=
  write_at off (firstn n (firstn (strlen src) src ++ repeat 0 n)) buf.

(** [strcpy(dst, src)]: the characters of [src] and its NUL. *)
Definition strcpy (buf : list Z) (off : nat) (src : list Z) : list Z :=
  write_at off (firstn (strlen src) src ++ [0]) buf.

(** What the store answers to the two [nvs_get_blob] calls of
    [serialnum_from_nvs]: the code of the first and [required_size]
    after it, the code of the second and the six bytes of
    [serialNumberHex] after it. *)
Record SerialReplies := mkSerialReplies {
  size_err : Z;
  required_size : Z;
  blob_err : Z;
  blob_after : list Z
}.

(** [serialnum_from_nvs(nvs, serialNumberHex)]: the code returned and
    [serialNumberHex] afterwards. *)
Definition serialnum_from_nvs (r : SerialReplies) (serialNumberHex : list Z)
  : Z * list Z :=
  if negb (size_err r =? ESP_OK) && negb (size_err r =? ESP_ERR_NVS_NOT_FOUND)
  then (size_err r, serialNumberHex)
  else if required_size r =? 0
  then (ESP_OK, write_at 0 [0x01; 0x23; 0x45; 0x67; 0x89; 0x00] serialNumberHex)
  else if negb (required_size r =? 6)
  then (ESP_ERR_INVALID_SIZE, serialNumberHex)
  else if negb (blob_err r =? ESP_OK) then (blob_err r, blob_after r)
  else (ESP_OK, blob_after r).

(** ["AAAAAAAAAAA"] *)
Definition serial_placeholder : list Z := bytes_of_string "AAAAAAAAAAA" ++ [0].

(** The parts of [uf2_init] that patch [infoUf2File].  First the
    serial number: [init_nvs_partition()] returned [nvs_err], the store
    answered [r]; the locals [serialNumberHex] and [serialNumber]
    start with whatever [hex0] (6 bytes) and [str0] (12 bytes) hold.
    The result is [serialNumberHex] and the array. *)
Definition uf2_init_serial (infoUf2File : list Z) (nvs_err : Z)
    (r : SerialReplies) (hex0 str0 : list Z) : list Z * list Z :=
  let serialNumberHex := hex0 in
  if (nvs_err =? ESP_ERR_NVS_NO_FREE_PAGES)
     || (nvs_err =? ESP_ERR_NVS_NEW_VERSION_FOUND)
  then (write_at 0 [0x10; 0x10; 0x10; 0x11; 0x11; 0x00] serialNumberHex,
        infoUf2File)
  else if negb (nvs_err =? ESP_OK)
  then (write_at 0 [0x11; 0x11; 0x11; 0x00; 0x00; 0x00] serialNumberHex,
        infoUf2File)
  else
    let '(err, serialNumberHex) := serialnum_from_nvs r serialNumberHex in
    let serialNumberHex :=
      if err =? ESP_ERR_INVALID_SIZE
      then write_at 0 [0x10; 0x11; 0x10; 0x11; 0x10; 0x00] serialNumberHex
      else if err =? ESP_ERR_NVS_NOT_FOUND
      then write_at 0 [0x10; 0x10; 0x10; 0x10; 0x10; 0x00] serialNumberHex
      else if negb (err =? ESP_OK)
      then write_at 0 [0x11; 0x00; 0x11; 0x00; 0x11; 0x00] serialNumberHex
      else serialNumberHex in
    let serialNumber := str0 in
    let serialNumber :=
      u8_to_hexstr (skipn 1 serialNumberHex) 5 serialNumber 1 in
    let serialNumber := write_at 0 [nth 0 serialNumberHex 0] serialNumber in
    let infoUf2File :=
      match strstr infoUf2File serial_placeholder with
      | Some serialPosition =>
          strncpy infoUf2File serialPosition serialNumber 11
      | None => infoUf2File
      end in
    (serialNumberHex, infoUf2File).

(** Then the flash size, "if having enough space (8 bytes)":
    [board_flash_size()] returned [flash_size].  The result is the
    array and [txt_len], in [size_t] arithmetic. *)
Definition uf2_init_flash_size (infoUf2File : list Z) (flash_size : Z)
  : list Z * Z :=
  let txt_len := Z.of_nat (strlen infoUf2File) in
  let max_len := Z.of_nat (length infoUf2File) - 1 in
  if 8 <? u32 (max_len - txt_len) then
    let infoUf2File :=
      u32_to_hexstr flash_size infoUf2File (Z.to_nat txt_len) in
    let txt_len := u32 (txt_len + 8) in
    if 6 <? u32 (max_len - txt_len) then
      (strcpy infoUf2File (Z.to_nat txt_len) (bytes_of_string " bytes" ++ [0]),
       u32 (txt_len + 6))
    else (infoUf2File, txt_len)
  else (infoUf2File, txt_len).

(** ** The static file table *)

(** A character array initialised from a string literal: the
    characters and the terminating NUL. *)
Definition c_string (s : string) : list Z := bytes_of_string s ++ [0].

(** [test_csv_data] *)
Definition test_csv_data : list Z :=
  c_string (String.concat (String (ascii_of_nat 10) EmptyString)
    ["time,CT1,CT2,CT3"; "0,0,0,0"; "1,1,1,1"; "2,2,2,2"; "3,3,3,3";
     "4,4,4,4"; "5,5,5,5"; "6,6,6,6"; "7,7,7,7"; "8,8,8,8"; "9,9,9,9";
     ""])%string.

(** The static initialiser of [info] (built without
    [TINYUF2_FAVICON_HEADER]), over the two generated texts. *)
Definition info_static (infoUf2File indexFile : list Z)
  : list FileContent_t :=
  [ mkFile (bytes_of_string "INFO_UF2TXT") (Some infoUf2File)
      (Z.of_nat (length infoUf2File) - 1) 0 0;
    mkFile (bytes_of_string "INDEX   HTM") (Some indexFile)
      (Z.of_nat (length indexFile) - 1) 0 0;
    mkFile (bytes_of_string "TEST    CSV") (Some test_csv_data)
      (Z.of_nat (length test_csv_data) - 1) 0 0;
    mkFile (bytes_of_string "MEASDAT CSV") None 0 0 0;
    mkFile (bytes_of_string "CURRENT UF2") None 0 0 0 ].

(** ** Initialisation: [uf2_init] *)

(** [info[i].size = sz] *)
Definition set_size (i : nat) (sz : Z) (tbl : list FileContent_t)
  : list FileContent_t :=
  match nth_error tbl i with
  | Some f =>
      firstn i tbl
      ++ mkFile (name f) (content f) sz (cluster_start f) (cluster_end f)
      :: skipn (S i) tbl
  | None => tbl
  end.

(** What [info[i].content] points to has become [c]. *)
Definition set_content (i : nat) (c : list Z) (tbl : list FileContent_t)
  : list FileContent_t :=
  match nth_error tbl i with
  | Some f =>
      firstn i tbl
      ++ mkFile (name f) (Some c) (size f) (cluster_start f) (cluster_end f)
      :: skipn (S i) tbl
  | None => tbl
  end.

(** [uf2_init], from the static state of the file: the arrays
    [infoUf2File] and [indexFile] and the table [info] over them.
    [board_flash_size()] returned [flash_size], [init_nvs_partition()]
    returned [nvs_err], the store answered [r] to the reads of the
    serial number and [meas] to the read of the measurement size; the
    locals start with [hex0], [str0] and [indeterminate].
    [info[FID_INFO].content] points to [infoUf2File], which is patched
    in place: the entry reads the array as the function leaves it.
    The result is the table, [_measurement_flash_size] (a static,
    so 0 until it is assigned) and the array. *)
Definition uf2_init (cfg : Config) (infoUf2File indexFile : list Z)
    (flash_size nvs_err : Z) (r : SerialReplies) (hex0 str0 : list Z)
    (indeterminate : Z) (meas : nvs_get_blob_result)
  : list FileContent_t * Z * list Z :=
  let info := info_static infoUf2File indexFile in
  let n := length info in
  let info := set_size (n - 1) (BYTE_COUNT flash_size) info in
  let infoUf2File := snd (uf2_init_serial infoUf2File nvs_err r hex0 str0) in
  let '(info, measurement_flash_size) :=
    if (nvs_err =? ESP_ERR_NVS_NO_FREE_PAGES)
       || (nvs_err =? ESP_ERR_NVS_NEW_VERSION_FOUND)
    then (info, 0)
    else if negb (nvs_err =? ESP_OK) then (info, 0)
    else
      let m := get_measurment_data_size_nvs indeterminate meas in
      (set_size (n - 2) (BYTE_COUNT m) info, m) in
  let '(infoUf2File, txt_len) :=
    uf2_init_flash_size infoUf2File flash_size in
  let info := set_size 0 txt_len info in
  let info := set_content 0 infoUf2File info in
  (init_starting_clusters cfg info, measurement_flash_size, infoUf2File).

(** ** A concrete build and device

    The values tinyuf2 uses for an ESP32-S2 with 4 MiB of flash; the
    magic numbers of the serial-number block and the build time stamp
    are samples. *)
Definition sample_cfg : Config :=
  mkConfig 1 0x10109 (4 * 1024 * 1024 / 256 + 100) 0xbfdd4eee 0 0
    0x0A324655 0x9E5D5157 0x0AB16F30 0x00000001 0x00002000
    0x4E534E45 0x59545245 0x0A4E5345
    30 0x6000 0x5B5E.

(** A build of the information text (the literal of the source with
    a sample version and build date) in its 384-byte array, and a
    sample index page. *)
Definition sample_infoUf2File : list Z :=
  let crlf := String (ascii_of_nat 13) (String (ascii_of_nat 10) EmptyString) in
  let txt :=
    bytes_of_string
      (String.concat crlf
         ["EnertyUF2 Bootloader 0.0.0"; "Model: FTDI USB-RS485 Cable";
          "Board-ID: ESP32S2FN4R2-ModuleM-1-0-0"; "Date: Jan  1 2024";
          "Serial Number: AAAAAAAAAAA"; "Flash Size: 0x"])%string in
  txt ++ repeat 0 (128 * 3 - length txt).
Definition sample_indexFile : list Z := c_string "<!doctype html>".

(** A store that holds the serial number "E" 12 34 56 78 90. *)
Definition sample_serial : SerialReplies :=
  mkSerialReplies ESP_OK 6 ESP_OK [0x45; 0x12; 0x34; 0x56; 0x78; 0x90].

(** [uf2_init] on a device with 4 MiB of flash and a working store
    that holds this serial number and a measurement size of [meas]
    bytes; the locals start zeroed. *)
Definition sample_init (meas : Z) : list FileContent_t * Z * list Z :=
  uf2_init sample_cfg sample_infoUf2File sample_indexFile 0x400000 ESP_OK
    sample_serial (repeat 0 6) (repeat 0 12) 0 (mkGetBlob ESP_OK (Some meas)).

(** The device after [uf2_init] with 1024 bytes of measurement data;
    flash and measurement bytes all 0xA5 and 0x5A. *)
Definition sample_info : list FileContent_t := fst (fst (sample_init 1024)).
Definition sample_env : Env :=
  mkEnv sample_info 0x400000 (fun _ => 0xA5) (fun _ => 0x5A).

(** The same device with a store that holds a measurement size of
    16776960 bytes. *)
Definition large_info : list FileContent_t := fst (fst (sample_init 16776960)).

(** * Vocabulary of the statements *)

(** The clusters one table entry needs. *)
Definition clusters_of (cfg : Config) (f : FileContent_t) : Z :=
  UF2_DIV_CEIL (size f) (BPB_SECTOR_SIZE * BPB_SECTORS_PER_CLUSTER cfg).

(** The first cluster left free when the entries of [tbl] are laid out
    one after the other from [start], computed without wrap-around. *)
Fixpoint end_of_allocation (cfg : Config) (start : Z)
    (tbl : list FileContent_t) : Z :=
  match tbl with
  | [] => start
  | f :: rest => end_of_allocation cfg (start + clusters_of cfg f) rest
  end.

(** The table fits a FAT16 volume: sizes are sizes, and every cluster
    number up to the first free one fits in 16 bits. *)
Definition fits_fat16 (cfg : Config) (tbl : list FileContent_t) : Prop :=
  Forall (fun f => 0 <= size f) tbl /\ end_of_allocation cfg 2 tbl <= 0xFFFF.

(** Cluster [c] belongs to file [f]. *)
Definition in_range (f : FileContent_t) (c : Z) : Prop :=
  cluster_start f <= c <= cluster_end f.

(** The ranges of [l] follow each other from cluster [s] on. *)
Fixpoint chain (s : Z) (l : list FileContent_t) : Prop :=
  match l with
  | [] => True
  | f :: rest =>
      cluster_start f = s /\ s - 1 <= cluster_end f
      /\ chain (cluster_end f + 1) rest
  end.

Fixpoint chain_end (s : Z) (l : list FileContent_t) : Z :=
  match l with
  | [] => s
  | f :: rest => chain_end (cluster_end f + 1) rest
  end.

(** The cluster range assigned to a table entry. *)
Definition range_of (f : FileContent_t) : Z * Z :=
  (cluster_start f, cluster_end f).

(** A firmware block as a host sends it: header fields, zero payload. *)
Definition uf2_sector (cfg : Config)
    (targetAddr blockNo numBlocks familyID : Z) : list Z :=
  let data := zero_sector 512 in
  let data := set32 data 0 (UF2_MAGIC_START0 cfg) in
  let data := set32 data 4 (UF2_MAGIC_START1 cfg) in
  let data := set32 data 8 (UF2_FLAG_FAMILYID cfg) in
  let data := set32 data 12 targetAddr in
  let data := set32 data 16 256 in
  let data := set32 data 20 blockNo in
  let data := set32 data 24 numBlocks in
  let data := set32 data 28 familyID in
  set32 data 508 (UF2_MAGIC_END cfg).

(** The [WriteState] at the start of a session. *)
Definition fresh_state (cfg : Config) : WriteState :=
  mkWriteState 0 0 (repeat 0 (Z.to_nat (MAX_BLOCKS cfg / 8 + 1))).

Definition sample_nvs : NvsReplies := mkNvsReplies ESP_OK ESP_OK ESP_OK.

(** The three results of a call. *)
Definition returned (r : Z * WriteState * list Event) : Z := fst (fst r).
Definition state_after (r : Z * WriteState * list Event) : WriteState :=
  snd (fst r).
Definition calls_made (r : Z * WriteState * list Event) : list Event := snd r.

(** A firmware block for this device: [is_uf2_block] holds and the
    family identifier is the board's. *)
Definition accepted (cfg : Config) (data : list Z) : Prop :=
  is_uf2_block cfg (as_UF2_Block data) = true
  /\ familyID (as_UF2_Block data) = BOARD_UF2_FAMILY_ID cfg.

(** The claim on totals, as the specification words it: the total is
    turned into the sentinel when the state held another nonzero total
    or the new total "exceeds" [MAX_BLOCKS], and adopted otherwise. *)
Definition total_rule_as_stated (cfg : Config) (nvs : NvsReplies)
    (block_no : Z) (data : list Z) (state : WriteState) : Prop :=
  let bl := as_UF2_Block data in
  let r := uf2_write_block cfg nvs block_no data state in
  accepted cfg data ->
  bl_numBlocks bl <> 0 -> bl_numBlocks bl <> numBlocks state ->
  returned r = 512
  /\ numBlocks (state_after r)
     = if (MAX_BLOCKS cfg <? bl_numBlocks bl) || negb (numBlocks state =? 0)
       then 0xffffffff else bl_numBlocks bl.

(** The claim on the flush, as the specification words it: whenever an
    accepted block leaves the counter at or above the total, the flash
    driver is flushed before 512 is returned. *)
Definition flush_rule_as_stated (cfg : Config) (nvs : NvsReplies)
    (block_no : Z) (data : list Z) (state : WriteState) : Prop :=
  let r := uf2_write_block cfg nvs block_no data state in
  accepted cfg data ->
  numBlocks (state_after r) <= numWritten (state_after r) ->
  returned r = 512 /\ In board_flash_flush (calls_made r).

(** The table of [sample_env] as [uf2_init] hands it to
    [init_starting_clusters]. *)
Definition sample_table : list FileContent_t :=
  set_content 0 (snd (sample_init 1024))
    (set_size 0 170
       (set_size 3 (BYTE_COUNT 1024)
          (set_size 4 (BYTE_COUNT 0x400000)
             (info_static sample_infoUf2File sample_indexFile)))).

(** [g] stores only inside the window [[a, b)] of a buffer that holds
    the window. *)
Definition confined (a b : nat) (g : list Z -> list Z) : Prop :=
  forall data, (b <= length data)%nat ->
    length (g data) = length data
    /\ forall o n, (o + n <= a \/ b <= o)%nat ->
         read_at o n (g data) = read_at o n data.

(** The value [uf2_read_block] stores in the size field of the entry of
    file [inf]. *)
Definition entry_size_field (env : Env) (inf : FileContent_t) : Z :=
  match content inf with
  | Some _ => size inf
  | None => UF2_BYTE_COUNT env
  end.

(** The stores of [write_file_entry] before the last one, into [size]. *)
Definition write_file_entry_head (cfg : Config) (d : Z)
    (inf : FileContent_t) (data : list Z) : list Z :=
  let base := sizeof_DirEntry * d in
  let startCluster := cluster_start inf in
  let data := write_at (Z.to_nat base) (padded_memcpy (name inf) 11) data in
  let data := set8 data (base + 13) (COMPILE_SECONDS_INT cfg mod 2 * 100) in
  let data := set16 data (base + 14) (COMPILE_DOS_TIME cfg) in
  let data := set16 data (base + 16) (COMPILE_DOS_DATE cfg) in
  let data := set16 data (base + 18) (COMPILE_DOS_DATE cfg) in
  let data := set16 data (base + 20) (Z.shiftr startCluster 16) in
  let data := set16 data (base + 22) (COMPILE_DOS_TIME cfg) in
  let data := set16 data (base + 24) (COMPILE_DOS_DATE cfg) in
  set16 data (base + 26) (Z.land startCluster 0xFFFF).



(** The 32 bytes of the directory entry of file [inf]: the padded
    name, [attrs] and [reserved] zero, the build time stamps, the two
    halves of the start cluster and the size field. *)
Definition dir_entry_bytes (cfg : Config) (env : Env) (inf : FileContent_t)
  : list Z :=
  padded_memcpy (name inf) 11
  ++ [0; 0]
  ++ le_bytes 1 (COMPILE_SECONDS_INT cfg mod 2 * 100)
  ++ le_bytes 2 (COMPILE_DOS_TIME cfg)
  ++ le_bytes 2 (COMPILE_DOS_DATE cfg)
  ++ le_bytes 2 (COMPILE_DOS_DATE cfg)
  ++ le_bytes 2 (Z.shiftr (cluster_start inf) 16)
  ++ le_bytes 2 (COMPILE_DOS_TIME cfg)
  ++ le_bytes 2 (COMPILE_DOS_DATE cfg)
  ++ le_bytes 2 (Z.land (cluster_start inf) 0xFFFF)
  ++ le_bytes 4 (entry_size_field env inf).

(** The 32 bytes of the volume-label entry. *)
Definition label_entry_bytes : list Z :=
  bytes_of_string UF2_VOLUME_LABEL ++ [0x28] ++ repeat 0 20.

(** The constants of the UF2 format as [uf2.h] must give them for the
    code to work: 32-bit values, a family-id flag that is not zero and
    shares no bit with the no-flash flag. *)
Definition uf2_constants_ok (cfg : Config) : Prop :=
  0 <= UF2_MAGIC_START0 cfg < 2 ^ 32
  /\ 0 <= UF2_MAGIC_START1 cfg < 2 ^ 32
  /\ 0 <= UF2_MAGIC_END cfg < 2 ^ 32
  /\ 0 <= BOARD_UF2_FAMILY_ID cfg < 2 ^ 32
  /\ 0 < UF2_FLAG_FAMILYID cfg < 2 ^ 32
  /\ Z.land (UF2_FLAG_FAMILYID cfg) (UF2_FLAG_NOFLASH cfg) = 0.

(** The sector of the volume that holds sector [r] of file [inf]. *)
Definition sector_of_file (cfg : Config) (inf : FileContent_t) (r : Z) : Z :=
  FS_START_CLUSTERS_SECTOR cfg
  + (cluster_start inf - 2) * BPB_SECTORS_PER_CLUSTER cfg + r.

(** The sectors file [inf] owns: those of its clusters. *)
Definition sectors_of_file (cfg : Config) (inf : FileContent_t) : Z :=
  (cluster_end inf - cluster_start inf + 1) * BPB_SECTORS_PER_CLUSTER cfg.

(** A serial-number block: the three magic values around the six
    bytes [sn]. *)
Definition serialnum_sector (cfg : Config) (sn : list Z) : list Z :=
  let data := zero_sector 512 in
  let data := set32 data 0 (SERIALNUM_MAGIC_START0 cfg) in
  let data := set32 data 4 (SERIALNUM_MAGIC_START1 cfg) in
  let data := write_at 8 (firstn 6 sn) data in
  set32 data 508 (SERIALNUM_MAGIC_END cfg).

(** The calls that reach the flash driver. *)
Definition flash_call (e : Event) : bool :=
  match e with
  | board_flash_write _ _ _ | board_flash_flush => true
  | _ => false
  end.

(** A session: the sectors of [sectors] handed to [uf2_write_block] one
    after the other on the same [WriteState]; the final state and all
    the calls made, in order. *)
Definition write_session (cfg : Config) (nvs : NvsReplies)
    (sectors : list (list Z)) (state : WriteState)
  : WriteState * list Event :=
  fold_left
    (fun acc data =>
       let r := uf2_write_block cfg nvs 0 data (fst acc) in
       (state_after r, snd acc ++ calls_made r))
    sectors (state, []).

(** The firmware image of [n] blocks based at [base], block after
    block in order, every block declaring the total [n]. *)
Definition image_in_order (cfg : Config) (base : Z) (n : nat)
  : list (list Z) :=
  map (fun b => uf2_sector cfg (base + 256 * b) b (Z.of_nat n)
                  (BOARD_UF2_FAMILY_ID cfg))
      (upto n).

(** The state of a session that has written the first [k] blocks of an
    image of [n]. *)
Definition in_order_state (cfg : Config) (n k : Z) (s : WriteState) : Prop :=
  (numBlocks s = n \/ (numBlocks s = 0 /\ k = 0))
  /\ numWritten s = k
  /\ MAX_BLOCKS cfg <= 8 * Z.of_nat (length (writtenMask s))
  /\ (forall j, 0 <= j < k -> written s j = true)
  /\ (forall j, k <= j -> written s j = false).

(** The value of a hexadecimal digit in upper case. *)
Definition hex_digit_value (c : Z) : option Z :=
  if (48 <=? c) && (c <=? 57) then Some (c - 48)
  else if (65 <=? c) && (c <=? 70) then Some (c - 55)
  else None.

(** The number a string of such digits writes, most significant digit
    first. *)
Fixpoint hex_value_from (acc : Z) (s : list Z) : option Z :=
  match s with
  | [] => Some acc
  | c :: s' =>
      match hex_digit_value c with
      | Some d => hex_value_from (16 * acc + d) s'
      | None => None
      end
  end.
Definition hex_value (s : list Z) : option Z := hex_value_from 0 s.

(** The string held by a character array: its characters up to the
    first NUL. *)
Definition string_of (buf : list Z) : list Z := firstn (strlen buf) buf.

(** The hexadecimal digit of the nibble [d]. *)
Definition hex_digit (d : Z) : Z := nth (Z.to_nat d) hexDigits 0.

(** The eight digits of a 32-bit value and the two digits of each byte
    of an array. *)
Definition hex_digits_u32 (value : Z) : list Z :=
  map (fun i => hex_digit (Z.land (Z.shiftr value (28 - Z.of_nat i * 4)) 0xF))
      (seq 0 8).
Definition hex_digits_u8 (value : list Z) : list Z :=
  concat (map (fun v => [hex_digit (Z.land (Z.shiftr v 4) 0xF);
                         hex_digit (Z.land v 0xF)]) value).

(** An information text with the placeholder of the serial number, in
    an array of [128*3] bytes. *)
Definition sample_text : list Z :=
  let txt := bytes_of_string "Serial Number: AAAAAAAAAAA, Flash Size: 0x" in
  txt ++ repeat 0 (128 * 3 - length txt).

(** The bytes a string of digit pairs writes. *)
Fixpoint hex_pairs (s : list Z) : option (list Z) :=
  match s with
  | [] => Some []
  | hi :: lo :: s' =>
      match hex_value [hi; lo], hex_pairs s' with
      | Some v, Some vs => Some (v :: vs)
      | _, _ => None
      end
  | [_] => None
  end.

(** * Properties *)

(** The sample build passes the [STATIC_ASSERT]s on the geometry. *)
Lemma sample_cfg_geometry_ok : geometry_ok sample_cfg.
Proof. vm_compute. repeat split; congruence. Qed.

(** ** Byte buffers *)

Lemma length_le_bytes (n : nat) (v : Z) : length (le_bytes n v) = n.
Proof. revert v; induction n; intros; simpl; congruence. Qed.

Lemma le_value_le_bytes (n : nat) (v : Z) :
  le_value (le_bytes n v) = v mod 256 ^ Z.of_nat n.
Proof.
  revert v; induction n as [|n IH]; intro v.
  - simpl. now rewrite Z.mod_1_r.
  - cbn [le_bytes le_value]. rewrite IH.
    rewrite Nat2Z.inj_succ, Z.pow_succ_r by lia.
    rewrite Z.rem_mul_r by lia. lia.
Qed.

Lemma length_write_at (off : nat) (bs d : list Z) :
  (off + length bs <= length d)%nat ->
  length (write_at off bs d) = length d.
Proof.
  intros H. unfold write_at.
  rewrite !length_app, length_firstn, length_skipn. lia.
Qed.

Lemma nth_write_at (off : nat) (bs d : list Z) (i : nat) :
  (off + length bs <= length d)%nat ->
  nth i (write_at off bs d) 0 =
  if (off <=? i)%nat && (i <? off + length bs)%nat
  then nth (i - off) bs 0 else nth i d 0.
Proof.
  intros H. unfold write_at.
  assert (Hf : length (firstn off d) = off) by (rewrite length_firstn; lia).
  destruct (Nat.leb_spec off i) as [Hle|Hlt]; simpl.
  - rewrite app_nth2 by lia. rewrite Hf.
    destruct (Nat.ltb_spec i (off + length bs)) as [Hin|Hout].
    + rewrite app_nth1 by lia. reflexivity.
    + rewrite app_nth2 by lia. rewrite nth_skipn. f_equal. lia.
  - rewrite app_nth1 by lia.
    rewrite nth_firstn. destruct (Nat.ltb_spec i off); [reflexivity|lia].
Qed.

Lemma length_read_at (off n : nat) (d : list Z) : length (read_at off n d) = n.
Proof. unfold read_at. now rewrite length_map, length_seq. Qed.

Lemma nth_map_seq (f : nat -> Z) (s n k : nat) :
  (k < n)%nat -> nth k (map f (seq s n)) 0 = f (s + k)%nat.
Proof.
  revert s k; induction n as [|n IH]; intros s k H; [lia|].
  destruct k as [|k]; simpl.
  - f_equal. lia.
  - rewrite IH by lia. f_equal. lia.
Qed.

Lemma nth_read_at (off n : nat) (d : list Z) (k : nat) :
  (k < n)%nat -> nth k (read_at off n d) 0 = nth (off + k) d 0.
Proof. intros H. unfold read_at. now rewrite nth_map_seq. Qed.

(** A read away from a store sees the old bytes. *)
Lemma read_at_write_at_other (o n off : nat) (bs d : list Z) :
  (off + length bs <= length d)%nat ->
  (o + n <= off \/ off + length bs <= o)%nat ->
  read_at o n (write_at off bs d) = read_at o n d.
Proof.
  intros Hlen Hdis. unfold read_at. apply map_ext_in. intros k Hk.
  apply in_seq in Hk. rewrite nth_write_at by exact Hlen.
  destruct (Nat.leb_spec off (o + k)), (Nat.ltb_spec (o + k) (off + length bs));
    simpl; try reflexivity; lia.
Qed.

(** A read of the stored range sees the stored bytes. *)
Lemma read_at_write_at_same (off : nat) (bs d : list Z) :
  (off + length bs <= length d)%nat ->
  read_at off (length bs) (write_at off bs d) = bs.
Proof.
  intros Hlen. apply nth_ext with (d := 0) (d' := 0).
  - apply length_read_at.
  - intros k Hk. rewrite length_read_at in Hk.
    rewrite nth_read_at by exact Hk. rewrite nth_write_at by exact Hlen.
    destruct (Nat.leb_spec off (off + k)), (Nat.ltb_spec (off + k) (off + length bs));
      simpl; try lia. f_equal. lia.
Qed.



Lemma length_set32 (d : list Z) (off v : Z) :
  0 <= off -> off + 4 <= Z.of_nat (length d) -> length (set32 d off v) = length d.
Proof. intros. unfold set32. apply length_write_at. simpl. lia. Qed.



Lemma get32_set32_same (d : list Z) (off v : Z) :
  0 <= off -> off + 4 <= Z.of_nat (length d) ->
  get32 (set32 d off v) off = u32 v.
Proof.
  intros. unfold get32, set32.
  change 4%nat with (length (le_bytes 4 v)) at 1.
  rewrite read_at_write_at_same by (simpl; lia).
  now rewrite le_value_le_bytes.
Qed.

Lemma nth_repeat_0 (n i : nat) : nth i (repeat 0 n) 0 = 0.
Proof.
  destruct (Nat.lt_ge_cases i n) as [H|H].
  - now rewrite nth_repeat_lt.
  - apply nth_overflow. now rewrite repeat_length.
Qed.

(** ** Cluster allocation *)

Lemma UF2_DIV_CEIL_nonneg (v d : Z) : 0 <= v -> 0 < d -> 0 <= UF2_DIV_CEIL v d.
Proof.
  intros Hv Hd. unfold UF2_DIV_CEIL.
  pose proof (Z.div_pos v d Hv Hd). destruct (v mod d =? 0); lia.
Qed.

Lemma UF2_DIV_CEIL_0 (d : Z) : UF2_DIV_CEIL 0 d = 0.
Proof. unfold UF2_DIV_CEIL. now rewrite Zdiv_0_l, Zmod_0_l. Qed.


Section Allocation.
Variable cfg : Config.
Hypothesis spc_pos : 0 < BPB_SECTORS_PER_CLUSTER cfg.

Lemma clusters_of_nonneg (f : FileContent_t) :
  0 <= size f -> 0 <= clusters_of cfg f.
Proof.
  intros H. apply UF2_DIV_CEIL_nonneg; [exact H|].
  unfold BPB_SECTOR_SIZE. lia.
Qed.

Lemma end_of_allocation_ge (s : Z) (tbl : list FileContent_t) :
  Forall (fun f => 0 <= size f) tbl -> s <= end_of_allocation cfg s tbl.
Proof.
  revert s; induction tbl as [|f tbl IH]; intros s H; simpl; [lia|].
  inversion H as [|? ? Hf Ht]; subst.
  pose proof (clusters_of_nonneg f Hf).
  specialize (IH (s + clusters_of cfg f) Ht). lia.
Qed.

(** Without overflow the loop computes the exact cluster numbers. *)
Lemma assign_clusters_exact (s : Z) (f : FileContent_t) :
  1 <= s -> 0 <= size f -> s + clusters_of cfg f <= 0xFFFF ->
  cluster_end (assign_clusters cfg s f) = s + clusters_of cfg f - 1
  /\ u16 (cluster_end (assign_clusters cfg s f) + 1) = s + clusters_of cfg f.
Proof.
  intros Hs Hf Hfit. pose proof (clusters_of_nonneg f Hf) as Hn.
  unfold assign_clusters. cbn [cluster_end size].
  fold (clusters_of cfg f). set (n := clusters_of cfg f) in *.
  unfold u16, u32.
  rewrite (Z.mod_small (s + n - 1) (2 ^ 32)) by lia.
  rewrite (Z.mod_small (s + n - 1) (2 ^ 16)) by lia.
  split; [reflexivity|].
  replace (s + n - 1 + 1) with (s + n) by lia. apply Z.mod_small. lia.
Qed.

Lemma init_clusters_from_chain (s : Z) (tbl : list FileContent_t) :
  1 <= s -> Forall (fun f => 0 <= size f) tbl ->
  end_of_allocation cfg s tbl <= 0xFFFF ->
  chain s (init_clusters_from cfg s tbl)
  /\ chain_end s (init_clusters_from cfg s tbl) = end_of_allocation cfg s tbl.
Proof.
  revert s; induction tbl as [|f tbl IH]; intros s Hs Hnn Hfit.
  - simpl. auto.
  - inversion Hnn as [|? ? Hf Ht]; subst.
    pose proof (clusters_of_nonneg f Hf) as Hn.
    cbn [end_of_allocation] in Hfit.
    pose proof (end_of_allocation_ge (s + clusters_of cfg f) tbl Ht) as Hge.
    destruct (assign_clusters_exact s f Hs Hf ltac:(lia)) as [He Hnext].
    cbn [init_clusters_from chain chain_end end_of_allocation].
    rewrite Hnext, He.
    replace (s + clusters_of cfg f - 1 + 1) with (s + clusters_of cfg f) by lia.
    destruct (IH (s + clusters_of cfg f) ltac:(lia) Ht Hfit) as [IH1 IH2].
    repeat split; try assumption; try reflexivity. lia.
Qed.

Lemma length_init_clusters_from (s : Z) (tbl : list FileContent_t) :
  length (init_clusters_from cfg s tbl) = length tbl.
Proof. revert s; induction tbl; intros; simpl; auto. Qed.
End Allocation.

(** *** What a chain of ranges gives *)

Lemma chain_end_ge (s : Z) (l : list FileContent_t) :
  chain s l -> s <= chain_end s l.
Proof.
  revert s; induction l as [|f l IH]; intros s H; simpl in *; [lia|].
  destruct H as (_ & H1 & H2). specialize (IH _ H2). lia.
Qed.

Lemma chain_bounds (s : Z) (l : list FileContent_t) (f : FileContent_t) :
  chain s l -> In f l ->
  s <= cluster_start f /\ cluster_start f - 1 <= cluster_end f
  /\ cluster_end f + 1 <= chain_end s l.
Proof.
  revert s; induction l as [|g l IH]; intros s H Hin; [contradiction|].
  simpl in H. destruct H as (H0 & H1 & H2).
  pose proof (chain_end_ge _ _ H2) as Hge. simpl.
  destruct Hin as [->|Hin].
  - lia.
  - specialize (IH _ H2 Hin). lia.
Qed.

(** Ranges of a chain do not share a cluster. *)
Lemma chain_disjoint (s : Z) (l : list FileContent_t) (i j : nat) (c : Z) :
  chain s l -> (i < j)%nat ->
  in_range (nth i l no_file) c -> in_range (nth j l no_file) c ->
  (j < length l)%nat -> False.
Proof.
  revert s i j; induction l as [|g l IH]; intros s i j H Hij Hi Hj Hlen;
    [simpl in Hlen; lia|].
  simpl in H. destruct H as (H0 & H1 & H2).
  destruct j as [|j]; [lia|]. simpl in Hlen, Hj.
  destruct i as [|i].
  - simpl in Hi. unfold in_range in *.
    assert (Hin : In (nth j l no_file) l) by (apply nth_In; lia).
    pose proof (chain_bounds _ _ _ H2 Hin). lia.
  - simpl in Hi. apply (IH _ i j H2); auto; lia.
Qed.



(** The ranges are a function of the sizes alone: names, contents and
    whatever the cluster fields held before play no part. *)
Lemma init_clusters_from_sizes (cfg : Config) (s : Z)
    (tbl tbl' : list FileContent_t) :
  map size tbl' = map size tbl ->
  map range_of (init_clusters_from cfg s tbl')
  = map range_of (init_clusters_from cfg s tbl).
Proof.
  revert s tbl'; induction tbl as [|f tbl IH]; intros s [|f' tbl'] H;
    try discriminate; [reflexivity|].
  simpl in H. injection H as Hf Ht.
  cbn [init_clusters_from map]. unfold assign_clusters at 1 3, range_of at 1 3.
  cbn [cluster_start cluster_end]. rewrite Hf. f_equal.
  unfold assign_clusters at 1 2. cbn [cluster_end]. rewrite Hf.
  now apply IH.
Qed.

Lemma init_clusters_from_nth (cfg : Config) (s : Z)
    (tbl : list FileContent_t) (i : nat) :
  0 < BPB_SECTORS_PER_CLUSTER cfg ->
  1 <= s -> Forall (fun f => 0 <= size f) tbl ->
  end_of_allocation cfg s tbl <= 0xFFFF ->
  (i < length tbl)%nat ->
  let info := init_clusters_from cfg s tbl in
  cluster_end (nth i info no_file)
  = cluster_start (nth i info no_file) + clusters_of cfg (nth i tbl no_file) - 1
  /\ ((S i < length tbl)%nat ->
      cluster_start (nth (S i) info no_file)
      = cluster_end (nth i info no_file) + 1).
Proof.
  intros Hspc. revert s i; induction tbl as [|f tbl IH]; intros s i Hs Hnn Hfit Hi;
    [simpl in Hi; lia|].
  inversion Hnn as [|? ? Hf Ht]; subst.
  pose proof (clusters_of_nonneg cfg Hspc f Hf) as Hn.
  cbn [end_of_allocation] in Hfit.
  pose proof (end_of_allocation_ge cfg Hspc (s + clusters_of cfg f) tbl Ht) as Hge.
  destruct (assign_clusters_exact cfg Hspc s f Hs Hf ltac:(lia)) as [He Hnext].
  cbn zeta. cbn [init_clusters_from]. rewrite Hnext.
  destruct i as [|i].
  - cbn [nth]. split; [exact He|].
    intros Hlen. destruct tbl as [|g tbl]; [simpl in Hlen; lia|].
    cbn [init_clusters_from nth]. unfold assign_clusters at 1.
    cbn [cluster_start]. lia.
  - cbn [nth]. simpl in Hi.
    destruct (IH (s + clusters_of cfg f) i ltac:(lia) Ht Hfit ltac:(lia))
      as [IH1 IH2].
    split; [exact IH1|]. intros Hlen. apply IH2. simpl in Hlen. lia.
Qed.

(** X23. On a table that fits a FAT16 volume (every cluster number up
    to the first free one fits in 16 bits), [init_starting_clusters]
    is deterministic and well formed: the ranges depend on the file
    sizes only; the first file starts at cluster 2; a file of [n]
    clusters ends at [start + n - 1]; each file starts right after the
    previous one ends; no cluster lies in two ranges; a file of size 0
    gets no cluster and hands its start cluster to the next file. *)
Theorem init_starting_clusters_well_formed (cfg : Config)
    (tbl tbl' : list FileContent_t) :
  0 < BPB_SECTORS_PER_CLUSTER cfg ->
  fits_fat16 cfg tbl ->
  let info := init_starting_clusters cfg tbl in
  (map size tbl' = map size tbl ->
   map range_of (init_starting_clusters cfg tbl') = map range_of info)
  /\ length info = length tbl
  /\ (tbl <> [] -> cluster_start (nth 0 info no_file) = 2)
  /\ (forall i, (i < length tbl)%nat ->
        cluster_end (nth i info no_file)
        = cluster_start (nth i info no_file)
          + clusters_of cfg (nth i tbl no_file) - 1)
  /\ (forall i, (S i < length tbl)%nat ->
        cluster_start (nth (S i) info no_file)
        = cluster_end (nth i info no_file) + 1)
  /\ (forall i j c, (i < j < length tbl)%nat ->
        in_range (nth i info no_file) c ->
        in_range (nth j info no_file) c -> False)
  /\ (forall i, (i < length tbl)%nat -> size (nth i tbl no_file) = 0 ->
        (forall c, ~ in_range (nth i info no_file) c)
        /\ ((S i < length tbl)%nat ->
            cluster_start (nth (S i) info no_file)
            = cluster_start (nth i info no_file))).
Proof.
  intros Hspc [Hnn Hfit] info. subst info. unfold init_starting_clusters.
  pose proof (init_clusters_from_chain cfg Hspc 2 tbl ltac:(lia) Hnn Hfit)
    as [Hchain _].
  pose proof (length_init_clusters_from cfg 2 tbl) as Hlen.
  assert (Hnth := fun i =>
    init_clusters_from_nth cfg 2 tbl i Hspc ltac:(lia) Hnn Hfit).
  cbn zeta in Hnth.
  split; [apply init_clusters_from_sizes|].
  split; [exact Hlen|].
  split.
  { destruct tbl as [|f tbl]; [congruence|]. reflexivity. }
  split; [intros i Hi; apply (Hnth i Hi)|].
  split; [intros i Hi; apply (Hnth i); lia|].
  split.
  { intros i j c Hij Hi Hj.
    apply (chain_disjoint _ _ i j c Hchain); try assumption; lia. }
  intros i Hi Hz.
  destruct (Hnth i Hi) as [He Hs].
  unfold clusters_of in He. rewrite Hz, UF2_DIV_CEIL_0 in He.
  split.
  - intros c Hc. unfold in_range in Hc. lia.
  - intros Hlt. rewrite (Hs Hlt). lia.
Qed.

Lemma init_starting_clusters_well_formed_witness :
  0 < BPB_SECTORS_PER_CLUSTER sample_cfg
  /\ fits_fat16 sample_cfg (info_static sample_infoUf2File sample_indexFile)
  /\ (forall c,
        ~ in_range
            (nth 3 (init_starting_clusters sample_cfg
                      (info_static sample_infoUf2File sample_indexFile))
               no_file) c).
Proof.
  assert (H1 : 0 < BPB_SECTORS_PER_CLUSTER sample_cfg) by reflexivity.
  assert (H2 : fits_fat16 sample_cfg
                 (info_static sample_infoUf2File sample_indexFile)).
  { split; [repeat constructor; discriminate | vm_compute; discriminate]. }
  split; [exact H1|]. split; [exact H2|].
  destruct (init_starting_clusters_well_formed sample_cfg
              (info_static sample_infoUf2File sample_indexFile) [] H1 H2)
    as (_ & _ & _ & _ & _ & _ & Hzero).
  apply (Hzero 3%nat); [simpl; lia | reflexivity].
Defined.

(** C9. The allocation wraps.  [uf2_init] takes the measurement size
    from the store as it is, and [init_starting_clusters] computes the
    cluster numbers in 16 bits without a check.  On the sample device
    with a store that holds a measurement size of 16776960 bytes, the
    measurement file (33553920 bytes, 65535 clusters) is given the
    range 5..3, which holds no cluster, and [CURRENT.UF2] the range
    4..16387: cluster 4 lies in the range of [TEST.CSV] and in the
    range of [CURRENT.UF2]. *)
Theorem allocation_wraps_and_overlaps :
  map size large_info = [170; 15; 97; 33553920; 8388608]
  /\ map range_of large_info = [(2, 2); (3, 3); (4, 4); (5, 3); (4, 16387)]
  /\ name (nth 2 large_info no_file) = bytes_of_string "TEST    CSV"
  /\ name (nth 4 large_info no_file) = bytes_of_string "CURRENT UF2"
  /\ in_range (nth 2 large_info no_file) 4
  /\ in_range (nth 4 large_info no_file) 4
  /\ (forall c, ~ in_range (nth 3 large_info no_file) c).
Proof.
  assert (R : map range_of large_info
              = [(2, 2); (3, 3); (4, 4); (5, 3); (4, 16387)])
    by (vm_compute; reflexivity).
  assert (S2 : cluster_start (nth 2 large_info no_file) = 4)
    by (vm_compute; reflexivity).
  assert (E2 : cluster_end (nth 2 large_info no_file) = 4)
    by (vm_compute; reflexivity).
  assert (S3 : cluster_start (nth 3 large_info no_file) = 5)
    by (vm_compute; reflexivity).
  assert (E3 : cluster_end (nth 3 large_info no_file) = 3)
    by (vm_compute; reflexivity).
  assert (S4 : cluster_start (nth 4 large_info no_file) = 4)
    by (vm_compute; reflexivity).
  assert (E4 : cluster_end (nth 4 large_info no_file) = 16387)
    by (vm_compute; reflexivity).
  split; [vm_compute; reflexivity|]. split; [exact R|].
  split; [vm_compute; reflexivity|]. split; [vm_compute; reflexivity|].
  unfold in_range. rewrite S2, E2, S3, E3, S4, E4.
  split; [lia|]. split; [lia|]. intros c. lia.
Qed.

(** ** The write protocol *)

Lemma uf2_write_block_accepted (cfg : Config) (nvs : NvsReplies)
    (block_no : Z) (data : list Z) (state : WriteState) :
  accepted cfg data ->
  uf2_write_block cfg nvs block_no data state
  = (BPB_SECTOR_SIZE,
     fst (update_written cfg (as_UF2_Block data) state),
     board_flash_write (targetAddr (as_UF2_Block data))
       (bl_data (as_UF2_Block data)) (payloadSize (as_UF2_Block data))
     :: snd (update_written cfg (as_UF2_Block data) state)).
Proof.
  intros [Hv Hf]. unfold uf2_write_block. rewrite Hv. cbn [negb].
  rewrite Hf, Z.eqb_refl.
  now destruct (update_written cfg (as_UF2_Block data) state).
Qed.

(** C7. A block that validates as a UF2 firmware block but carries
    another family identifier is rejected: the call returns -1, makes
    no call to the flash driver (nor any other), and leaves the state
    as it was. *)
Theorem family_mismatch_rejected (cfg : Config) (nvs : NvsReplies)
    (block_no : Z) (data : list Z) (state : WriteState) :
  is_uf2_block cfg (as_UF2_Block data) = true ->
  familyID (as_UF2_Block data) <> BOARD_UF2_FAMILY_ID cfg ->
  uf2_write_block cfg nvs block_no data state = (-1, state, []).
Proof.
  intros Hv Hf. unfold uf2_write_block. rewrite Hv. cbn [negb].
  destruct (Z.eqb_spec (familyID (as_UF2_Block data)) (BOARD_UF2_FAMILY_ID cfg));
    [contradiction | reflexivity].
Qed.

Lemma family_mismatch_rejected_witness :
  uf2_write_block sample_cfg sample_nvs 7
    (uf2_sector sample_cfg 0 0 10 0xada52840) (fresh_state sample_cfg)
  = (-1, fresh_state sample_cfg, []).
Proof.
  apply family_mismatch_rejected; [vm_compute; reflexivity | vm_compute; discriminate].
Defined.

(** C10. The sector number plays no part in a write: two calls that
    differ in [block_no] only return the same value, leave the same
    state and make the same calls. *)
Theorem block_no_irrelevant (cfg : Config) (nvs : NvsReplies)
    (block_no block_no' : Z) (data : list Z) (state : WriteState) :
  uf2_write_block cfg nvs block_no data state
  = uf2_write_block cfg nvs block_no' data state.
Proof. reflexivity. Qed.

Lemma land_lor_same (x m : Z) : Z.land (Z.lor x m) m = m.
Proof.
  apply Z.bits_inj'. intros n _. rewrite Z.land_spec, Z.lor_spec.
  destruct (Z.testbit x n), (Z.testbit m n); reflexivity.
Qed.

(** The mask of a block index is one of the eight bits of a byte. *)
Lemma block_mask_nonzero (blockNo : Z) :
  u8 (Z.shiftl 1 (blockNo mod 8)) <> 0.
Proof.
  pose proof (Z.mod_pos_bound blockNo 8 ltac:(lia)) as Hk.
  rewrite Z.shiftl_1_l. unfold u8.
  assert (Hlt : 2 ^ (blockNo mod 8) < 2 ^ 8)
    by (apply Z.pow_lt_mono_r; lia).
  rewrite Z.mod_small; [|split; [apply Z.pow_nonneg; lia | exact Hlt]].
  apply Z.pow_nonzero; lia.
Qed.

Lemma update_numBlocks_keeps (cfg : Config) (bl : UF2_Block)
    (state : WriteState) :
  numWritten (update_numBlocks cfg bl state) = numWritten state
  /\ writtenMask (update_numBlocks cfg bl state) = writtenMask state.
Proof.
  unfold update_numBlocks.
  destruct (negb _); [destruct (_ || _)|]; split; reflexivity.
Qed.

Lemma written_update_numBlocks (cfg : Config) (bl : UF2_Block)
    (state : WriteState) (i : Z) :
  written (update_numBlocks cfg bl state) i = written state i.
Proof.
  unfold written. now rewrite (proj2 (update_numBlocks_keeps cfg bl state)).
Qed.

(** What [mark_written] does to the counter and to the bit of the
    block's own index. *)
Lemma mark_written_spec (bl : UF2_Block) (state : WriteState) :
  (Z.to_nat (blockNo bl / 8) < length (writtenMask state))%nat ->
  numBlocks (mark_written bl state) = numBlocks state
  /\ written (mark_written bl state) (blockNo bl) = true
  /\ numWritten (mark_written bl state)
     = if written state (blockNo bl) then numWritten state
       else u32 (numWritten state + 1).
Proof.
  intros Hpos. unfold mark_written, written.
  set (mask := u8 (Z.shiftl 1 (blockNo bl mod 8))).
  set (pos := Z.to_nat (blockNo bl / 8)) in *.
  destruct (Z.eqb_spec (Z.land (nth pos (writtenMask state) 0) mask) 0)
    as [Hz|Hnz]; cbn [negb numBlocks numWritten writtenMask].
  - split; [reflexivity|]. split; [|reflexivity].
    rewrite nth_write_at by (simpl; lia).
    cbn [length]. rewrite Nat.leb_refl.
    replace (pos <? pos + 1)%nat with true
      by (symmetry; apply Nat.ltb_lt; lia).
    cbn [andb]. rewrite Nat.sub_diag. cbn [nth]. rewrite land_lor_same.
    destruct (Z.eqb_spec mask 0) as [E|E]; [|reflexivity].
    exfalso. exact (block_mask_nonzero _ E).
  - split; [reflexivity|]. split; [|reflexivity].
    destruct (Z.eqb_spec (Z.land (nth pos (writtenMask state) 0) mask) 0);
      [contradiction | reflexivity].
Qed.

(** C6. Writing is idempotent on the counter of accepted blocks.  For a
    firmware block this device accepts, with an index the mask has a
    bit for: if the bit of its index is already set, [numWritten] stays
    as it is; [numWritten] changes only when the bit goes from unset to
    set, and then by one; and a block that declares a total and finds
    its bit unset does set it and count. *)
Theorem write_counter_idempotent (cfg : Config) (nvs : NvsReplies)
    (block_no : Z) (data : list Z) (state : WriteState) :
  accepted cfg data ->
  0 <= blockNo (as_UF2_Block data) < MAX_BLOCKS cfg ->
  MAX_BLOCKS cfg <= 8 * Z.of_nat (length (writtenMask state)) ->
  let idx := blockNo (as_UF2_Block data) in
  let state' := state_after (uf2_write_block cfg nvs block_no data state) in
  (written state idx = true -> numWritten state' = numWritten state)
  /\ (numWritten state' <> numWritten state ->
      written state idx = false /\ written state' idx = true
      /\ numWritten state' = u32 (numWritten state + 1))
  /\ (written state idx = false ->
      bl_numBlocks (as_UF2_Block data) <> 0 ->
      written state' idx = true
      /\ numWritten state' = u32 (numWritten state + 1)).
Proof.
  intros Hacc Hidx Hmask idx state'. subst idx state'.
  rewrite (uf2_write_block_accepted cfg nvs block_no data state Hacc).
  unfold state_after. cbn [fst snd].
  set (bl := as_UF2_Block data) in *.
  assert (Hpos : (Z.to_nat (blockNo bl / 8)
                  < length (writtenMask (update_numBlocks cfg bl state)))%nat).
  { rewrite (proj2 (update_numBlocks_keeps cfg bl state)).
    assert (blockNo bl / 8 < Z.of_nat (length (writtenMask state)))
      by (apply Z.div_lt_upper_bound; lia).
    pose proof (Z.div_pos (blockNo bl) 8 ltac:(lia) ltac:(lia)). lia. }
  destruct (mark_written_spec bl (update_numBlocks cfg bl state) Hpos)
    as (_ & Hset & Hcnt).
  rewrite written_update_numBlocks in Hcnt.
  rewrite (proj1 (update_numBlocks_keeps cfg bl state)) in Hcnt.
  unfold update_written.
  destruct (Z.eqb_spec (bl_numBlocks bl) 0) as [Hz|Hnz]; cbn [negb].
  - cbn [fst]. repeat split; try congruence.
  - destruct (Z.ltb_spec (blockNo bl) (MAX_BLOCKS cfg)) as [_|?]; [|lia].
    assert (E : fst (if numBlocks (mark_written bl (update_numBlocks cfg bl state))
                        <=? numWritten (mark_written bl (update_numBlocks cfg bl state))
                     then (mark_written bl (update_numBlocks cfg bl state),
                           [board_flash_flush])
                     else (mark_written bl (update_numBlocks cfg bl state), []))
                = mark_written bl (update_numBlocks cfg bl state))
      by (destruct (_ <=? _); reflexivity).
    rewrite E. clear E.
    destruct (written state (blockNo bl)) eqn:Hw.
    + repeat split; congruence.
    + repeat split; solve [assumption | discriminate | reflexivity].
Qed.

Lemma write_counter_idempotent_witness :
  written
    (state_after
       (uf2_write_block sample_cfg sample_nvs 7
          (uf2_sector sample_cfg 0x2000 3 10 0xbfdd4eee)
          (fresh_state sample_cfg))) 3 = true
  /\ numWritten
       (state_after
          (uf2_write_block sample_cfg sample_nvs 7
             (uf2_sector sample_cfg 0x2000 3 10 0xbfdd4eee)
             (fresh_state sample_cfg))) = u32 (0 + 1).
Proof.
  refine (proj2 (proj2
    (write_counter_idempotent sample_cfg sample_nvs 7
       (uf2_sector sample_cfg 0x2000 3 10 0xbfdd4eee)
       (fresh_state sample_cfg) _ _ _)) _ _).
  - split; vm_compute; reflexivity.
  - vm_compute. split; [discriminate | reflexivity].
  - vm_compute. discriminate.
  - vm_compute. reflexivity.
  - vm_compute. discriminate.
Defined.

(** *** The declared total *)

(** A total equal to [MAX_BLOCKS] does not exceed it, yet the code
    answers it with the sentinel. *)
Lemma total_rule_as_stated_fails :
  ~ total_rule_as_stated sample_cfg sample_nvs 7
      (uf2_sector sample_cfg 0 0 (MAX_BLOCKS sample_cfg) 0xbfdd4eee)
      (fresh_state sample_cfg).
Proof.
  intros H. unfold total_rule_as_stated in H. cbn zeta in H.
  assert (Hacc : accepted sample_cfg
            (uf2_sector sample_cfg 0 0 (MAX_BLOCKS sample_cfg) 0xbfdd4eee))
    by (split; vm_compute; reflexivity).
  destruct (H Hacc) as [_ Hn]; [vm_compute; discriminate ..|].
  vm_compute in Hn. discriminate.
Qed.

Lemma mark_written_numBlocks (bl : UF2_Block) (state : WriteState) :
  numBlocks (mark_written bl state) = numBlocks state.
Proof. unfold mark_written. now destruct (_ =? 0). Qed.

Lemma update_written_numBlocks (cfg : Config) (bl : UF2_Block)
    (state : WriteState) :
  bl_numBlocks bl <> 0 ->
  numBlocks (fst (update_written cfg bl state))
  = numBlocks (update_numBlocks cfg bl state).
Proof.
  intros Hnz. unfold update_written.
  destruct (Z.eqb_spec (bl_numBlocks bl) 0); [contradiction|]. cbn [negb].
  destruct (_ <? _); [|reflexivity].
  destruct (_ <=? _); cbn [fst]; apply mark_written_numBlocks.
Qed.

(** C3, amended. A firmware block the device accepts, declaring a
    nonzero total other than the state's: the call returns 512, and the
    state's total becomes the sentinel 0xffffffff when the state held
    another nonzero total or the new total is [MAX_BLOCKS] or more, and
    the new total otherwise. *)
Theorem total_adopted_or_marked_unknown (cfg : Config) (nvs : NvsReplies)
    (block_no : Z) (data : list Z) (state : WriteState) :
  let bl := as_UF2_Block data in
  let r := uf2_write_block cfg nvs block_no data state in
  accepted cfg data ->
  bl_numBlocks bl <> 0 -> bl_numBlocks bl <> numBlocks state ->
  returned r = 512
  /\ numBlocks (state_after r)
     = if (MAX_BLOCKS cfg <=? bl_numBlocks bl) || negb (numBlocks state =? 0)
       then 0xffffffff else bl_numBlocks bl.
Proof.
  intros bl r Hacc Hnz Hne. subst r.
  rewrite (uf2_write_block_accepted cfg nvs block_no data state Hacc).
  unfold returned, state_after. cbn [fst snd]. fold bl.
  split; [reflexivity|].
  rewrite update_written_numBlocks by exact Hnz.
  unfold update_numBlocks.
  destruct (Z.eqb_spec (numBlocks state) (bl_numBlocks bl)); [congruence|].
  cbn [negb]. now destruct (_ || _).
Qed.

Lemma total_adopted_or_marked_unknown_witness :
  numBlocks
    (state_after
       (uf2_write_block sample_cfg sample_nvs 7
          (uf2_sector sample_cfg 0 0 10 0xbfdd4eee) (fresh_state sample_cfg)))
  = 10.
Proof.
  refine (proj2 (total_adopted_or_marked_unknown sample_cfg sample_nvs 7
            (uf2_sector sample_cfg 0 0 10 0xbfdd4eee) (fresh_state sample_cfg)
            _ _ _)).
  - split; vm_compute; reflexivity.
  - vm_compute. discriminate.
  - vm_compute. discriminate.
Defined.

(** *** The flush *)

(** A block that declares no total is written to flash and answered
    with 512, but the counter is not compared and nothing is flushed,
    here with counter and total both 0. *)
Lemma flush_rule_as_stated_fails :
  ~ flush_rule_as_stated sample_cfg sample_nvs 7
      (uf2_sector sample_cfg 0 0 0 0xbfdd4eee) (fresh_state sample_cfg).
Proof.
  intros H. unfold flush_rule_as_stated in H. cbn zeta in H.
  assert (Hacc : accepted sample_cfg (uf2_sector sample_cfg 0 0 0 0xbfdd4eee))
    by (split; vm_compute; reflexivity).
  destruct (H Hacc) as [_ Hin]; [vm_compute; discriminate|].
  vm_compute in Hin. destruct Hin as [E|[]]. discriminate.
Qed.

(** C5, amended. A firmware block the device accepts, declaring a
    nonzero total and carrying an index below [MAX_BLOCKS]: the call
    returns 512; if after the update of mask and counter the counter
    has reached the total, the calls made are the flash write followed
    by the flush, and otherwise the flash write alone. *)
Theorem flush_when_complete (cfg : Config) (nvs : NvsReplies)
    (block_no : Z) (data : list Z) (state : WriteState) :
  let bl := as_UF2_Block data in
  let r := uf2_write_block cfg nvs block_no data state in
  accepted cfg data ->
  bl_numBlocks bl <> 0 -> blockNo bl < MAX_BLOCKS cfg ->
  returned r = 512
  /\ (numBlocks (state_after r) <= numWritten (state_after r) ->
      calls_made r
      = [board_flash_write (targetAddr bl) (bl_data bl) (payloadSize bl);
         board_flash_flush])
  /\ (numWritten (state_after r) < numBlocks (state_after r) ->
      calls_made r
      = [board_flash_write (targetAddr bl) (bl_data bl) (payloadSize bl)]).
Proof.
  intros bl r Hacc Hnz Hidx. subst r.
  rewrite (uf2_write_block_accepted cfg nvs block_no data state Hacc).
  unfold returned, state_after, calls_made. cbn [fst snd]. fold bl.
  split; [reflexivity|].
  unfold update_written.
  destruct (Z.eqb_spec (bl_numBlocks bl) 0); [contradiction|]. cbn [negb].
  destruct (Z.ltb_spec (blockNo bl) (MAX_BLOCKS cfg)); [|lia].
  destruct (Z.leb_spec
              (numBlocks (mark_written bl (update_numBlocks cfg bl state)))
              (numWritten (mark_written bl (update_numBlocks cfg bl state))));
    cbn [fst snd]; split; intros; solve [reflexivity | lia].
Qed.

Lemma flush_when_complete_witness :
  calls_made
    (uf2_write_block sample_cfg sample_nvs 7
       (uf2_sector sample_cfg 0x2000 0 1 0xbfdd4eee) (fresh_state sample_cfg))
  = [board_flash_write 0x2000 (repeat 0 476) 256; board_flash_flush].
Proof.
  refine (proj1 (proj2 (flush_when_complete sample_cfg sample_nvs 7
            (uf2_sector sample_cfg 0x2000 0 1 0xbfdd4eee)
            (fresh_state sample_cfg) _ _ _)) _).
  - split; vm_compute; reflexivity.
  - vm_compute. discriminate.
  - vm_compute. reflexivity.
  - vm_compute. discriminate.
Defined.

(** ** FAT sectors *)






Section Fat.
Variable cfg : Config.
Variable env : Env.



End Fat.

Lemma UF2_DIV_CEIL_tight (v d : Z) : 0 < d -> (UF2_DIV_CEIL v d - 1) * d < v.
Proof.
  intros Hd. unfold UF2_DIV_CEIL.
  pose proof (Z.div_mod v d ltac:(lia)) as E.
  pose proof (Z.mod_pos_bound v d Hd) as B.
  destruct (Z.eqb_spec (v mod d) 0); nia.
Qed.

Lemma UF2_DIV_CEIL_le_self (v d : Z) : 0 <= v -> 0 < d -> UF2_DIV_CEIL v d <= v.
Proof. intros Hv Hd. pose proof (UF2_DIV_CEIL_tight v d Hd). nia. Qed.

(** Every FAT sector holds cluster numbers that fit in 32 bits. *)
Lemma fat_sector_first_cluster (cfg : Config) (k : Z) :
  0 < BPB_SECTORS_PER_CLUSTER cfg -> 0 <= BPB_TOTAL_SECTORS cfg < 2 ^ 32 ->
  0 <= k < BPB_SECTORS_PER_FAT cfg ->
  k * 256 + 256 <= 2 ^ 32.
Proof.
  intros Hspc Htot Hk. unfold BPB_SECTORS_PER_FAT in Hk.
  change FAT_ENTRIES_PER_SECTOR with 256 in Hk.
  pose proof (UF2_DIV_CEIL_tight (TOTAL_CLUSTERS_ROUND_UP cfg) 256 ltac:(lia)).
  pose proof (UF2_DIV_CEIL_le_self (BPB_TOTAL_SECTORS cfg)
                (BPB_SECTORS_PER_CLUSTER cfg) ltac:(lia) Hspc) as Hle.
  fold (TOTAL_CLUSTERS_ROUND_UP cfg) in Hle. lia.
Qed.

(** The table [uf2_init] leaves is a chain of ranges from cluster 2
    whose end fits in 16 bits. *)
Lemma allocated_chain (cfg : Config) (tbl : list FileContent_t) :
  0 < BPB_SECTORS_PER_CLUSTER cfg -> fits_fat16 cfg tbl ->
  chain 2 (init_starting_clusters cfg tbl)
  /\ chain_end 2 (init_starting_clusters cfg tbl) <= 0xFFFF.
Proof.
  intros Hspc [Hnn Hfit]. unfold init_starting_clusters.
  destruct (init_clusters_from_chain cfg Hspc 2 tbl ltac:(lia) Hnn Hfit)
    as [Hc He].
  split; [exact Hc | rewrite He; exact Hfit].
Qed.


Lemma read_fat_sector_copy (cfg : Config) (env : Env) (copy k : Z)
    (data : list Z) :
  0 < BPB_SECTORS_PER_CLUSTER cfg -> 0 <= BPB_TOTAL_SECTORS cfg < 2 ^ 32 ->
  0 <= copy < BPB_NUMBER_OF_FATS -> 0 <= k < BPB_SECTORS_PER_FAT cfg ->
  read_fat_sector cfg env
    (FS_START_FAT0_SECTOR + copy * BPB_SECTORS_PER_FAT cfg + k) data
  = fat_chain_ends env (k * 256)
      (fat_reserved k
         (fat_default (k * 256)
            (u32 (cluster_end (nth (FID_UF2 env) (info env) no_file) + 1))
            data)).
Proof.
  intros Hspc Htot Hcopy Hk.
  pose proof (fat_sector_first_cluster cfg k Hspc Htot Hk) as Hb.
  unfold read_fat_sector. cbn zeta.
  unfold FS_START_FAT0_SECTOR, BPB_RESERVED_SECTORS, BPB_NUMBER_OF_FATS in *.
  set (SPF := BPB_SECTORS_PER_FAT cfg) in *.
  assert (HSPF : SPF * 256 <= 2 ^ 32).
  { pose proof (fat_sector_first_cluster cfg (SPF - 1) Hspc Htot ltac:(lia)).
    lia. }
  replace (1 + copy * SPF + k - 1) with (copy * SPF + k) by lia.
  assert (Hsrs : (if SPF <=? u32 (copy * SPF + k)
                  then u32 (u32 (copy * SPF + k) - SPF)
                  else u32 (copy * SPF + k)) = k).
  { assert (copy = 0 \/ copy = 1) as [-> | ->] by lia.
    - replace (0 * SPF + k) with k by lia.
      unfold u32. rewrite (Z.mod_small k) by lia.
      destruct (Z.leb_spec SPF k); [lia|reflexivity].
    - replace (1 * SPF + k) with (SPF + k) by lia.
      unfold u32. rewrite (Z.mod_small (SPF + k)) by lia.
      destruct (Z.leb_spec SPF (SPF + k)); [|lia].
      replace (SPF + k - SPF) with k by lia. apply Z.mod_small. lia. }
  rewrite Hsrs. change FAT_ENTRIES_PER_SECTOR with 256.
  replace (u32 (k * 256)) with (k * 256)
    by (unfold u32; symmetry; apply Z.mod_small; lia).
  reflexivity.
Qed.


Lemma sample_info_allocated :
  info sample_env = init_starting_clusters sample_cfg sample_table.
Proof. vm_compute. reflexivity. Qed.

Lemma sample_table_fits : fits_fat16 sample_cfg sample_table.
Proof.
  split; [repeat constructor; vm_compute; discriminate
         | vm_compute; discriminate].
Qed.


(** ** Root-directory sectors *)

Lemma confined_write_at (a b off : nat) (bs : list Z) :
  (a <= off)%nat -> (off + length bs <= b)%nat ->
  confined a b (write_at off bs).
Proof.
  intros Ha Hb data Hlen. split.
  - apply length_write_at. lia.
  - intros o n Ho. apply read_at_write_at_other; lia.
Qed.

Lemma confined_then (a b : nat) (g h : list Z -> list Z) :
  confined a b g -> confined a b h -> confined a b (fun data => h (g data)).
Proof.
  intros Hg Hh data Hlen. destruct (Hg data Hlen) as [Lg Rg].
  destruct (Hh (g data) ltac:(lia)) as [Lh Rh]. split; [lia|].
  intros o n Ho. now rewrite Rh, Rg.
Qed.

Lemma confined_wider (a b a' b' : nat) (g : list Z -> list Z) :
  (a' <= a)%nat -> (b <= b')%nat -> confined a b g -> confined a' b' g.
Proof.
  intros Ha Hb Hg data Hlen. destruct (Hg data ltac:(lia)) as [L R].
  split; [exact L|]. intros o n Ho. apply R. lia.
Qed.

Lemma length_padded_memcpy (src : list Z) (len : nat) :
  length (padded_memcpy src len) = len.
Proof.
  revert src; induction len as [|n IH]; intros src; [reflexivity|].
  simpl. destruct src as [|c rest]; [|destruct (c =? 0)]; simpl; now rewrite IH.
Qed.

Section RootDir.
Variable cfg : Config.
Variable env : Env.

Lemma write_file_entry_split (d : Z) (inf : FileContent_t) (data : list Z) :
  write_file_entry cfg env d inf data
  = set32 (write_file_entry_head cfg d inf data) (sizeof_DirEntry * d + 28)
      (entry_size_field env inf).
Proof. reflexivity. Qed.

Lemma write_file_entry_head_confined (d : Z) (inf : FileContent_t) :
  0 <= d ->
  confined (Z.to_nat (32 * d)) (Z.to_nat (32 * d) + 32)
    (write_file_entry_head cfg d inf).
Proof.
  intros Hd. unfold write_file_entry_head, set8, set16. cbn zeta.
  change sizeof_DirEntry with 32.
  repeat (apply confined_then with
            (g := fun data => _) (h := fun data => write_at _ _ data);
          [|apply confined_write_at; cbn [length le_bytes]; lia]).
  apply confined_write_at; [lia|]. rewrite length_padded_memcpy. lia.
Qed.

Lemma write_file_entry_confined (d : Z) (inf : FileContent_t) :
  0 <= d ->
  confined (Z.to_nat (32 * d)) (Z.to_nat (32 * d) + 32)
    (write_file_entry cfg env d inf).
Proof.
  intros Hd.
  apply (confined_then _ _ (write_file_entry_head cfg d inf)
           (fun data => set32 data (sizeof_DirEntry * d + 28)
                          (entry_size_field env inf))).
  - now apply write_file_entry_head_confined.
  - unfold set32. change sizeof_DirEntry with 32.
    apply confined_write_at; simpl; lia.
Qed.

Lemma write_file_entry_size (d : Z) (inf : FileContent_t) (data : list Z) :
  0 <= d -> 32 * d + 32 <= Z.of_nat (length data) ->
  get32 (write_file_entry cfg env d inf data) (32 * d + 28)
  = u32 (entry_size_field env inf).
Proof.
  intros Hd Hlen. rewrite write_file_entry_split.
  change sizeof_DirEntry with 32.
  destruct (write_file_entry_head_confined d inf Hd data ltac:(lia)) as [L _].
  apply get32_set32_same; lia.
Qed.

(** The loop over the files: entry after entry from slot [d] on. *)
Lemma dir_entries_spec (remainingEntries : Z) (files : list FileContent_t) :
  0 < remainingEntries ->
  forall (d : Z) (data : list Z),
  0 <= d -> 32 * (d + Z.of_nat (length files)) <= Z.of_nat (length data) ->
  length (dir_entries cfg env remainingEntries files d data) = length data
  /\ (forall j, (j < length files)%nat ->
        get32 (dir_entries cfg env remainingEntries files d data)
          (32 * (d + Z.of_nat j) + 28)
        = u32 (entry_size_field env (nth j files no_file)))
  /\ (forall o n,
        (o + n <= Z.to_nat (32 * d)
         \/ Z.to_nat (32 * (d + Z.of_nat (length files))) <= o)%nat ->
        read_at o n (dir_entries cfg env remainingEntries files d data)
        = read_at o n data).
Proof.
  intros Hrem. induction files as [|inf rest IH]; intros d data Hd Hlen.
  - simpl. repeat split; intros; lia.
  - cbn [dir_entries]. destruct (Z.ltb_spec 0 remainingEntries); [|lia].
    cbn [length] in Hlen.
    destruct (write_file_entry_confined d inf Hd data ltac:(lia)) as [L1 R1].
    destruct (IH (d + 1) (write_file_entry cfg env d inf data) ltac:(lia)
                ltac:(lia)) as (L2 & G2 & R2).
    split; [lia|]. split.
    + intros [|j] Hj.
      * unfold get32. rewrite R2 by lia. cbn [nth].
        replace (d + Z.of_nat 0) with d by lia.
        apply write_file_entry_size; lia.
      * cbn [nth]. cbn [length] in Hj.
        replace (d + Z.of_nat (S j)) with (d + 1 + Z.of_nat j) by lia.
        apply G2. lia.
    + intros o n Ho. cbn [length] in Ho. rewrite R2 by lia. apply R1. lia.
Qed.

Lemma write_label_entry_confined :
  confined 0 32 (write_label_entry cfg 0).
Proof.
  unfold write_label_entry, set8. cbn zeta.
  apply confined_then with
    (g := fun data => write_at _ _ data) (h := fun data => write_at _ _ data);
    apply confined_write_at; try rewrite length_padded_memcpy; simpl; lia.
Qed.

Lemma read_rootdir_sector_first (block_no : Z) (data : list Z) :
  block_no = FS_START_ROOTDIR_SECTOR cfg ->
  read_rootdir_sector cfg env block_no data
  = dir_entries cfg env (DIRENTRIES_PER_SECTOR - 1) (info env) 1
      (write_label_entry cfg 0 data).
Proof.
  intros ->. unfold read_rootdir_sector. cbn zeta.
  rewrite Z.sub_diag. reflexivity.
Qed.

(** The size field of every file's entry in the first root-directory
    sector: the file's [size] when it has content, [UF2_BYTE_COUNT]
    when its content is [NULL]. *)
Lemma root_dir_entry_size (j : nat) :
  (NUM_FILES env + 1 < Z.to_nat DIRENTRIES_PER_SECTOR)%nat ->
  (j < NUM_FILES env)%nat ->
  get32 (uf2_read_block cfg env (FS_START_ROOTDIR_SECTOR cfg))
    (sizeof_DirEntry * (1 + Z.of_nat j) + 28)
  = u32 (entry_size_field env (nth j (info env) no_file)).
Proof.
  intros Hn Hj. unfold NUM_FILES in *.
  change (Z.to_nat DIRENTRIES_PER_SECTOR) with 16%nat in Hn.
  unfold uf2_read_block. cbn zeta.
  assert (Hodd : FS_START_ROOTDIR_SECTOR cfg
                 = 1 + 2 * BPB_SECTORS_PER_FAT cfg)
    by (unfold FS_START_ROOTDIR_SECTOR, FS_START_FAT1_SECTOR,
          FS_START_FAT0_SECTOR, BPB_RESERVED_SECTORS; lia).
  destruct (Z.eqb_spec (FS_START_ROOTDIR_SECTOR cfg) 0); [lia|].
  rewrite Z.ltb_irrefl.
  destruct (Z.ltb_spec (FS_START_ROOTDIR_SECTOR cfg)
              (FS_START_CLUSTERS_SECTOR cfg)) as [_|Hge];
    [|unfold FS_START_CLUSTERS_SECTOR in Hge;
      change ROOT_DIR_SECTOR_COUNT with 4 in Hge; lia].
  rewrite read_rootdir_sector_first by reflexivity.
  destruct (write_label_entry_confined (zero_sector 512) ltac:(simpl; lia))
    as [L _].
  change sizeof_DirEntry with 32.
  apply dir_entries_spec; try assumption; try reflexivity; try lia.
  change (Z.to_nat BPB_SECTOR_SIZE) with 512%nat. rewrite L. change (length (zero_sector 512)) with 512%nat. lia.
Qed.
End RootDir.

(** C1. The size field of the measurement-data entry does not report
    that file's size.  On the sample device (4 MiB of flash, 1024
    bytes of measurement data recorded in the store) the file
    [MEASDAT CSV] has [content = NULL] and [size = 2048], and its
    directory entry, the fifth of the first root-directory sector,
    carries [UF2_BYTE_COUNT] = 8388608, the size of [CURRENT UF2]. *)
Theorem measurement_entry_reports_firmware_size :
  name (nth 3 (info sample_env) no_file) = bytes_of_string "MEASDAT CSV"
  /\ content (nth 3 (info sample_env) no_file) = None
  /\ size (nth 3 (info sample_env) no_file) = 2048
  /\ get32 (uf2_read_block sample_cfg sample_env
              (FS_START_ROOTDIR_SECTOR sample_cfg))
       (sizeof_DirEntry * (1 + 3) + 28)
     = UF2_BYTE_COUNT sample_env
  /\ UF2_BYTE_COUNT sample_env = 8388608.
Proof.
  split; [reflexivity|]. split; [reflexivity|]. split; [reflexivity|].
  split; [|reflexivity].
  refine (root_dir_entry_size sample_cfg sample_env 3 _ _); vm_compute; lia.
Qed.

(** ** The measurement-data size *)

(** C4. The fallback of [get_measurment_data_size_nvs] misses the
    absent key.  A read that fails on a wrong stored size returns the
    fallback 512, whatever the local [size] holds.  When the key is
    absent the read stores nothing and the function returns [size],
    which is declared without an initialiser: whatever that local
    happens to hold is the result, for every value it can hold, and
    [uf2_init] makes it [_measurement_flash_size]. *)
Theorem absent_key_returns_uninitialised_local (indeterminate : Z) :
  get_measurment_data_size_nvs indeterminate
    (mkGetBlob ESP_ERR_NVS_INVALID_LENGTH None) = 512
  /\ get_measurment_data_size_nvs indeterminate
       (mkGetBlob ESP_ERR_NVS_NOT_FOUND None) = indeterminate
  /\ forall cfg infoUf2File indexFile flash_size r hex0 str0,
       snd (fst (uf2_init cfg infoUf2File indexFile flash_size ESP_OK r
                   hex0 str0 indeterminate
                   (mkGetBlob ESP_ERR_NVS_NOT_FOUND None)))
       = indeterminate.
Proof.
  split; [reflexivity|]. split; [reflexivity|].
  intros cfg infoUf2File indexFile flash_size r hex0 str0.
  unfold uf2_init. cbn zeta.
  change ((ESP_OK =? ESP_ERR_NVS_NO_FREE_PAGES)
          || (ESP_OK =? ESP_ERR_NVS_NEW_VERSION_FOUND)) with false.
  change (negb (ESP_OK =? ESP_OK)) with false. cbv iota.
  destruct (uf2_init_flash_size _ flash_size). reflexivity.
Qed.

(** ** Totality and zero fill of [uf2_read_block] *)

Lemma length_zero_sector (n : nat) : length (zero_sector n) = n.
Proof. apply repeat_length. Qed.

Lemma nth_zero_sector (n k : nat) : nth k (zero_sector n) 0 = 0.
Proof. apply nth_repeat_0. Qed.

Lemma length_upto (n : nat) : length (upto n) = n.
Proof. unfold upto. now rewrite length_map, length_seq. Qed.


Section DataRegion.
Variable cfg : Config.
Variable env : Env.





End DataRegion.








Lemma init_clusters_from_size (cfg : Config) (s : Z)
    (tbl : list FileContent_t) (i : nat) :
  size (nth i (init_clusters_from cfg s tbl) no_file)
  = size (nth i tbl no_file).
Proof.
  revert s i; induction tbl as [|f tbl IH]; intros s i.
  - destruct i; reflexivity.
  - destruct i as [|i]; [reflexivity|]. cbn [init_clusters_from nth]. apply IH.
Qed.

(** The data region starts after sector 0. *)
Lemma FS_START_CLUSTERS_SECTOR_pos (cfg : Config) :
  0 < BPB_SECTORS_PER_CLUSTER cfg -> 0 <= BPB_TOTAL_SECTORS cfg ->
  FS_START_ROOTDIR_SECTOR cfg < FS_START_CLUSTERS_SECTOR cfg
  /\ 5 <= FS_START_CLUSTERS_SECTOR cfg.
Proof.
  intros Hspc Htot.
  unfold FS_START_CLUSTERS_SECTOR, FS_START_ROOTDIR_SECTOR,
    FS_START_FAT1_SECTOR, FS_START_FAT0_SECTOR, BPB_RESERVED_SECTORS.
  change ROOT_DIR_SECTOR_COUNT with 4.
  assert (0 <= BPB_SECTORS_PER_FAT cfg).
  { apply UF2_DIV_CEIL_nonneg; [|reflexivity].
    apply UF2_DIV_CEIL_nonneg; assumption. }
  lia.
Qed.

Lemma uf2_read_block_data (cfg : Config) (env : Env) (block_no : Z) :
  0 < BPB_SECTORS_PER_CLUSTER cfg -> 0 <= BPB_TOTAL_SECTORS cfg ->
  FS_START_CLUSTERS_SECTOR cfg <= block_no < BPB_TOTAL_SECTORS cfg ->
  uf2_read_block cfg env block_no
  = read_data_sector cfg env block_no (zero_sector 512).
Proof.
  intros Hspc Htot Hb.
  destruct (FS_START_CLUSTERS_SECTOR_pos cfg Hspc Htot) as [H1 H2].
  unfold uf2_read_block. cbn zeta.
  destruct (Z.eqb_spec block_no 0); [lia|].
  destruct (Z.ltb_spec block_no (FS_START_ROOTDIR_SECTOR cfg)); [lia|].
  destruct (Z.ltb_spec block_no (FS_START_CLUSTERS_SECTOR cfg)); [lia|].
  destruct (Z.ltb_spec block_no (BPB_TOTAL_SECTORS cfg)); [|lia].
  reflexivity.
Qed.

(** [read_data_sector] on a sector of the data region, with the
    wrap-arounds that cannot occur there removed. *)
Lemma read_data_sector_resolved (cfg : Config) (env : Env) (block_no : Z)
    (data : list Z) :
  0 < BPB_SECTORS_PER_CLUSTER cfg -> 0 <= BPB_TOTAL_SECTORS cfg < 2 ^ 32 ->
  FS_START_CLUSTERS_SECTOR cfg <= block_no < BPB_TOTAL_SECTORS cfg ->
  let srs := block_no - FS_START_CLUSTERS_SECTOR cfg in
  let fid := info_index_of env (2 + srs / BPB_SECTORS_PER_CLUSTER cfg) in
  let inf := nth fid (info env) no_file in
  let frs :=
    u32 (srs - (cluster_start inf - 2) * BPB_SECTORS_PER_CLUSTER cfg) in
  read_data_sector cfg env block_no data
  = if negb (fid =? FID_UF2 env)%nat
       && negb (fid =? FID_MEASURMENT_DATA env)%nat
    then read_static_file inf frs data
    else if (fid =? FID_UF2 env)%nat
    then read_current_uf2 cfg env frs data
    else read_measurement_file env inf frs data.
Proof.
  intros Hspc Htot Hb srs fid inf frs.
  destruct (FS_START_CLUSTERS_SECTOR_pos cfg Hspc ltac:(lia)) as [_ H5].
  assert (Hsrs : 0 <= srs < BPB_TOTAL_SECTORS cfg - 4) by (subst srs; lia).
  assert (Hq : 0 <= srs / BPB_SECTORS_PER_CLUSTER cfg <= srs).
  { pose proof (Z.div_pos srs _ ltac:(lia) Hspc).
    pose proof (Z.mul_div_le srs _ Hspc). nia. }
  unfold read_data_sector. fold srs.
  replace (u32 srs) with srs
    by (unfold u32; symmetry; apply Z.mod_small; lia).
  replace (u32 (2 + srs / BPB_SECTORS_PER_CLUSTER cfg))
    with (2 + srs / BPB_SECTORS_PER_CLUSTER cfg)
    by (unfold u32; symmetry; apply Z.mod_small; lia).
  reflexivity.
Qed.




Lemma read_at_1 (k : nat) (d : list Z) : read_at k 1 d = [nth k d 0].
Proof. unfold read_at. cbn [seq map]. now rewrite Nat.add_0_r. Qed.







(** * Further properties of the code *)

(** ** [padded_memcpy] *)

Lemma padded_memcpy_no_nul (src : list Z) (len : nat) :
  Forall (fun c => c <> 0) (padded_memcpy src len).
Proof.
  revert src; induction len as [|n IH]; intros src; [constructor|].
  cbn [padded_memcpy]. destruct src as [|c rest].
  - constructor; [discriminate | apply IH].
  - destruct (Z.eqb_spec c 0); constructor; try apply IH;
      [discriminate | assumption].
Qed.

Lemma padded_memcpy_blank (rest : list Z) (len : nat) :
  padded_memcpy (0 :: rest) len = repeat 32 len.
Proof. induction len as [|n IH]; [reflexivity|]. simpl. now rewrite IH. Qed.

(** X1. [padded_memcpy] delivers exactly [len] bytes and never a NUL.
    A source whose first NUL comes after the text [pre] gives [pre],
    cut to [len] bytes, followed by blanks up to [len]; a source with
    at least [len] bytes before any NUL is copied as it is. *)
Theorem padded_memcpy_pads_with_blanks (pre rest : list Z) (len : nat) :
  Forall (fun c => c <> 0) pre ->
  length (padded_memcpy (pre ++ rest) len) = len
  /\ Forall (fun c => c <> 0) (padded_memcpy (pre ++ rest) len)
  /\ padded_memcpy (pre ++ 0 :: rest) len
     = firstn len pre ++ repeat 32 (len - length pre)
  /\ ((len <= length pre)%nat ->
      padded_memcpy (pre ++ rest) len = firstn len pre).
Proof.
  intros Hpre.
  split; [apply length_padded_memcpy|].
  split; [apply padded_memcpy_no_nul|].
  split.
  - revert len. induction Hpre as [|c pre Hc Hpre IH]; intros len.
    + cbn [app length]. rewrite padded_memcpy_blank, Nat.sub_0_r.
      now destruct len.
    + destruct len as [|n]; [reflexivity|].
      cbn [app padded_memcpy firstn length].
      destruct (Z.eqb_spec c 0); [contradiction|].
      rewrite IH. reflexivity.
  - revert len. induction Hpre as [|c pre Hc Hpre IH]; intros len Hlen.
    + simpl in Hlen. now replace len with 0%nat by lia.
    + destruct len as [|n]; [reflexivity|].
      cbn [app padded_memcpy firstn].
      destruct (Z.eqb_spec c 0); [contradiction|]. f_equal.
      apply IH. simpl in Hlen. lia.
Qed.

Lemma padded_memcpy_pads_with_blanks_witness :
  padded_memcpy (bytes_of_string "INFO" ++ 0 :: [85; 70]) 8
  = bytes_of_string "INFO    ".
Proof.
  refine (proj1 (proj2 (proj2
    (padded_memcpy_pads_with_blanks (bytes_of_string "INFO") [85; 70] 8 _)))).
  repeat constructor; discriminate.
Defined.

(** ** [info_index_of] *)


(** In a chain of ranges the scan finds the one file that holds the
    cluster. *)
Lemma info_scan_found (s : Z) (l : list FileContent_t) (c : Z) (i k : nat) :
  chain s l -> (k < length l)%nat -> in_range (nth k l no_file) c ->
  info_scan i l c = Some (i + k)%nat.
Proof.
  revert s i k; induction l as [|f l IH]; intros s i k Hc Hk Hr;
    [simpl in Hk; lia|].
  cbn [info_scan].
  destruct k as [|k].
  - cbn [nth] in Hr. destruct Hr as [H1 H2].
    destruct (Z.leb_spec (cluster_start f) c); [|lia].
    destruct (Z.leb_spec c (cluster_end f)); [|lia].
    cbn [andb]. f_equal. lia.
  - destruct (Z.leb_spec (cluster_start f) c) as [H1|H1];
      [destruct (Z.leb_spec c (cluster_end f)) as [H2|H2]|]; cbn [andb].
    + exfalso.
      exact (chain_disjoint s (f :: l) 0 (S k) c Hc ltac:(lia)
               (conj H1 H2) Hr Hk).
    + simpl in Hc, Hk. destruct Hc as (_ & _ & Hc).
      rewrite (IH _ (S i) k Hc) by (try lia; exact Hr). f_equal. lia.
    + simpl in Hc, Hk. destruct Hc as (_ & _ & Hc).
      rewrite (IH _ (S i) k Hc) by (try lia; exact Hr). f_equal. lia.
Qed.



(** ** More on [init_starting_clusters] *)

Lemma init_clusters_from_again (cfg : Config) (s : Z)
    (tbl : list FileContent_t) :
  init_clusters_from cfg s (init_clusters_from cfg s tbl)
  = init_clusters_from cfg s tbl.
Proof.
  revert s; induction tbl as [|f tbl IH]; intros s; [reflexivity|].
  cbn [init_clusters_from]. unfold assign_clusters at 1 3.
  cbn [name content size cluster_end]. f_equal. apply IH.
Qed.

Lemma init_clusters_from_fields (cfg : Config) (s : Z)
    (tbl : list FileContent_t) :
  map name (init_clusters_from cfg s tbl) = map name tbl
  /\ map content (init_clusters_from cfg s tbl) = map content tbl
  /\ map size (init_clusters_from cfg s tbl) = map size tbl.
Proof.
  revert s. induction tbl as [|f tbl IH]; intros s; [repeat split|].
  cbn [init_clusters_from map].
  destruct (IH (u16 (cluster_end (assign_clusters cfg s f) + 1)))
    as (H1 & H2 & H3).
  rewrite H1, H2, H3. repeat split.
Qed.

(** X3. [init_starting_clusters] touches the cluster fields only:
    names, contents and sizes stay as they were, in the same order;
    and a second run over its own result changes nothing. *)
Theorem init_starting_clusters_idempotent (cfg : Config)
    (tbl : list FileContent_t) :
  map name (init_starting_clusters cfg tbl) = map name tbl
  /\ map content (init_starting_clusters cfg tbl) = map content tbl
  /\ map size (init_starting_clusters cfg tbl) = map size tbl
  /\ init_starting_clusters cfg (init_starting_clusters cfg tbl)
     = init_starting_clusters cfg tbl.
Proof.
  unfold init_starting_clusters.
  destruct (init_clusters_from_fields cfg 2 tbl) as (H1 & H2 & H3).
  repeat split; try assumption. apply init_clusters_from_again.
Qed.





(** ** The two FAT copies *)

(** X5. The second FAT is the first: sector [k] of FAT 1 is read as
    the same 512 bytes as sector [k] of FAT 0. *)
Theorem fat_copies_identical (cfg : Config) (env : Env) (k : Z) :
  0 < BPB_SECTORS_PER_CLUSTER cfg ->
  0 <= BPB_TOTAL_SECTORS cfg < 2 ^ 32 ->
  0 <= k < BPB_SECTORS_PER_FAT cfg ->
  uf2_read_block cfg env (FS_START_FAT1_SECTOR cfg + k)
  = uf2_read_block cfg env (FS_START_FAT0_SECTOR + k).
Proof.
  intros Hspc Htot Hk.
  assert (E : forall copy, 0 <= copy < BPB_NUMBER_OF_FATS ->
            uf2_read_block cfg env
              (FS_START_FAT0_SECTOR + copy * BPB_SECTORS_PER_FAT cfg + k)
            = fat_chain_ends env (k * 256)
                (fat_reserved k
                   (fat_default (k * 256)
                      (u32 (cluster_end (nth (FID_UF2 env) (info env) no_file)
                            + 1))
                      (zero_sector 512)))).
  { intros copy Hcopy. unfold uf2_read_block. cbn zeta.
    unfold FS_START_FAT0_SECTOR, BPB_RESERVED_SECTORS, BPB_NUMBER_OF_FATS in *.
    destruct (Z.eqb_spec (1 + copy * BPB_SECTORS_PER_FAT cfg + k) 0); [nia|].
    unfold FS_START_ROOTDIR_SECTOR, FS_START_FAT1_SECTOR, FS_START_FAT0_SECTOR,
      BPB_RESERVED_SECTORS.
    destruct (Z.ltb_spec (1 + copy * BPB_SECTORS_PER_FAT cfg + k)
                (1 + BPB_SECTORS_PER_FAT cfg + BPB_SECTORS_PER_FAT cfg));
      [|nia].
    apply (read_fat_sector_copy cfg env copy k); assumption. }
  unfold FS_START_FAT1_SECTOR.
  replace (FS_START_FAT0_SECTOR + BPB_SECTORS_PER_FAT cfg + k)
    with (FS_START_FAT0_SECTOR + 1 * BPB_SECTORS_PER_FAT cfg + k) by lia.
  rewrite (E 1) by (unfold BPB_NUMBER_OF_FATS; lia). symmetry.
  replace (FS_START_FAT0_SECTOR + k)
    with (FS_START_FAT0_SECTOR + 0 * BPB_SECTORS_PER_FAT cfg + k) by lia.
  apply (E 0). unfold BPB_NUMBER_OF_FATS. lia.
Qed.

Lemma fat_copies_identical_witness :
  uf2_read_block sample_cfg sample_env (FS_START_FAT1_SECTOR sample_cfg + 64)
  = uf2_read_block sample_cfg sample_env (FS_START_FAT0_SECTOR + 64).
Proof.
  apply fat_copies_identical.
  - reflexivity.
  - vm_compute. split; [discriminate | reflexivity].
  - vm_compute. split; [discriminate | reflexivity].
Defined.

(** ** The boot sector *)

Lemma boot_sector_bytes (cfg : Config) (env : Env) :
  uf2_read_block cfg env 0 = BootBlock cfg ++ repeat 0 448 ++ [0x55; 0xaa].
Proof. reflexivity. Qed.

(** X6. The boot sector describes the volume that [uf2_read_block]
    serves.  It ends with the signature 0x55 0xAA; its bytes-per-sector
    field is 512 and its sectors-per-cluster field the configured
    value; the sector at which a FAT driver places the root directory
    (reserved sectors plus FAT copies times sectors per FAT) and the
    one at which it places the data region (after the root-directory
    entries) are the sectors at which the dispatch of
    [uf2_read_block] changes region; and the total sector count, read
    from the 16-bit field or, when that is 0, from the 32-bit field,
    is the configured total. *)
Theorem boot_sector_describes_volume (cfg : Config) (env : Env) :
  0 < BPB_SECTORS_PER_CLUSTER cfg < 2 ^ 8 ->
  0 <= BPB_SECTORS_PER_FAT cfg < 2 ^ 16 ->
  0 <= BPB_TOTAL_SECTORS cfg < 2 ^ 32 ->
  let s := uf2_read_block cfg env 0 in
  let SectorSize := get16 s 11 in
  let SectorsPerCluster := get8 s 13 in
  let ReservedSectors := get16 s 14 in
  let FATCopies := get8 s 16 in
  let RootDirectoryEntries := get16 s 17 in
  let TotalSectors16 := get16 s 19 in
  let SectorsPerFAT := get16 s 22 in
  let TotalSectors32 := get32 s 32 in
  get8 s 510 = 0x55 /\ get8 s 511 = 0xAA
  /\ SectorSize = BPB_SECTOR_SIZE
  /\ SectorsPerCluster = BPB_SECTORS_PER_CLUSTER cfg
  /\ ReservedSectors = FS_START_FAT0_SECTOR
  /\ ReservedSectors + FATCopies * SectorsPerFAT = FS_START_ROOTDIR_SECTOR cfg
  /\ ReservedSectors + FATCopies * SectorsPerFAT
     + RootDirectoryEntries * sizeof_DirEntry / SectorSize
     = FS_START_CLUSTERS_SECTOR cfg
  /\ (if TotalSectors16 =? 0 then TotalSectors32 else TotalSectors16)
     = BPB_TOTAL_SECTORS cfg.
Proof.
  intros Hspc Hspf Htot. cbn zeta. rewrite boot_sector_bytes.
  unfold FS_START_CLUSTERS_SECTOR, FS_START_ROOTDIR_SECTOR,
    FS_START_FAT1_SECTOR, FS_START_FAT0_SECTOR, BPB_RESERVED_SECTORS.
  change ROOT_DIR_SECTOR_COUNT with 4. change sizeof_DirEntry with 32.
  change BPB_SECTOR_SIZE with 512.
  assert (E11 : get16 (BootBlock cfg ++ repeat 0 448 ++ [85; 170]) 11 = 512)
    by reflexivity.
  assert (E13 : get8 (BootBlock cfg ++ repeat 0 448 ++ [85; 170]) 13
                = BPB_SECTORS_PER_CLUSTER cfg mod 256) by reflexivity.
  assert (E14 : get16 (BootBlock cfg ++ repeat 0 448 ++ [85; 170]) 14 = 1)
    by reflexivity.
  assert (E16 : get8 (BootBlock cfg ++ repeat 0 448 ++ [85; 170]) 16 = 2)
    by reflexivity.
  assert (E17 : get16 (BootBlock cfg ++ repeat 0 448 ++ [85; 170]) 17 = 64)
    by reflexivity.
  assert (E19 : get16 (BootBlock cfg ++ repeat 0 448 ++ [85; 170]) 19
                = u16 (if 0xFFFF <? BPB_TOTAL_SECTORS cfg then 0
                       else BPB_TOTAL_SECTORS cfg))
    by exact (le_value_le_bytes 2 _).
  assert (E22 : get16 (BootBlock cfg ++ repeat 0 448 ++ [85; 170]) 22
                = u16 (BPB_SECTORS_PER_FAT cfg))
    by exact (le_value_le_bytes 2 _).
  assert (E32 : get32 (BootBlock cfg ++ repeat 0 448 ++ [85; 170]) 32
                = u32 (if 0xFFFF <? BPB_TOTAL_SECTORS cfg
                       then BPB_TOTAL_SECTORS cfg else 0))
    by exact (le_value_le_bytes 4 _).
  rewrite E11, E13, E14, E16, E17, E19, E22, E32.
  unfold u16, u32.
  rewrite (Z.mod_small (BPB_SECTORS_PER_CLUSTER cfg)) by lia.
  rewrite (Z.mod_small (BPB_SECTORS_PER_FAT cfg)) by lia.
  split; [reflexivity|]. split; [reflexivity|].
  split; [reflexivity|]. split; [reflexivity|]. split; [reflexivity|].
  split; [lia|]. split; [change (64 * 32 / 512) with 4; lia|].
  destruct (Z.ltb_spec 0xFFFF (BPB_TOTAL_SECTORS cfg)).
  - change (0 mod 2 ^ 16 =? 0) with true. cbv iota.
    apply Z.mod_small. lia.
  - rewrite (Z.mod_small (BPB_TOTAL_SECTORS cfg) (2 ^ 16)) by lia.
    destruct (Z.eqb_spec (BPB_TOTAL_SECTORS cfg) 0) as [E|E];
      [rewrite E|]; reflexivity.
Qed.

Lemma boot_sector_describes_volume_witness :
  get16 (uf2_read_block sample_cfg sample_env 0) 14
  + get8 (uf2_read_block sample_cfg sample_env 0) 16
    * get16 (uf2_read_block sample_cfg sample_env 0) 22
  = FS_START_ROOTDIR_SECTOR sample_cfg.
Proof.
  refine (proj1 (proj2 (proj2 (proj2 (proj2 (proj2
    (boot_sector_describes_volume sample_cfg sample_env _ _ _))))))).
  - vm_compute. split; reflexivity.
  - vm_compute. split; [discriminate | reflexivity].
  - vm_compute. split; [discriminate | reflexivity].
Defined.

(** ** The root directory as a whole *)

(** A store inside the middle part of a buffer is a store in that
    part. *)
Lemma write_at_app_mid (pre mid post : list Z) (n off : nat) (bs : list Z) :
  n = (length pre + off)%nat -> (off + length bs <= length mid)%nat ->
  write_at n bs (pre ++ mid ++ post) = pre ++ write_at off bs mid ++ post.
Proof.
  intros -> H. unfold write_at.
  rewrite firstn_app, firstn_all2 by lia.
  replace (length pre + off - length pre)%nat with off by lia.
  rewrite firstn_app.
  replace (off - length mid)%nat with 0%nat by lia.
  cbn [firstn]. rewrite app_nil_r.
  rewrite skipn_app, (skipn_all2 pre) by lia. cbn [app].
  replace (length pre + off + length bs - length pre)%nat
    with (off + length bs)%nat by lia.
  rewrite skipn_app.
  replace (off + length bs - length mid)%nat with 0%nat by lia.
  cbn [skipn]. now rewrite <- !app_assoc.
Qed.

Lemma length_dir_entry_bytes (cfg : Config) (env : Env) (inf : FileContent_t) :
  length (dir_entry_bytes cfg env inf) = 32%nat.
Proof.
  unfold dir_entry_bytes. rewrite !length_app, length_padded_memcpy.
  reflexivity.
Qed.

(** One round of the loop over the files fills one zeroed slot. *)
Lemma write_file_entry_slot (cfg : Config) (env : Env) (d : Z)
    (inf : FileContent_t) (pre post : list Z) :
  0 <= d -> length pre = Z.to_nat (sizeof_DirEntry * d) ->
  write_file_entry cfg env d inf (pre ++ repeat 0 32 ++ post)
  = pre ++ dir_entry_bytes cfg env inf ++ post.
Proof.
  intros Hd Hpre. unfold write_file_entry, dir_entry_bytes, set8, set16, set32.
  cbn zeta. change sizeof_DirEntry with 32 in *.
  pose proof (length_padded_memcpy (name inf) 11) as Hn.
  destruct (padded_memcpy (name inf) 11)
    as [|n0 [|n1 [|n2 [|n3 [|n4 [|n5 [|n6 [|n7 [|n8 [|n9 [|n10 [|? ?]]]]]]]]]]]];
    try discriminate Hn. clear Hn.
  repeat match goal with
  | |- context [write_at (Z.to_nat (32 * d + ?c)) ?bs (pre ++ ?M ++ post)] =>
      rewrite (write_at_app_mid pre M post (Z.to_nat (32 * d + c)) (Z.to_nat c) bs)
        by first [lia | vm_compute; lia]
  | |- context [write_at (Z.to_nat (32 * d)) ?bs (pre ++ ?M ++ post)] =>
      rewrite (write_at_app_mid pre M post (Z.to_nat (32 * d)) 0 bs)
        by first [lia | vm_compute; lia]
  end.
  reflexivity.
Qed.

Lemma dir_entries_bytes (cfg : Config) (env : Env) (remainingEntries : Z)
    (files : list FileContent_t) :
  0 < remainingEntries ->
  forall (d : Z) (pre : list Z) (m : nat),
  0 <= d -> length pre = Z.to_nat (sizeof_DirEntry * d) ->
  (32 * length files <= m)%nat ->
  dir_entries cfg env remainingEntries files d (pre ++ repeat 0 m)
  = pre ++ concat (map (dir_entry_bytes cfg env) files)
    ++ repeat 0 (m - 32 * length files).
Proof.
  intros Hrem. induction files as [|inf rest IH]; intros d pre m Hd Hpre Hm.
  - cbn [dir_entries map concat length app]. now rewrite Nat.mul_0_r, Nat.sub_0_r.
  - cbn [dir_entries map concat length] in *.
    destruct (Z.ltb_spec 0 remainingEntries); [|lia].
    replace m with (32 + (m - 32))%nat at 1 by lia.
    rewrite repeat_app, write_file_entry_slot by assumption.
    rewrite app_assoc.
    rewrite (IH (d + 1) (pre ++ dir_entry_bytes cfg env inf) (m - 32)%nat).
    + rewrite <- !app_assoc. do 3 f_equal.
      replace (m - 32 - 32 * length rest)%nat
        with (m - 32 * S (length rest))%nat by lia.
      reflexivity.
    + lia.
    + rewrite length_app, length_dir_entry_bytes, Hpre.
      change sizeof_DirEntry with 32. lia.
    + lia.
Qed.

Lemma rootdir_sector_bytes (cfg : Config) (env : Env) :
  (NUM_FILES env + 1 < Z.to_nat DIRENTRIES_PER_SECTOR)%nat ->
  uf2_read_block cfg env (FS_START_ROOTDIR_SECTOR cfg)
  = label_entry_bytes
    ++ concat (map (dir_entry_bytes cfg env) (info env))
    ++ repeat 0 (512 - 32 * (1 + NUM_FILES env)).
Proof.
  intros Hn. unfold NUM_FILES in *.
  change (Z.to_nat DIRENTRIES_PER_SECTOR) with 16%nat in Hn.
  unfold uf2_read_block. cbn zeta.
  assert (Hodd : FS_START_ROOTDIR_SECTOR cfg
                 = 1 + 2 * BPB_SECTORS_PER_FAT cfg)
    by (unfold FS_START_ROOTDIR_SECTOR, FS_START_FAT1_SECTOR,
          FS_START_FAT0_SECTOR, BPB_RESERVED_SECTORS; lia).
  destruct (Z.eqb_spec (FS_START_ROOTDIR_SECTOR cfg) 0); [lia|].
  rewrite Z.ltb_irrefl.
  destruct (Z.ltb_spec (FS_START_ROOTDIR_SECTOR cfg)
              (FS_START_CLUSTERS_SECTOR cfg)) as [_|Hge];
    [|unfold FS_START_CLUSTERS_SECTOR in Hge;
      change ROOT_DIR_SECTOR_COUNT with 4 in Hge; lia].
  rewrite read_rootdir_sector_first by reflexivity.
  change (write_label_entry cfg 0 (zero_sector (Z.to_nat BPB_SECTOR_SIZE)))
    with (label_entry_bytes ++ repeat 0 480).
  change (DIRENTRIES_PER_SECTOR - 1) with 15.
  rewrite (dir_entries_bytes cfg env 15 (info env) ltac:(lia) 1
             label_entry_bytes 480 ltac:(lia) eq_refl ltac:(lia)).
  do 3 f_equal. lia.
Qed.

(** X7. The first root-directory sector, whole: the volume-label entry
    ([ENERTYMBOOT], attribute 0x28), then one 32-byte entry for every
    file of the table, in table order, then zeros to the end of the
    sector. *)
Theorem rootdir_sector_is_label_then_files (cfg : Config) (env : Env) :
  (NUM_FILES env + 1 < Z.to_nat DIRENTRIES_PER_SECTOR)%nat ->
  uf2_read_block cfg env (FS_START_ROOTDIR_SECTOR cfg)
  = label_entry_bytes
    ++ concat (map (dir_entry_bytes cfg env) (info env))
    ++ repeat 0 (512 - 32 * (1 + NUM_FILES env)).
Proof. exact (rootdir_sector_bytes cfg env). Qed.

Lemma rootdir_sector_is_label_then_files_witness :
  uf2_read_block sample_cfg sample_env (FS_START_ROOTDIR_SECTOR sample_cfg)
  = label_entry_bytes
    ++ concat (map (dir_entry_bytes sample_cfg sample_env) (info sample_env))
    ++ repeat 0 (512 - 32 * (1 + NUM_FILES sample_env)).
Proof.
  apply rootdir_sector_is_label_then_files. vm_compute. lia.
Defined.

Lemma concat_map_split (f : FileContent_t -> list Z)
    (l : list FileContent_t) (j : nat) :
  (j < length l)%nat ->
  concat (map f l)
  = concat (map f (firstn j l)) ++ f (nth j l no_file)
    ++ concat (map f (skipn (S j) l)).
Proof.
  revert j; induction l as [|x l IH]; intros j Hj; [simpl in Hj; lia|].
  destruct j as [|j]; [reflexivity|].
  cbn [map concat firstn skipn nth]. rewrite <- app_assoc. f_equal.
  apply IH. simpl in Hj. lia.
Qed.

Lemma length_concat_entries (cfg : Config) (env : Env)
    (l : list FileContent_t) :
  length (concat (map (dir_entry_bytes cfg env) l)) = (32 * length l)%nat.
Proof.
  induction l as [|x l IH]; [reflexivity|].
  cbn [map concat length]. rewrite length_app, length_dir_entry_bytes, IH. lia.
Qed.

Lemma read_at_app_mid (pre mid post : list Z) :
  read_at (length pre) (length mid) (pre ++ mid ++ post) = mid.
Proof.
  apply nth_ext with (d := 0) (d' := 0); [apply length_read_at|].
  intros k Hk. rewrite length_read_at in Hk. rewrite nth_read_at by exact Hk.
  rewrite app_nth2 by lia.
  replace (length pre + k - length pre)%nat with k by lia.
  now rewrite app_nth1 by exact Hk.
Qed.

(** The slot of file [j] in the first root-directory sector. *)
Lemma rootdir_entry_slot (cfg : Config) (env : Env) (j : nat) :
  (NUM_FILES env + 1 < Z.to_nat DIRENTRIES_PER_SECTOR)%nat ->
  (j < NUM_FILES env)%nat ->
  read_at (32 * (1 + j)) 32
    (uf2_read_block cfg env (FS_START_ROOTDIR_SECTOR cfg))
  = dir_entry_bytes cfg env (nth j (info env) no_file).
Proof.
  intros Hn Hj. rewrite rootdir_sector_bytes by exact Hn.
  unfold NUM_FILES in *.
  rewrite (concat_map_split _ (info env) j Hj).
  set (before := label_entry_bytes
                 ++ concat (map (dir_entry_bytes cfg env)
                              (firstn j (info env)))).
  set (e := dir_entry_bytes cfg env (nth j (info env) no_file)).
  assert (Hb : length before = (32 * (1 + j))%nat).
  { subst before. rewrite length_app, length_concat_entries, length_firstn.
    change (length label_entry_bytes) with 32%nat. lia. }
  assert (He : length e = 32%nat) by apply length_dir_entry_bytes.
  pose proof (read_at_app_mid before e
                (concat (map (dir_entry_bytes cfg env)
                           (skipn (S j) (info env)))
                 ++ repeat 0 (512 - 32 * (1 + length (info env))))) as G.
  rewrite Hb, He in G. etransitivity; [|exact G].
  f_equal. subst before. now rewrite <- !app_assoc.
Qed.

(** X8. What a host reads in the entry of file [j] of an allocated
    table: the 8.3 name, blank-padded and free of NULs; attribute
    byte 0 (a plain file); and the file's first cluster, the low half
    being [cluster_start] itself and the high half 0. *)
Theorem rootdir_entry_decodes (cfg : Config) (env : Env)
    (tbl : list FileContent_t) (j : nat) :
  0 < BPB_SECTORS_PER_CLUSTER cfg ->
  info env = init_starting_clusters cfg tbl -> fits_fat16 cfg tbl ->
  (NUM_FILES env + 1 < Z.to_nat DIRENTRIES_PER_SECTOR)%nat ->
  (j < NUM_FILES env)%nat ->
  let sector := uf2_read_block cfg env (FS_START_ROOTDIR_SECTOR cfg) in
  let base := sizeof_DirEntry * (1 + Z.of_nat j) in
  let inf := nth j (info env) no_file in
  read_at (Z.to_nat base) 11 sector = padded_memcpy (name inf) 11
  /\ Forall (fun c => c <> 0) (read_at (Z.to_nat base) 11 sector)
  /\ get8 sector (base + 11) = 0
  /\ get16 sector (base + 26) = cluster_start inf
  /\ get16 sector (base + 20) = 0.
Proof.
  intros Hspc Hinfo Hfits Hn Hj sector base inf.
  pose proof (rootdir_entry_slot cfg env j Hn Hj) as Hslot.
  fold sector in Hslot. fold inf in Hslot.
  change sizeof_DirEntry with 32 in *.
  assert (Hbase : Z.to_nat base = (32 * (1 + j))%nat) by (subst base; lia).
  (* a read inside the slot is a read of the entry's bytes *)
  assert (Hsub : forall o n, (o + n <= 32)%nat ->
            read_at (32 * (1 + j) + o) n sector
            = read_at o n (dir_entry_bytes cfg env inf)).
  { intros o n Hon. rewrite <- Hslot.
    apply nth_ext with (d := 0) (d' := 0); [now rewrite !length_read_at|].
    intros k Hk. rewrite length_read_at in Hk.
    rewrite !nth_read_at by lia. f_equal. lia. }
  (* the start cluster is a 16-bit number *)
  destruct (allocated_chain cfg tbl Hspc Hfits) as [Hchain Hend].
  rewrite <- Hinfo in Hchain, Hend.
  assert (Hin : In inf (info env)) by (apply nth_In; exact Hj).
  pose proof (chain_bounds _ _ _ Hchain Hin) as Hb.
  assert (Hcs : 0 <= cluster_start inf < 2 ^ 16) by lia.
  pose proof (length_padded_memcpy (name inf) 11) as Hlen.
  assert (Hname : read_at 0 11 (dir_entry_bytes cfg env inf)
                  = padded_memcpy (name inf) 11).
  { unfold dir_entry_bytes.
    rewrite <- Hlen at 1.
    exact (read_at_app_mid [] (padded_memcpy (name inf) 11) _). }
  assert (Hrest : forall o n, (11 <= o)%nat ->
            read_at o n (dir_entry_bytes cfg env inf)
            = read_at (o - 11) n
                ([0; 0]
                 ++ le_bytes 1 (COMPILE_SECONDS_INT cfg mod 2 * 100)
                 ++ le_bytes 2 (COMPILE_DOS_TIME cfg)
                 ++ le_bytes 2 (COMPILE_DOS_DATE cfg)
                 ++ le_bytes 2 (COMPILE_DOS_DATE cfg)
                 ++ le_bytes 2 (Z.shiftr (cluster_start inf) 16)
                 ++ le_bytes 2 (COMPILE_DOS_TIME cfg)
                 ++ le_bytes 2 (COMPILE_DOS_DATE cfg)
                 ++ le_bytes 2 (Z.land (cluster_start inf) 0xFFFF)
                 ++ le_bytes 4 (entry_size_field env inf))).
  { intros o n Hon. unfold dir_entry_bytes.
    apply nth_ext with (d := 0) (d' := 0); [now rewrite !length_read_at|].
    intros k Hk. rewrite length_read_at in Hk.
    rewrite !nth_read_at by lia.
    rewrite app_nth2 by lia. f_equal. lia. }
  split; [|split; [|split; [|split]]].
  - rewrite Hbase. rewrite <- (Nat.add_0_r (32 * (1 + j))).
    rewrite Hsub by lia. exact Hname.
  - rewrite Hbase. rewrite <- (Nat.add_0_r (32 * (1 + j))).
    rewrite Hsub by lia. rewrite Hname. apply padded_memcpy_no_nul.
  - unfold get8.
    replace (Z.to_nat (base + 11)) with (32 * (1 + j) + 11)%nat by lia.
    assert (E := Hsub 11%nat 1%nat ltac:(lia)).
    rewrite (Hrest 11%nat 1%nat ltac:(lia)) in E.
    rewrite read_at_1 in E. cbn in E. now injection E.
  - unfold get16.
    replace (Z.to_nat (base + 26)) with (32 * (1 + j) + 26)%nat by lia.
    rewrite (Hsub 26%nat 2%nat ltac:(lia)).
    rewrite (Hrest 26%nat 2%nat ltac:(lia)).
    transitivity (u16 (Z.land (cluster_start inf) 0xFFFF));
      [exact (le_value_le_bytes 2 _)|].
    change 0xFFFF with (Z.ones 16). rewrite Z.land_ones by lia.
    unfold u16. rewrite Z.mod_mod by lia. apply Z.mod_small. lia.
  - unfold get16.
    replace (Z.to_nat (base + 20)) with (32 * (1 + j) + 20)%nat by lia.
    rewrite (Hsub 20%nat 2%nat ltac:(lia)).
    rewrite (Hrest 20%nat 2%nat ltac:(lia)).
    transitivity (u16 (Z.shiftr (cluster_start inf) 16));
      [exact (le_value_le_bytes 2 _)|].
    rewrite Z.shiftr_div_pow2 by lia.
    rewrite Z.div_small by lia. reflexivity.
Qed.

Lemma rootdir_entry_decodes_witness :
  get16 (uf2_read_block sample_cfg sample_env
           (FS_START_ROOTDIR_SECTOR sample_cfg))
    (sizeof_DirEntry * (1 + Z.of_nat 4) + 26)
  = cluster_start (nth 4 (info sample_env) no_file).
Proof.
  refine (proj1 (proj2 (proj2 (proj2
    (rootdir_entry_decodes sample_cfg sample_env sample_table 4 _ _ _ _ _))))).
  - reflexivity.
  - exact sample_info_allocated.
  - exact sample_table_fits.
  - vm_compute. lia.
  - vm_compute. lia.
Defined.

(** ** The data region, file by file *)

(** Sector [r] of file [i] is served from file [i], at file-relative
    sector [r]. *)
Lemma data_sector_of_file (cfg : Config) (env : Env)
    (tbl : list FileContent_t) (i : nat) (r : Z) :
  geometry_ok cfg -> 0 <= BPB_TOTAL_SECTORS cfg < 2 ^ 32 ->
  info env = init_starting_clusters cfg tbl -> fits_fat16 cfg tbl ->
  (i < NUM_FILES env)%nat ->
  let inf := nth i (info env) no_file in
  0 <= r < sectors_of_file cfg inf ->
  sector_of_file cfg inf r < BPB_TOTAL_SECTORS cfg ->
  0 <= r * BPB_SECTOR_SIZE < 2 ^ 31
  /\ uf2_read_block cfg env (sector_of_file cfg inf r)
     = if negb (i =? FID_UF2 env)%nat
          && negb (i =? FID_MEASURMENT_DATA env)%nat
       then read_static_file inf r (zero_sector 512)
       else if (i =? FID_UF2 env)%nat
       then read_current_uf2 cfg env r (zero_sector 512)
       else read_measurement_file env inf r (zero_sector 512).
Proof.
  intros (Hspc & _ & Hbpc & Hcc) Htot Hinfo Hfits Hi inf Hr Hb.
  destruct (allocated_chain cfg tbl Hspc Hfits) as [Hchain Hend].
  rewrite <- Hinfo in Hchain, Hend.
  assert (Hin : In inf (info env)) by (apply nth_In; exact Hi).
  pose proof (chain_bounds _ _ _ Hchain Hin) as Hbnd.
  destruct (FS_START_CLUSTERS_SECTOR_pos cfg Hspc ltac:(lia)) as [_ H5].
  unfold sector_of_file, sectors_of_file in *.
  set (SPC := BPB_SECTORS_PER_CLUSTER cfg) in *.
  set (cs := cluster_start inf) in *. set (ce := cluster_end inf) in *.
  assert (Hcs : 0 <= (cs - 2) * SPC) by (apply Z.mul_nonneg_nonneg; lia).
  set (block_no := FS_START_CLUSTERS_SECTOR cfg + (cs - 2) * SPC + r) in *.
  assert (Hsrs : block_no - FS_START_CLUSTERS_SECTOR cfg = (cs - 2) * SPC + r)
    by (subst block_no; lia).
  (* the cluster of the sector *)
  assert (Hdiv : ((cs - 2) * SPC + r) / SPC = cs - 2 + r / SPC)
    by (rewrite Z.div_add_l by lia; reflexivity).
  assert (Hrq : 0 <= r / SPC < ce - cs + 1).
  { split; [apply Z.div_pos; lia|].
    apply Z.div_lt_upper_bound; [lia|]. rewrite Z.mul_comm. lia. }
  (* the geometry keeps it below 0xFFF0 *)
  assert (Hdata : FS_START_CLUSTERS_SECTOR cfg
                  = BPB_TOTAL_SECTORS cfg - NUM_SECTORS_IN_DATA_REGION cfg).
  { unfold NUM_SECTORS_IN_DATA_REGION, FS_START_CLUSTERS_SECTOR,
      FS_START_ROOTDIR_SECTOR, FS_START_FAT1_SECTOR, FS_START_FAT0_SECTOR,
      BPB_NUMBER_OF_FATS. lia. }
  unfold CLUSTER_COUNT in Hcc. fold SPC in Hcc.
  set (N := NUM_SECTORS_IN_DATA_REGION cfg) in *.
  assert (HN : (cs - 2) * SPC + r < N) by lia.
  pose proof (Z.mul_succ_div_gt N SPC Hspc) as HNq.
  assert (HNb : N < SPC * 0xFFD5) by nia.
  assert (Hlow : ((cs - 2) * SPC + r) / SPC <= N / SPC)
    by (apply Z.div_le_mono; lia).
  unfold BPB_BYTES_PER_CLUSTER in Hbpc. fold SPC in Hbpc.
  change BPB_SECTOR_SIZE with 512 in *.
  split; [nia|].
  rewrite (uf2_read_block_data cfg env block_no Hspc ltac:(lia) ltac:(lia)).
  rewrite (read_data_sector_resolved cfg env block_no (zero_sector 512)
             Hspc Htot ltac:(lia)).
  cbn zeta. fold SPC. rewrite Hsrs, Hdiv.
  assert (Hfid : info_index_of env (2 + (cs - 2 + r / SPC)) = i).
  { unfold info_index_of.
    destruct (Z.leb_spec 0xFFF0 (2 + (cs - 2 + r / SPC))); [lia|].
    rewrite (info_scan_found 2 (info env) _ 0 i Hchain Hi); [reflexivity|].
    fold inf. unfold in_range. fold cs ce. lia. }
  rewrite Hfid. fold inf. fold cs.
  replace ((cs - 2) * SPC + r - (cs - 2) * SPC) with r by lia.
  replace (u32 r) with r by (unfold u32; symmetry; apply Z.mod_small; lia).
  reflexivity.
Qed.

Lemma nth_upto_map (f : Z -> Z) (n k : nat) :
  (k < n)%nat -> nth k (map f (upto n)) 0 = f (Z.of_nat k).
Proof.
  intros H. unfold upto. rewrite map_map.
  rewrite (nth_map_seq (fun x => f (Z.of_nat x)) 0 n k H). reflexivity.
Qed.

(** The bytes of one sector-wide window stored at the start of a
    zeroed sector. *)
Lemma window_bytes (len off : Z) (src : nat -> Z) (bs : list Z) (k : nat) :
  0 <= off ->
  (off < len ->
   length bs = Z.to_nat (if BPB_SECTOR_SIZE <? len - off then BPB_SECTOR_SIZE
                         else len - off)
   /\ forall j, (j < length bs)%nat -> nth j bs 0 = src j) ->
  (k < 512)%nat ->
  nth k (if off <? len then write_at 0 bs (zero_sector 512)
         else zero_sector 512) 0
  = if off + Z.of_nat k <? len then src k else 0.
Proof.
  intros Hoff Hbs Hk. change BPB_SECTOR_SIZE with 512 in Hbs.
  destruct (Z.ltb_spec off len) as [Hlt|Hge].
  - destruct (Hbs Hlt) as [Hlen Hnth].
    assert (Hn : (length bs <= 512)%nat)
      by (rewrite Hlen; destruct (Z.ltb_spec 512 (len - off)); lia).
    rewrite nth_write_at by (rewrite length_zero_sector; lia).
    cbn [Nat.leb andb]. rewrite Nat.sub_0_r, Nat.add_0_l.
    destruct (Nat.ltb_spec k (length bs)) as [Hin|Hout];
      destruct (Z.ltb_spec (off + Z.of_nat k) len) as [Hl|Hl].
    + now apply Hnth.
    + exfalso. rewrite Hlen in Hin.
      destruct (Z.ltb_spec 512 (len - off)); lia.
    + exfalso. rewrite Hlen in Hout.
      destruct (Z.ltb_spec 512 (len - off)); lia.
    + apply nth_zero_sector.
  - destruct (Z.ltb_spec (off + Z.of_nat k) len); [lia|].
    apply nth_zero_sector.
Qed.

(** X9. Reading a file with static content returns that content:
    byte [k] of the sector that holds sector [r] of file [i] is byte
    [r * 512 + k] of the file's buffer while that lies before the end
    of the file, and 0 from the end of the file on. *)
Theorem static_file_sector_is_content (cfg : Config) (env : Env)
    (tbl : list FileContent_t) (i : nat) (r : Z) (c : list Z) (k : nat) :
  geometry_ok cfg -> 0 <= BPB_TOTAL_SECTORS cfg < 2 ^ 32 ->
  info env = init_starting_clusters cfg tbl -> fits_fat16 cfg tbl ->
  (i < NUM_FILES env)%nat ->
  i <> FID_UF2 env -> i <> FID_MEASURMENT_DATA env ->
  let inf := nth i (info env) no_file in
  content inf = Some c ->
  0 <= r < sectors_of_file cfg inf ->
  sector_of_file cfg inf r < BPB_TOTAL_SECTORS cfg ->
  (k < 512)%nat ->
  nth k (uf2_read_block cfg env (sector_of_file cfg inf r)) 0
  = if r * BPB_SECTOR_SIZE + Z.of_nat k <? size inf
    then nth (Z.to_nat (r * BPB_SECTOR_SIZE) + k) c 0
    else 0.
Proof.
  intros Hgeo Htot Hinfo Hfits Hi Hu Hm inf Hc Hr Hb Hk.
  destruct (data_sector_of_file cfg env tbl i r Hgeo Htot Hinfo Hfits Hi Hr Hb)
    as [Hoff E].
  fold inf in E. rewrite E.
  destruct (Nat.eqb_spec i (FID_UF2 env)); [contradiction|].
  destruct (Nat.eqb_spec i (FID_MEASURMENT_DATA env)); [contradiction|].
  cbn [negb andb]. unfold read_static_file, memcpy. cbn zeta. rewrite Hc.
  replace (u32 (r * BPB_SECTOR_SIZE)) with (r * BPB_SECTOR_SIZE)
    by (unfold u32; symmetry; apply Z.mod_small; lia).
  apply (window_bytes (size inf) (r * BPB_SECTOR_SIZE)
           (fun j => nth (Z.to_nat (r * BPB_SECTOR_SIZE) + j) c 0));
    [lia | | exact Hk].
  intros _. split; [apply length_read_at|].
  intros j Hj. rewrite length_read_at in Hj.
  rewrite nth_read_at by exact Hj. rewrite nth_skipn. reflexivity.
Qed.

Lemma static_file_sector_is_content_witness :
  nth 5 (uf2_read_block sample_cfg sample_env
           (sector_of_file sample_cfg (nth 2 (info sample_env) no_file) 0)) 0
  = nth (Z.to_nat (0 * BPB_SECTOR_SIZE) + 5) test_csv_data 0.
Proof.
  refine (static_file_sector_is_content sample_cfg sample_env sample_table
            2 0 test_csv_data 5 _ _ _ _ _ _ _ _ _ _ _).
  - exact sample_cfg_geometry_ok.
  - vm_compute. split; [discriminate | reflexivity].
  - exact sample_info_allocated.
  - exact sample_table_fits.
  - vm_compute. lia.
  - vm_compute. lia.
  - vm_compute. lia.
  - reflexivity.
  - vm_compute. split; [discriminate | reflexivity].
  - vm_compute. reflexivity.
  - lia.
Defined.

(** X10. Reading the measurement-data file returns what
    [board_measuremnt_data_read] delivers: byte [k] of the sector that
    holds sector [r] of the file is the measurement byte at offset
    [r * 512 + k] while that lies before the end of the file, and 0
    from the end of the file on. *)
Theorem measurement_file_sector_is_data (cfg : Config) (env : Env)
    (tbl : list FileContent_t) (r : Z) (k : nat) :
  geometry_ok cfg -> 0 <= BPB_TOTAL_SECTORS cfg < 2 ^ 32 ->
  info env = init_starting_clusters cfg tbl -> fits_fat16 cfg tbl ->
  (2 <= NUM_FILES env)%nat ->
  let inf := nth (FID_MEASURMENT_DATA env) (info env) no_file in
  0 <= r < sectors_of_file cfg inf ->
  sector_of_file cfg inf r < BPB_TOTAL_SECTORS cfg ->
  (k < 512)%nat ->
  nth k (uf2_read_block cfg env (sector_of_file cfg inf r)) 0
  = if r * BPB_SECTOR_SIZE + Z.of_nat k <? size inf
    then measurement_byte env (r * BPB_SECTOR_SIZE + Z.of_nat k)
    else 0.
Proof.
  intros Hgeo Htot Hinfo Hfits Hn inf Hr Hb Hk.
  assert (Hi : (FID_MEASURMENT_DATA env < NUM_FILES env)%nat)
    by (unfold FID_MEASURMENT_DATA; lia).
  destruct (data_sector_of_file cfg env tbl _ r Hgeo Htot Hinfo Hfits Hi Hr Hb)
    as [Hoff E].
  fold inf in E. rewrite E.
  rewrite Nat.eqb_refl.
  destruct (Nat.eqb_spec (FID_MEASURMENT_DATA env) (FID_UF2 env)) as [Heq|_];
    [unfold FID_MEASURMENT_DATA, FID_UF2 in Heq; lia|].
  cbn [negb andb]. unfold read_measurement_file. cbn zeta.
  replace (u32 (r * BPB_SECTOR_SIZE)) with (r * BPB_SECTOR_SIZE)
    by (unfold u32; symmetry; apply Z.mod_small; lia).
  apply (window_bytes (size inf) (r * BPB_SECTOR_SIZE)
           (fun j => measurement_byte env (r * BPB_SECTOR_SIZE + Z.of_nat j)));
    [lia | | exact Hk].
  intros _. unfold board_measuremnt_data_read.
  split; [now rewrite length_map, length_upto|].
  intros j Hj. rewrite length_map, length_upto in Hj.
  now rewrite nth_upto_map.
Qed.

Lemma measurement_file_sector_is_data_witness :
  nth 9 (uf2_read_block sample_cfg sample_env
           (sector_of_file sample_cfg
              (nth (FID_MEASURMENT_DATA sample_env) (info sample_env) no_file)
              3)) 0
  = measurement_byte sample_env (3 * BPB_SECTOR_SIZE + Z.of_nat 9).
Proof.
  refine (measurement_file_sector_is_data sample_cfg sample_env sample_table
            3 9 _ _ _ _ _ _ _ _).
  - exact sample_cfg_geometry_ok.
  - vm_compute. split; [discriminate | reflexivity].
  - exact sample_info_allocated.
  - exact sample_table_fits.
  - vm_compute. lia.
  - vm_compute. split; [discriminate | reflexivity].
  - vm_compute. reflexivity.
  - lia.
Defined.

(** ** [CURRENT.UF2]: what is read can be written back *)


(** The fields [as_UF2_Block] finds in those bytes. *)
Lemma as_UF2_Block_bytes (m0 m1 fl addr ps bn nb fam mend : Z)
    (payload : list Z) :
  length payload = 476%nat ->
  as_UF2_Block
    (le_bytes 4 m0 ++ le_bytes 4 m1 ++ le_bytes 4 fl ++ le_bytes 4 addr
     ++ le_bytes 4 ps ++ le_bytes 4 bn ++ le_bytes 4 nb ++ le_bytes 4 fam
     ++ payload ++ le_bytes 4 mend)
  = mkUF2 (u32 m0) (u32 m1) (u32 fl) (u32 addr) (u32 ps) (u32 bn) (u32 nb)
      (u32 fam) payload (u32 mend).
Proof.
  intros Hp.
  set (hdr := le_bytes 4 m0 ++ le_bytes 4 m1 ++ le_bytes 4 fl
              ++ le_bytes 4 addr ++ le_bytes 4 ps ++ le_bytes 4 bn
              ++ le_bytes 4 nb ++ le_bytes 4 fam).
  assert (E : le_bytes 4 m0 ++ le_bytes 4 m1 ++ le_bytes 4 fl ++ le_bytes 4 addr
              ++ le_bytes 4 ps ++ le_bytes 4 bn ++ le_bytes 4 nb
              ++ le_bytes 4 fam ++ payload ++ le_bytes 4 mend
              = hdr ++ payload ++ le_bytes 4 mend) by reflexivity.
  rewrite E. clear E. unfold as_UF2_Block. f_equal;
    try exact (le_value_le_bytes 4 _).
  - transitivity (read_at (length hdr) (length payload)
                    (hdr ++ payload ++ le_bytes 4 mend)).
    + rewrite Hp. reflexivity.
    + apply read_at_app_mid.
  - unfold get32.
    transitivity (le_value (read_at (length (hdr ++ payload))
                              (length (le_bytes 4 mend))
                              ((hdr ++ payload) ++ le_bytes 4 mend ++ []))).
    + rewrite length_app, Hp, app_nil_r, <- app_assoc. reflexivity.
    + rewrite read_at_app_mid. exact (le_value_le_bytes 4 _).
Qed.



(** ** Every way out of [uf2_write_block] *)

(** X12. [uf2_write_block] answers 512 or -1 and nothing else (never
    the 0 its header comment reserves for a busy device); when it
    answers -1 the state is as it was and the flash driver was not
    called, and the device is not restarted. *)
Theorem uf2_write_block_answers (cfg : Config) (nvs : NvsReplies)
    (block_no : Z) (data : list Z) (state : WriteState) :
  let r := uf2_write_block cfg nvs block_no data state in
  (returned r = 512 \/ returned r = -1)
  /\ (returned r = -1 ->
      state_after r = state
      /\ existsb flash_call (calls_made r) = false
      /\ ~ In esp_restart (calls_made r)).
Proof.
  unfold uf2_write_block, returned, state_after, calls_made.
  destruct (is_uf2_block cfg (as_UF2_Block data)); cbn [negb].
  - destruct (familyID (as_UF2_Block data) =? BOARD_UF2_FAMILY_ID cfg).
    + destruct (update_written cfg (as_UF2_Block data) state) as [s c].
      cbn [fst snd]. split; [left; reflexivity | discriminate].
    + cbn [fst snd]. split; [right; reflexivity|]. intros _.
      repeat split. intros [].
  - destruct (is_serialnum_block cfg (as_SerialNum_Block data)).
    + unfold serialnum_to_nvs.
      destruct (nvs_open_err nvs =? ESP_OK) eqn:E1; cbn [negb fst snd].
      * destruct (nvs_set_blob_err nvs =? ESP_OK) eqn:E2; cbn [negb fst snd].
        -- destruct (nvs_commit_err nvs =? ESP_OK) eqn:E3; cbn [negb fst snd].
           ++ change (ESP_OK =? ESP_OK) with true. cbn [negb fst snd].
              split; [left; reflexivity | discriminate].
           ++ rewrite E3. cbn [negb fst snd].
              split; [right; reflexivity|]. intros _. repeat split.
              intros [H|[H|[H|[]]]]; discriminate.
        -- rewrite E2. cbn [negb fst snd].
           split; [right; reflexivity|]. intros _. repeat split.
           intros [H|[H|[]]]; discriminate.
      * rewrite E1. cbn [negb fst snd].
        split; [right; reflexivity|]. intros _. repeat split.
        intros [H|[]]; discriminate.
    + cbn [fst snd]. split; [right; reflexivity|]. intros _.
      repeat split. intros [].
Qed.

Ltac serial_failure :=
  split; [reflexivity|]; split; [reflexivity|];
  split; [split; [discriminate | intros (? & ? & ?); contradiction]|];
  split; [discriminate|]; intros _;
  split; [reflexivity|];
  split; [intros Hin; cbn [In] in Hin; intuition discriminate|];
  split; [intros Hin; cbn [In] in Hin; intuition discriminate | reflexivity].

(** X13. A sector that is no firmware block but carries the three
    serial-number magics: the state and the flash are left alone; the
    serial number goes to the store; the answer is 512 exactly when
    opening, storing and committing all succeeded, and then the handle
    is closed and the device restarted; after a failure the call that
    failed is the last one made, and the handle is not closed. *)
Theorem serial_number_block_stored (cfg : Config) (nvs : NvsReplies)
    (block_no : Z) (data : list Z) (state : WriteState) :
  is_uf2_block cfg (as_UF2_Block data) = false ->
  is_serialnum_block cfg (as_SerialNum_Block data) = true ->
  let r := uf2_write_block cfg nvs block_no data state in
  let sn := serialNumber (as_SerialNum_Block data) in
  state_after r = state
  /\ existsb flash_call (calls_made r) = false
  /\ (returned r = 512 <->
      nvs_open_err nvs = ESP_OK /\ nvs_set_blob_err nvs = ESP_OK
      /\ nvs_commit_err nvs = ESP_OK)
  /\ (returned r = 512 ->
      calls_made r
      = [nvs_open; nvs_set_blob sn; nvs_commit; nvs_close; esp_restart])
  /\ (returned r <> 512 ->
      returned r = -1
      /\ ~ In nvs_close (calls_made r) /\ ~ In esp_restart (calls_made r)
      /\ calls_made r
         = if negb (nvs_open_err nvs =? ESP_OK) then [nvs_open]
           else if negb (nvs_set_blob_err nvs =? ESP_OK)
           then [nvs_open; nvs_set_blob sn]
           else [nvs_open; nvs_set_blob sn; nvs_commit]).
Proof.
  intros Hu Hs. unfold uf2_write_block, returned, state_after, calls_made.
  rewrite Hu, Hs. cbn [negb]. unfold serialnum_to_nvs.
  destruct (Z.eqb_spec (nvs_open_err nvs) ESP_OK) as [E1|E1]; cbn [negb].
  - destruct (Z.eqb_spec (nvs_set_blob_err nvs) ESP_OK) as [E2|E2]; cbn [negb].
    + destruct (Z.eqb_spec (nvs_commit_err nvs) ESP_OK) as [E3|E3]; cbn [negb].
      * change (ESP_OK =? ESP_OK) with true. cbn [negb fst snd].
        split; [reflexivity|]. split; [reflexivity|].
        split; [split; [intros _; repeat split; assumption | reflexivity]|].
        split; [reflexivity|]. intros H. exfalso. apply H. reflexivity.
      * destruct (Z.eqb_spec (nvs_commit_err nvs) ESP_OK); [contradiction|].
        cbn [negb fst snd]. serial_failure.
    + destruct (Z.eqb_spec (nvs_set_blob_err nvs) ESP_OK); [contradiction|].
      cbn [negb fst snd]. serial_failure.
  - destruct (Z.eqb_spec (nvs_open_err nvs) ESP_OK); [contradiction|].
    cbn [negb fst snd]. serial_failure.
Qed.

Lemma serial_number_block_stored_witness :
  calls_made
    (uf2_write_block sample_cfg sample_nvs 0
       (serialnum_sector sample_cfg [0x45; 0x12; 0x34; 0x56; 0x78; 0x90])
       (fresh_state sample_cfg))
  = [nvs_open; nvs_set_blob [0x45; 0x12; 0x34; 0x56; 0x78; 0x90];
     nvs_commit; nvs_close; esp_restart].
Proof.
  refine (proj1 (proj2 (proj2 (proj2
            (serial_number_block_stored sample_cfg sample_nvs 0
               (serialnum_sector sample_cfg [0x45; 0x12; 0x34; 0x56; 0x78; 0x90])
               (fresh_state sample_cfg) _ _)))) _).
  - vm_compute. reflexivity.
  - vm_compute. reflexivity.
  - vm_compute. reflexivity.
Defined.

(** ** The mask of written blocks *)

Lemma block_mask_pow (b : Z) : u8 (Z.shiftl 1 (b mod 8)) = 2 ^ (b mod 8).
Proof.
  pose proof (Z.mod_pos_bound b 8 ltac:(lia)) as Hk.
  rewrite Z.shiftl_1_l. unfold u8. apply Z.mod_small.
  split; [apply Z.pow_nonneg; lia | apply Z.pow_lt_mono_r; lia].
Qed.

Lemma land_lor_other (x i j : Z) :
  0 <= i -> 0 <= j -> i <> j ->
  Z.land (Z.lor x (2 ^ i)) (2 ^ j) = Z.land x (2 ^ j).
Proof.
  intros Hi Hj Hne. apply Z.bits_inj'. intros n Hn.
  rewrite !Z.land_spec, Z.lor_spec, !Z.pow2_bits_eqb by lia.
  destruct (Z.eqb_spec i n), (Z.eqb_spec j n); try lia;
    now rewrite ?orb_false_r, ?andb_false_r.
Qed.

Lemma length_mark_written (bl : UF2_Block) (state : WriteState) :
  (Z.to_nat (blockNo bl / 8) < length (writtenMask state))%nat ->
  length (writtenMask (mark_written bl state)) = length (writtenMask state).
Proof.
  intros Hpos. unfold mark_written. destruct (_ =? 0); [|reflexivity].
  cbn [writtenMask]. apply length_write_at. cbn [length]. lia.
Qed.

(** [mark_written] touches no bit but the block's own. *)
Lemma written_mark_written_other (bl : UF2_Block) (state : WriteState)
    (j : Z) :
  0 <= blockNo bl -> 0 <= j -> j <> blockNo bl ->
  (Z.to_nat (blockNo bl / 8) < length (writtenMask state))%nat ->
  written (mark_written bl state) j = written state j.
Proof.
  intros Hb Hj Hne Hpos. unfold mark_written.
  destruct (Z.land _ _ =? 0); [|reflexivity].
  unfold written. cbn [writtenMask].
  rewrite nth_write_at by (cbn [length]; lia). cbn [length].
  destruct (Nat.leb_spec (Z.to_nat (blockNo bl / 8)) (Z.to_nat (j / 8)));
    [destruct (Nat.ltb_spec (Z.to_nat (j / 8))
                 (Z.to_nat (blockNo bl / 8) + 1))|];
    cbn [andb]; try reflexivity.
  assert (Hpos_eq : j / 8 = blockNo bl / 8).
  { pose proof (Z.div_pos j 8 Hj ltac:(lia)).
    pose proof (Z.div_pos (blockNo bl) 8 Hb ltac:(lia)). lia. }
  replace (Z.to_nat (j / 8) - Z.to_nat (blockNo bl / 8))%nat with 0%nat by lia.
  cbn [nth]. rewrite Hpos_eq, !block_mask_pow.
  pose proof (Z.mod_pos_bound j 8 ltac:(lia)).
  pose proof (Z.mod_pos_bound (blockNo bl) 8 ltac:(lia)).
  rewrite land_lor_other; [reflexivity | lia | lia |].
  intros E. apply Hne.
  rewrite (Z.div_mod j 8), (Z.div_mod (blockNo bl) 8) by lia. lia.
Qed.

Lemma fst_update_written (cfg : Config) (bl : UF2_Block)
    (state : WriteState) :
  fst (update_written cfg bl state)
  = if negb (bl_numBlocks bl =? 0) then
      if blockNo bl <? MAX_BLOCKS cfg
      then mark_written bl (update_numBlocks cfg bl state)
      else update_numBlocks cfg bl state
    else state.
Proof.
  unfold update_written. destruct (negb _); [|reflexivity].
  destruct (_ <? _); [|reflexivity]. now destruct (_ <=? _).
Qed.

Lemma block_pos_in_mask (cfg : Config) (b : Z) (mask : list Z) :
  0 <= b < MAX_BLOCKS cfg ->
  MAX_BLOCKS cfg <= 8 * Z.of_nat (length mask) ->
  (Z.to_nat (b / 8) < length mask)%nat.
Proof.
  intros Hb Hm.
  assert (b / 8 < Z.of_nat (length mask))
    by (apply Z.div_lt_upper_bound; lia).
  pose proof (Z.div_pos b 8 ltac:(lia) ltac:(lia)). lia.
Qed.

(** X14. An accepted block changes no bit of the mask but the one of
    its own index, and clears none: every other index is written after
    the call exactly if it was before, and what was written stays
    written; the mask keeps its length. *)
Theorem write_touches_own_bit_only (cfg : Config) (nvs : NvsReplies)
    (block_no : Z) (data : list Z) (state : WriteState) :
  accepted cfg data ->
  0 <= blockNo (as_UF2_Block data) < MAX_BLOCKS cfg ->
  MAX_BLOCKS cfg <= 8 * Z.of_nat (length (writtenMask state)) ->
  let idx := blockNo (as_UF2_Block data) in
  let state' := state_after (uf2_write_block cfg nvs block_no data state) in
  (forall j, 0 <= j -> j <> idx -> written state' j = written state j)
  /\ (forall j, 0 <= j -> written state j = true -> written state' j = true)
  /\ length (writtenMask state') = length (writtenMask state).
Proof.
  intros Hacc Hidx Hmask idx state'. subst idx state'.
  rewrite (uf2_write_block_accepted cfg nvs block_no data state Hacc).
  unfold state_after. cbn [fst snd].
  set (bl := as_UF2_Block data) in *.
  rewrite fst_update_written.
  destruct (Z.ltb_spec (blockNo bl) (MAX_BLOCKS cfg)) as [_|?]; [|lia].
  pose proof (block_pos_in_mask cfg _ _ Hidx Hmask) as Hpos.
  rewrite <- (proj2 (update_numBlocks_keeps cfg bl state)) in Hpos.
  pose proof (mark_written_spec bl _ Hpos) as (_ & Hown & _).
  assert (Hother : forall j, 0 <= j -> j <> blockNo bl ->
            written (mark_written bl (update_numBlocks cfg bl state)) j
            = written state j).
  { intros j Hj Hne. rewrite written_mark_written_other by (assumption || lia).
    apply written_update_numBlocks. }
  destruct (negb (bl_numBlocks bl =? 0)).
  - split; [exact Hother|]. split.
    + intros j Hj Hw. destruct (Z.eq_dec j (blockNo bl)) as [->|Hne];
        [exact Hown | now rewrite Hother].
    + rewrite length_mark_written by exact Hpos.
      now rewrite (proj2 (update_numBlocks_keeps cfg bl state)).
  - repeat split; auto.
Qed.

Lemma write_touches_own_bit_only_witness :
  written
    (state_after
       (uf2_write_block sample_cfg sample_nvs 0
          (uf2_sector sample_cfg 0x2000 3 10 0xbfdd4eee)
          (fresh_state sample_cfg))) 4
  = written (fresh_state sample_cfg) 4.
Proof.
  refine (proj1 (write_touches_own_bit_only sample_cfg sample_nvs 0
                   (uf2_sector sample_cfg 0x2000 3 10 0xbfdd4eee)
                   (fresh_state sample_cfg) _ _ _) 4 _ _).
  - split; vm_compute; reflexivity.
  - vm_compute. split; [discriminate | reflexivity].
  - vm_compute. discriminate.
  - lia.
  - vm_compute. discriminate.
Defined.

(** ** Sessions *)

Lemma write_session_from (cfg : Config) (nvs : NvsReplies)
    (sectors : list (list Z)) (state : WriteState) (calls : list Event) :
  fold_left
    (fun acc data =>
       let r := uf2_write_block cfg nvs 0 data (fst acc) in
       (state_after r, snd acc ++ calls_made r))
    sectors (state, calls)
  = (fst (write_session cfg nvs sectors state),
     calls ++ snd (write_session cfg nvs sectors state)).
Proof.
  unfold write_session. revert state calls.
  induction sectors as [|d ds IH]; intros state calls; cbn [fold_left fst snd].
  - now rewrite app_nil_r.
  - rewrite IH. rewrite (IH _ ([] ++ _)). cbn [fst snd app].
    now rewrite app_assoc.
Qed.

Lemma write_session_cons (cfg : Config) (nvs : NvsReplies)
    (data : list Z) (sectors : list (list Z)) (state : WriteState) :
  let r := uf2_write_block cfg nvs 0 data state in
  write_session cfg nvs (data :: sectors) state
  = (fst (write_session cfg nvs sectors (state_after r)),
     calls_made r ++ snd (write_session cfg nvs sectors (state_after r))).
Proof.
  cbn zeta. unfold write_session at 1. cbn [fold_left fst snd app].
  apply write_session_from.
Qed.

(** One call on a state whose total is the sentinel. *)
Lemma unknown_total_step (cfg : Config) (nvs : NvsReplies)
    (block_no : Z) (data : list Z) (state : WriteState) :
  numBlocks state = 0xffffffff ->
  0 <= numWritten state < 0xfffffffe ->
  let r := uf2_write_block cfg nvs block_no data state in
  numBlocks (state_after r) = 0xffffffff
  /\ numWritten state <= numWritten (state_after r) <= numWritten state + 1
  /\ ~ In board_flash_flush (calls_made r).
Proof.
  intros Hs Hw.
  assert (Hrej : forall calls,
            ~ In board_flash_flush calls ->
            numBlocks state = 0xffffffff
            /\ numWritten state <= numWritten state <= numWritten state + 1
            /\ ~ In board_flash_flush calls)
    by (intros calls Hc; split; [exact Hs|]; split; [lia | exact Hc]).
  unfold uf2_write_block, state_after, calls_made.
  destruct (is_uf2_block cfg (as_UF2_Block data)); cbn [negb].
  - destruct (familyID (as_UF2_Block data) =? BOARD_UF2_FAMILY_ID cfg);
      [|cbn [fst snd]; apply Hrej; intros []].
    set (bl := as_UF2_Block data).
    assert (Hu : numBlocks (update_numBlocks cfg bl state) = 0xffffffff).
    { unfold update_numBlocks. destruct (negb _); [|exact Hs].
      destruct (Z.eqb_spec (numBlocks state) 0) as [E|E];
        [rewrite Hs in E; discriminate|].
      now rewrite orb_true_r. }
    pose proof (proj1 (update_numBlocks_keeps cfg bl state)) as Hk.
    unfold update_written.
    destruct (negb (bl_numBlocks bl =? 0)); cbn [fst snd].
    2:{ split; [exact Hs|]. split; [lia|].
        intros [Hflush|[]]; discriminate. }
    destruct (blockNo bl <? MAX_BLOCKS cfg); cbn [fst snd].
    2:{ split; [exact Hu|]. split; [lia|].
        intros [Hflush|[]]; discriminate. }
    assert (Hm : numBlocks (mark_written bl (update_numBlocks cfg bl state))
                 = 0xffffffff)
      by (rewrite mark_written_numBlocks; exact Hu).
    assert (Hn : numWritten state
                 <= numWritten (mark_written bl (update_numBlocks cfg bl state))
                 <= numWritten state + 1).
    { unfold mark_written. destruct (_ =? 0); cbn [numWritten]; rewrite Hk;
        [|lia].
      unfold u32. rewrite Z.mod_small; lia. }
    rewrite Hm.
    destruct (Z.leb_spec 0xffffffff
                (numWritten (mark_written bl (update_numBlocks cfg bl state))));
      [lia|].
    cbn [fst snd]. split; [exact Hm|]. split; [lia|].
    intros [Hflush|[]]; discriminate.
  - destruct (is_serialnum_block cfg (as_SerialNum_Block data));
      [|cbn [fst snd]; apply Hrej; intros []].
    unfold serialnum_to_nvs.
    repeat (destruct (negb (_ =? ESP_OK)); cbn [fst snd]);
      apply Hrej; cbn [In]; intuition discriminate.
Qed.

(** X15. Once the total of a session is the sentinel 0xffffffff (two
    blocks disagreed on it, or one declared [MAX_BLOCKS] or more), it
    stays so and the flash is never flushed again in that session,
    whatever sectors are written, for as long as the counter cannot
    reach the sentinel. *)
Theorem unknown_total_never_flushes (cfg : Config) (nvs : NvsReplies)
    (sectors : list (list Z)) (state : WriteState) :
  numBlocks state = 0xffffffff ->
  0 <= numWritten state ->
  numWritten state + Z.of_nat (length sectors) < 0xffffffff ->
  numBlocks (fst (write_session cfg nvs sectors state)) = 0xffffffff
  /\ ~ In board_flash_flush (snd (write_session cfg nvs sectors state)).
Proof.
  revert state. induction sectors as [|d ds IH]; intros state Hs H0 Hlen.
  - split; [exact Hs | intros []].
  - cbn [length] in Hlen. rewrite write_session_cons. cbn [fst snd].
    destruct (unknown_total_step cfg nvs 0 d state Hs ltac:(lia))
      as (Hs' & Hw' & Hf).
    destruct (IH _ Hs' ltac:(lia) ltac:(lia)) as [IH1 IH2].
    split; [exact IH1|]. intros Hin. apply in_app_or in Hin. tauto.
Qed.

Lemma unknown_total_never_flushes_witness :
  numBlocks
    (fst (write_session sample_cfg sample_nvs
            [uf2_sector sample_cfg 0x2000 0 2 0xbfdd4eee;
             uf2_sector sample_cfg 0x2100 1 2 0xbfdd4eee]
            (mkWriteState 0xffffffff 0 (writtenMask (fresh_state sample_cfg)))))
  = 0xffffffff.
Proof.
  refine (proj1 (unknown_total_never_flushes sample_cfg sample_nvs _ _ _ _ _)).
  - reflexivity.
  - vm_compute. discriminate.
  - vm_compute. reflexivity.
Defined.

(** *** A whole image, block after block *)

Lemma uf2_sector_bytes (cfg : Config) (a b n f : Z) :
  uf2_sector cfg a b n f
  = le_bytes 4 (UF2_MAGIC_START0 cfg) ++ le_bytes 4 (UF2_MAGIC_START1 cfg)
    ++ le_bytes 4 (UF2_FLAG_FAMILYID cfg) ++ le_bytes 4 a ++ le_bytes 4 256
    ++ le_bytes 4 b ++ le_bytes 4 n ++ le_bytes 4 f
    ++ repeat 0 476 ++ le_bytes 4 (UF2_MAGIC_END cfg).
Proof. reflexivity. Qed.

Lemma uf2_sector_block (cfg : Config) (a b n : Z) :
  uf2_constants_ok cfg ->
  0 <= a < 2 ^ 32 -> 0 <= b < 2 ^ 32 -> 0 <= n < 2 ^ 32 ->
  as_UF2_Block (uf2_sector cfg a b n (BOARD_UF2_FAMILY_ID cfg))
  = mkUF2 (UF2_MAGIC_START0 cfg) (UF2_MAGIC_START1 cfg)
      (UF2_FLAG_FAMILYID cfg) a 256 b n (BOARD_UF2_FAMILY_ID cfg)
      (repeat 0 476) (UF2_MAGIC_END cfg).
Proof.
  intros (HM0 & HM1 & HME & HFAM & HFL & HNF) Ha Hb Hn.
  rewrite uf2_sector_bytes, as_UF2_Block_bytes by apply repeat_length.
  unfold u32. rewrite !Z.mod_small by lia. reflexivity.
Qed.

Lemma uf2_sector_accepted (cfg : Config) (a b n : Z) :
  uf2_constants_ok cfg ->
  0 <= a < 2 ^ 32 -> 0 <= b < 2 ^ 32 -> 0 <= n < 2 ^ 32 ->
  accepted cfg (uf2_sector cfg a b n (BOARD_UF2_FAMILY_ID cfg)).
Proof.
  intros Hc Ha Hb Hn. unfold accepted.
  rewrite uf2_sector_block by assumption.
  destruct Hc as (HM0 & HM1 & HME & HFAM & HFL & HNF).
  unfold is_uf2_block.
  cbn [magicStart0 magicStart1 magicEnd flags familyID].
  rewrite !Z.eqb_refl, Z.land_diag, HNF. cbn [andb Z.eqb].
  destruct (Z.eqb_spec (UF2_FLAG_FAMILYID cfg) 0); [lia|]. split; reflexivity.
Qed.

(** Block [k] of the image, written on a state that holds the first
    [k] blocks. *)
Lemma in_order_step (cfg : Config) (nvs : NvsReplies) (base n k : Z)
    (s : WriteState) :
  uf2_constants_ok cfg ->
  0 <= k < n -> n < MAX_BLOCKS cfg <= 2 ^ 32 ->
  0 <= base -> base + 256 * n <= 2 ^ 32 ->
  in_order_state cfg n k s ->
  let r := uf2_write_block cfg nvs 0
             (uf2_sector cfg (base + 256 * k) k n (BOARD_UF2_FAMILY_ID cfg))
             s in
  in_order_state cfg n (k + 1) (state_after r)
  /\ numBlocks (state_after r) = n
  /\ calls_made r
     = board_flash_write (base + 256 * k) (repeat 0 476) 256
       :: (if k + 1 =? n then [board_flash_flush] else []).
Proof.
  intros Hc Hk Hn Hbase Htop (Htot & Hcnt & Hmask & Hlow & Hhigh). cbn zeta.
  assert (Ha : 0 <= base + 256 * k < 2 ^ 32) by lia.
  rewrite (uf2_write_block_accepted cfg nvs 0 _ s
             (uf2_sector_accepted cfg _ k n Hc Ha ltac:(lia) ltac:(lia))).
  rewrite (uf2_sector_block cfg _ k n Hc Ha ltac:(lia) ltac:(lia)).
  set (bl := mkUF2 _ _ _ _ _ _ _ _ _ _).
  unfold state_after, calls_made. cbn [fst snd].
  cbn [targetAddr bl_data payloadSize bl].
  assert (Hu : update_numBlocks cfg bl s = mkWriteState n k (writtenMask s)).
  { unfold update_numBlocks. cbn [bl_numBlocks bl].
    destruct Htot as [E|[E Ek]].
    - rewrite E, Z.eqb_refl. cbn [negb]. destruct s; cbn in *; congruence.
    - rewrite E. destruct (Z.eqb_spec 0 n); [lia|]. cbn [negb Z.eqb orb].
      destruct (Z.leb_spec (MAX_BLOCKS cfg) n); [lia|].
      cbn [orb]. now rewrite Hcnt. }
  unfold update_written. cbn [bl_numBlocks blockNo bl]. fold bl. rewrite Hu.
  clear Hu. set (s1 := mkWriteState n k (writtenMask s)).
  assert (Hs1 : forall j, written s1 j = written s j) by reflexivity.
  assert (Hpos : (Z.to_nat (blockNo bl / 8) < length (writtenMask s1))%nat)
    by (apply (block_pos_in_mask cfg); [cbn [blockNo bl]; lia | exact Hmask]).
  destruct (mark_written_spec bl s1 Hpos) as (Hnb & Hown & Hw).
  pose proof (length_mark_written bl s1 Hpos) as Hlen.
  assert (Hother : forall j, 0 <= j -> j <> k ->
            written (mark_written bl s1) j = written s j).
  { intros j Hj Hne.
    rewrite written_mark_written_other;
      [apply Hs1 | cbn [blockNo bl]; lia | exact Hj | exact Hne | exact Hpos]. }
  cbn [blockNo bl] in Hw, Hown.
  rewrite Hs1, (Hhigh k ltac:(lia)) in Hw.
  cbn [numBlocks numWritten writtenMask s1] in Hnb, Hw, Hlen.
  assert (Hw' : numWritten (mark_written bl s1) = k + 1)
    by (rewrite Hw; unfold u32; apply Z.mod_small; lia).
  destruct (Z.eqb_spec n 0); [lia|]. cbn [negb].
  destruct (Z.ltb_spec k (MAX_BLOCKS cfg)); [|lia].
  rewrite Hnb, Hw'.
  assert (Hinv : in_order_state cfg n (k + 1) (mark_written bl s1)).
  { split; [left; exact Hnb|]. split; [exact Hw'|].
    split; [rewrite Hlen; exact Hmask|]. split.
    - intros j Hj. destruct (Z.eq_dec j k) as [->|Hne]; [exact Hown|].
      rewrite Hother by lia. apply Hlow. lia.
    - intros j Hj. rewrite Hother by lia. apply Hhigh. lia. }
  destruct (Z.leb_spec n (k + 1)), (Z.eqb_spec (k + 1) n); try lia;
    cbn [fst snd]; (split; [exact Hinv|]); (split; [exact Hnb | reflexivity]).
Qed.

(** The rest of an image, from block [k] on. *)
Lemma in_order_rest (cfg : Config) (nvs : NvsReplies) (base n : Z) (m : nat) :
  uf2_constants_ok cfg ->
  n < MAX_BLOCKS cfg <= 2 ^ 32 ->
  0 <= base -> base + 256 * n <= 2 ^ 32 ->
  forall (k : nat) (s : WriteState),
  Z.of_nat k + Z.of_nat m = n ->
  in_order_state cfg n (Z.of_nat k) s ->
  let r := write_session cfg nvs
             (map (fun b => uf2_sector cfg (base + 256 * b) b n
                              (BOARD_UF2_FAMILY_ID cfg))
                  (map Z.of_nat (seq k m))) s in
  in_order_state cfg n n (fst r)
  /\ (m <> 0%nat -> numBlocks (fst r) = n)
  /\ snd r
     = map (fun b => board_flash_write (base + 256 * b) (repeat 0 476) 256)
         (map Z.of_nat (seq k m))
       ++ (if Nat.eqb m 0 then [] else [board_flash_flush]).
Proof.
  intros Hc Hn Hbase Htop. induction m as [|m IH]; intros k s Hkm Hinv.
  - cbn. assert (E : Z.of_nat k = n) by lia. rewrite E in Hinv.
    split; [exact Hinv|]. split; [congruence | reflexivity].
  - cbn [seq map]. cbn zeta. rewrite write_session_cons. cbn [fst snd].
    destruct (in_order_step cfg nvs base n (Z.of_nat k) s Hc ltac:(lia) Hn
                Hbase Htop Hinv) as (Hinv' & Hnb & Hcalls).
    replace (Z.of_nat k + 1) with (Z.of_nat (S k)) in Hinv', Hcalls by lia.
    destruct (IH (S k) _ ltac:(lia) Hinv') as (Hfin & Hnb' & Hrest).
    split; [exact Hfin|]. split.
    + intros _. destruct m as [|m']; [exact Hnb | apply Hnb'; discriminate].
    + rewrite Hcalls, Hrest. cbn [Nat.eqb app map].
      destruct m as [|m'].
      * destruct (Z.eqb_spec (Z.of_nat (S k)) n); [reflexivity | lia].
      * destruct (Z.eqb_spec (Z.of_nat (S k)) n); [lia | reflexivity].
Qed.

Lemma fresh_state_in_order (cfg : Config) (n : Z) :
  0 <= MAX_BLOCKS cfg -> in_order_state cfg n 0 (fresh_state cfg).
Proof.
  intros Hm. unfold in_order_state, fresh_state.
  cbn [numBlocks numWritten writtenMask].
  split; [right; split; reflexivity|]. split; [reflexivity|].
  split; [|split; [lia|]].
  - rewrite repeat_length.
    pose proof (Z.div_pos (MAX_BLOCKS cfg) 8 Hm ltac:(lia)).
    pose proof (Z.mod_pos_bound (MAX_BLOCKS cfg) 8 ltac:(lia)).
    pose proof (Z.div_mod (MAX_BLOCKS cfg) 8 ltac:(lia)). lia.
  - intros j _. unfold written. cbn [writtenMask].
    now rewrite nth_repeat_0.
Qed.

(** X16. An image of [n] blocks written block after block, in order,
    on a fresh state, every block declaring the total [n]: each block
    is passed to [board_flash_write] at its own address, the flash is
    flushed once, after the last block and not before, and the session
    ends with the total [n], the counter at [n] and the bits of the
    [n] blocks set. *)
Theorem image_in_order_flushed_at_end (cfg : Config) (nvs : NvsReplies)
    (base : Z) (n : nat) :
  uf2_constants_ok cfg ->
  (0 < n)%nat -> Z.of_nat n < MAX_BLOCKS cfg <= 2 ^ 32 ->
  0 <= base -> base + 256 * Z.of_nat n <= 2 ^ 32 ->
  let r := write_session cfg nvs (image_in_order cfg base n)
             (fresh_state cfg) in
  numBlocks (fst r) = Z.of_nat n
  /\ numWritten (fst r) = Z.of_nat n
  /\ (forall j, 0 <= j < Z.of_nat n -> written (fst r) j = true)
  /\ snd r
     = map (fun b => board_flash_write (base + 256 * b) (repeat 0 476) 256)
         (upto n)
       ++ [board_flash_flush].
Proof.
  intros Hc Hpos Hn Hbase Htop. cbn zeta. unfold image_in_order, upto.
  destruct (in_order_rest cfg nvs base (Z.of_nat n) n Hc Hn Hbase Htop
              0%nat (fresh_state cfg) ltac:(lia)
              (fresh_state_in_order cfg _ ltac:(lia)))
    as ((_ & Hcnt & _ & Hbits & _) & Hnb & Hcalls).
  split; [apply Hnb; lia|]. split; [exact Hcnt|]. split; [exact Hbits|].
  rewrite Hcalls. destruct n; [lia | reflexivity].
Qed.

Lemma image_in_order_flushed_at_end_witness :
  numWritten
    (fst (write_session sample_cfg sample_nvs
            (image_in_order sample_cfg 0x2000 3) (fresh_state sample_cfg)))
  = 3.
Proof.
  refine (proj1 (proj2 (image_in_order_flushed_at_end sample_cfg sample_nvs
                          0x2000 3 _ _ _ _ _))).
  - vm_compute. repeat split; discriminate.
  - lia.
  - vm_compute. split; [reflexivity | discriminate].
  - lia.
  - vm_compute. discriminate.
Defined.

(** ** Hexadecimal text *)

Lemma write_at_nil (off : nat) (d : list Z) : write_at off [] d = d.
Proof.
  unfold write_at. cbn [app length]. rewrite Nat.add_0_r.
  apply firstn_skipn.
Qed.

(** Two stores side by side are one store. *)
Lemma write_at_append (off : nat) (bs cs d : list Z) :
  (off + length bs + length cs <= length d)%nat ->
  write_at (off + length bs) cs (write_at off bs d)
  = write_at off (bs ++ cs) d.
Proof.
  intros H. unfold write_at.
  assert (Hf : length (firstn off d ++ bs) = (off + length bs)%nat)
    by (rewrite length_app, length_firstn; lia).
  rewrite (app_assoc (firstn off d) bs). rewrite <- Hf.
  rewrite firstn_app, firstn_all, Nat.sub_diag. cbn [firstn].
  rewrite app_nil_r, skipn_app.
  rewrite (skipn_all2 (firstn off d ++ bs)) by lia.
  replace (length (firstn off d ++ bs) + length cs
           - length (firstn off d ++ bs))%nat with (length cs) by lia.
  rewrite skipn_skipn, Hf, length_app. cbn [app].
  rewrite <- !app_assoc. do 3 f_equal. f_equal. lia.
Qed.

(** A loop that stores one byte per index stores a list. *)
Lemma write_each (f : nat -> Z) (n off : nat) (buf : list Z) :
  (off + n <= length buf)%nat ->
  fold_left (fun b i => write_at (off + i) [f i] b) (seq 0 n) buf
  = write_at off (map f (seq 0 n)) buf.
Proof.
  induction n as [|n IH]; intros H.
  - cbn. symmetry. apply write_at_nil.
  - rewrite seq_S, fold_left_app, map_app, IH by lia. cbn [fold_left map].
    rewrite <- write_at_append
      by (rewrite length_map, length_seq; cbn [length]; lia).
    now rewrite length_map, length_seq.
Qed.

Lemma nibble_bounds (x : Z) : 0 <= Z.land x 0xF < 16.
Proof.
  change 0xF with (Z.ones 4). rewrite Z.land_ones by lia.
  apply Z.mod_pos_bound. reflexivity.
Qed.

Lemma hex_digit_value_digit (d : Z) :
  0 <= d < 16 -> hex_digit_value (hex_digit d) = Some d.
Proof.
  intros H.
  assert (E : d = 0 \/ d = 1 \/ d = 2 \/ d = 3 \/ d = 4 \/ d = 5 \/ d = 6
              \/ d = 7 \/ d = 8 \/ d = 9 \/ d = 10 \/ d = 11 \/ d = 12
              \/ d = 13 \/ d = 14 \/ d = 15) by lia.
  repeat (destruct E as [->|E]; [reflexivity|]). subst d. reflexivity.
Qed.

Lemma hex_digit_nonzero (d : Z) : 0 <= d < 16 -> hex_digit d <> 0.
Proof.
  intros H E. pose proof (hex_digit_value_digit d H) as V.
  rewrite E in V. discriminate.
Qed.

Lemma u32_to_hexstr_bytes (value : Z) (buf : list Z) (off : nat) :
  (off + 9 <= length buf)%nat ->
  u32_to_hexstr value buf off
  = write_at off (hex_digits_u32 value ++ [0]) buf.
Proof.
  intros H. unfold u32_to_hexstr. cbn zeta.
  rewrite (write_each
             (fun i => nth (Z.to_nat (Z.land (Z.shiftr value
                                                (28 - Z.of_nat i * 4)) 0xF))
                         hexDigits 0)) by lia.
  fold (hex_digits_u32 value).
  change (off + 8)%nat with (off + length (hex_digits_u32 value))%nat.
  apply write_at_append. cbn [length]. change (length (hex_digits_u32 value)) with 8%nat. lia.
Qed.

Lemma nibble_of (value k : Z) :
  0 <= value -> 0 <= k ->
  Z.land (Z.shiftr value k) 0xF = (value / 2 ^ k) mod 16
  /\ value / 2 ^ k = 16 * (value / 2 ^ (k + 4)) + (value / 2 ^ k) mod 16.
Proof.
  intros Hv Hk. split.
  - change 0xF with (Z.ones 4). rewrite Z.land_ones, Z.shiftr_div_pow2 by lia.
    reflexivity.
  - rewrite Z.pow_add_r, <- Z.div_div by lia.
    apply Z.div_mod. discriminate.
Qed.

(** X17. [u32_to_hexstr] writes nine bytes at the place it is given
    and no other: eight upper-case hexadecimal digits that read back,
    most significant first, as the 32-bit value, and a NUL after
    them. *)
Theorem u32_to_hexstr_writes_value (value : Z) (buf : list Z) (off : nat) :
  0 <= value < 2 ^ 32 -> (off + 9 <= length buf)%nat ->
  let out := u32_to_hexstr value buf off in
  out = firstn off buf ++ read_at off 8 out ++ 0 :: skipn (off + 9) buf
  /\ hex_value (read_at off 8 out) = Some value
  /\ Forall (fun c => c <> 0) (read_at off 8 out).
Proof.
  intros Hv Hlen. cbn zeta. rewrite u32_to_hexstr_bytes by exact Hlen.
  assert (Hd : read_at off 8 (write_at off (hex_digits_u32 value ++ [0]) buf)
               = hex_digits_u32 value).
  { unfold write_at. rewrite <- app_assoc.
    assert (Hf : length (firstn off buf) = off)
      by (rewrite length_firstn; lia).
    rewrite <- Hf at 1.
    change 8%nat with (length (hex_digits_u32 value)) at 1.
    apply read_at_app_mid. }
  rewrite Hd. split; [|split].
  - unfold write_at. rewrite <- app_assoc. reflexivity.
  - assert (E : hex_digits_u32 value
                = map (fun k => hex_digit (Z.land (Z.shiftr value k) 0xF))
                    [28; 24; 20; 16; 12; 8; 4; 0]) by reflexivity.
    rewrite E. cbn [map]. unfold hex_value. cbn [hex_value_from].
    rewrite !hex_digit_value_digit by apply nibble_bounds.
    f_equal.
    destruct (nibble_of value 28 ltac:(lia) ltac:(lia)) as [-> E7].
    destruct (nibble_of value 24 ltac:(lia) ltac:(lia)) as [-> E6].
    destruct (nibble_of value 20 ltac:(lia) ltac:(lia)) as [-> E5].
    destruct (nibble_of value 16 ltac:(lia) ltac:(lia)) as [-> E4].
    destruct (nibble_of value 12 ltac:(lia) ltac:(lia)) as [-> E3].
    destruct (nibble_of value 8 ltac:(lia) ltac:(lia)) as [-> E2].
    destruct (nibble_of value 4 ltac:(lia) ltac:(lia)) as [-> E1].
    destruct (nibble_of value 0 ltac:(lia) ltac:(lia)) as [-> E0].
    cbn [Z.add Pos.add Pos.succ Pos.add_carry] in *.
    assert (Htop : value / 2 ^ 32 = 0) by (apply Z.div_small; lia).
    rewrite Htop in E7. change (2 ^ 0) with 1 in *. rewrite Z.div_1_r in *.
    lia.
  - apply Forall_forall. intros c Hin. unfold hex_digits_u32 in Hin.
    apply in_map_iff in Hin. destruct Hin as (i & <- & _).
    apply hex_digit_nonzero, nibble_bounds.
Qed.

Lemma u32_to_hexstr_writes_value_witness :
  hex_value (read_at 42 8 (u32_to_hexstr 0x400000 sample_text 42))
  = Some 0x400000.
Proof.
  refine (proj1 (proj2 (u32_to_hexstr_writes_value 0x400000 sample_text 42
                          _ _))).
  - vm_compute. split; [discriminate | reflexivity].
  - vm_compute. lia.
Defined.

Lemma length_concat_pairs (hi lo : nat -> Z) (l : list nat) :
  length (concat (map (fun i => [hi i; lo i]) l)) = (2 * length l)%nat.
Proof.
  induction l as [|i l IH]; [reflexivity|].
  cbn [map concat length app]. rewrite IH. lia.
Qed.

(** A loop that stores two bytes per index stores a list. *)
Lemma write_pairs (hi lo : nat -> Z) (n off : nat) (buf : list Z) :
  (off + n * 2 <= length buf)%nat ->
  fold_left
    (fun b i => write_at (off + i * 2 + 1) [lo i]
                  (write_at (off + i * 2) [hi i] b))
    (seq 0 n) buf
  = write_at off (concat (map (fun i => [hi i; lo i]) (seq 0 n))) buf.
Proof.
  induction n as [|n IH]; intros H.
  - cbn. symmetry. apply write_at_nil.
  - rewrite seq_S, fold_left_app, map_app, concat_app, IH by lia.
    cbn [fold_left map concat app].
    set (l := concat (map (fun i => [hi i; lo i]) (seq 0 n))).
    assert (Hl : length l = (n * 2)%nat).
    { subst l. rewrite length_concat_pairs, length_seq. lia. }
    replace (off + (0 + n) * 2)%nat with (off + length l)%nat by lia.
    rewrite write_at_append by (cbn [length]; lia).
    replace (off + length l + 1)%nat with (off + length (l ++ [hi (0 + n)%nat]))%nat
      by (rewrite length_app; cbn [length]; lia).
    rewrite write_at_append by (rewrite length_app; cbn [length]; lia).
    now rewrite <- app_assoc.
Qed.

Lemma hex_digits_u8_indexed (value : list Z) (n : nat) :
  (n <= length value)%nat ->
  concat (map (fun i => [hex_digit (Z.land (Z.shiftr (nth i value 0) 4) 0xF);
                         hex_digit (Z.land (nth i value 0) 0xF)]) (seq 0 n))
  = hex_digits_u8 (firstn n value).
Proof.
  revert value. induction n as [|n IH]; intros value H; [reflexivity|].
  destruct value as [|v value]; [cbn in H; lia|].
  cbn [seq map concat firstn]. unfold hex_digits_u8. cbn [map concat nth].
  f_equal. rewrite <- seq_shift, map_map. cbn [nth].
  apply IH. cbn in H. lia.
Qed.

Lemma length_hex_digits_u8 (value : list Z) :
  length (hex_digits_u8 value) = (2 * length value)%nat.
Proof.
  unfold hex_digits_u8. induction value as [|v value IH]; [reflexivity|].
  cbn [map concat app length] in *. rewrite IH. lia.
Qed.

Lemma u8_to_hexstr_bytes (value : list Z) (arr_len : nat) (buf : list Z)
    (off : nat) :
  (arr_len <= length value)%nat ->
  (off + arr_len * 2 + 1 <= length buf)%nat ->
  u8_to_hexstr value arr_len buf off
  = write_at off (hex_digits_u8 (firstn arr_len value) ++ [0]) buf.
Proof.
  intros Hv H. unfold u8_to_hexstr. cbn zeta.
  rewrite (write_pairs
             (fun i => nth (Z.to_nat (Z.land (Z.shiftr (nth i value 0) 4) 0xF))
                         hexDigits 0)
             (fun i => nth (Z.to_nat (Z.land (nth i value 0) 0xF))
                         hexDigits 0)) by lia.
  pose proof (hex_digits_u8_indexed value arr_len Hv) as E.
  unfold hex_digit in E at 1 2. rewrite E. clear E.
  assert (Hl : length (hex_digits_u8 (firstn arr_len value))
               = (arr_len * 2)%nat)
    by (rewrite length_hex_digits_u8, length_firstn; lia).
  rewrite <- Hl. apply write_at_append. cbn [length]. lia.
Qed.

Lemma hex_byte_decodes (v : Z) :
  0 <= v < 256 ->
  hex_value [hex_digit (Z.land (Z.shiftr v 4) 0xF); hex_digit (Z.land v 0xF)]
  = Some v.
Proof.
  intros H. unfold hex_value. cbn [hex_value_from].
  rewrite !hex_digit_value_digit by apply nibble_bounds. f_equal.
  change 0xF with (Z.ones 4). rewrite !Z.land_ones, Z.shiftr_div_pow2 by lia.
  change (2 ^ 4) with 16. Z.div_mod_to_equations. lia.
Qed.

Lemma hex_pairs_digits (value : list Z) :
  Forall (fun v => 0 <= v < 256) value ->
  hex_pairs (hex_digits_u8 value) = Some value
  /\ Forall (fun c => c <> 0) (hex_digits_u8 value).
Proof.
  induction 1 as [|v value Hv _ [IH1 IH2]]; [split; [reflexivity|constructor]|].
  change (hex_digits_u8 (v :: value))
    with (hex_digit (Z.land (Z.shiftr v 4) 0xF) :: hex_digit (Z.land v 0xF)
          :: hex_digits_u8 value).
  split.
  - cbn [hex_pairs]. now rewrite (hex_byte_decodes v Hv), IH1.
  - constructor; [apply hex_digit_nonzero, nibble_bounds|].
    constructor; [apply hex_digit_nonzero, nibble_bounds | exact IH2].
Qed.

(** X18. [u8_to_hexstr] writes two upper-case hexadecimal digits for
    each of the [arr_len] bytes, high nibble first, and a NUL after
    them, and no other byte of the array; the digit pairs read back as
    the bytes. *)
Theorem u8_to_hexstr_writes_bytes (value : list Z) (arr_len : nat)
    (buf : list Z) (off : nat) :
  Forall (fun v => 0 <= v < 256) value ->
  (arr_len <= length value)%nat ->
  (off + arr_len * 2 + 1 <= length buf)%nat ->
  let out := u8_to_hexstr value arr_len buf off in
  out = firstn off buf ++ read_at off (arr_len * 2) out
        ++ 0 :: skipn (off + arr_len * 2 + 1) buf
  /\ hex_pairs (read_at off (arr_len * 2) out) = Some (firstn arr_len value)
  /\ Forall (fun c => c <> 0) (read_at off (arr_len * 2) out).
Proof.
  intros Hv Hn Hlen. cbn zeta. rewrite u8_to_hexstr_bytes by assumption.
  set (digits := hex_digits_u8 (firstn arr_len value)).
  assert (Hl : length digits = (arr_len * 2)%nat)
    by (subst digits; rewrite length_hex_digits_u8, length_firstn; lia).
  assert (Hd : read_at off (arr_len * 2) (write_at off (digits ++ [0]) buf)
               = digits).
  { unfold write_at. rewrite <- app_assoc.
    assert (Hf : length (firstn off buf) = off)
      by (rewrite length_firstn; lia).
    rewrite <- Hf at 1. rewrite <- Hl. apply read_at_app_mid. }
  rewrite Hd.
  destruct (hex_pairs_digits (firstn arr_len value)) as [Hp Hnz].
  { rewrite <- (firstn_skipn arr_len value) in Hv.
    exact (proj1 (proj1 (Forall_app _ _ _) Hv)). }
  split; [|split; [exact Hp | exact Hnz]].
  unfold write_at. rewrite <- app_assoc, length_app, Hl. cbn [length app].
  do 3 f_equal. f_equal. lia.
Qed.

Lemma u8_to_hexstr_writes_bytes_witness :
  hex_pairs (read_at 1 (5 * 2)
               (u8_to_hexstr [0x12; 0x34; 0x56; 0x78; 0x90] 5
                  (repeat 0 12) 1))
  = Some [0x12; 0x34; 0x56; 0x78; 0x90].
Proof.
  refine (proj1 (proj2 (u8_to_hexstr_writes_bytes
                          [0x12; 0x34; 0x56; 0x78; 0x90] 5 (repeat 0 12) 1
                          _ _ _))).
  - repeat constructor; discriminate.
  - cbn. lia.
  - cbn. lia.
Defined.

(** ** The information text *)

Lemma string_of_nonzero (s : list Z) : Forall (fun c => c <> 0) (string_of s).
Proof.
  unfold string_of. induction s as [|c s IH]; [constructor|].
  cbn [strlen]. destruct (Z.eqb_spec c 0); [constructor|].
  cbn [firstn]. constructor; assumption.
Qed.

Lemma strlen_app (pre rest : list Z) :
  Forall (fun c => c <> 0) pre ->
  strlen (pre ++ rest) = (length pre + strlen rest)%nat.
Proof.
  induction 1 as [|c pre Hc _ IH]; [reflexivity|].
  cbn [app strlen length]. destruct (Z.eqb_spec c 0); [contradiction|].
  now rewrite IH.
Qed.

Lemma string_of_app (pre rest : list Z) :
  Forall (fun c => c <> 0) pre -> string_of (pre ++ 0 :: rest) = pre.
Proof.
  intros H. unfold string_of. rewrite strlen_app by exact H.
  cbn [strlen Z.eqb]. rewrite Nat.add_0_r, firstn_app, firstn_all, Nat.sub_diag.
  cbn [firstn]. apply app_nil_r.
Qed.

(** A store over a store of no more bytes at the same place. *)
Lemma write_at_over (off : nat) (bs cs d : list Z) :
  (length bs <= length cs)%nat -> (off + length cs <= length d)%nat ->
  write_at off cs (write_at off bs d) = write_at off cs d.
Proof.
  intros Hb Hc. unfold write_at.
  assert (Hf : length (firstn off d) = off) by (rewrite length_firstn; lia).
  rewrite firstn_app, Hf, Nat.sub_diag, firstn_firstn, Nat.min_id.
  cbn [firstn]. rewrite app_nil_r. do 2 f_equal.
  rewrite skipn_app, Hf, (skipn_all2 (firstn off d)) by lia. cbn [app].
  replace (off + length cs - off)%nat with (length cs) by lia.
  rewrite skipn_app, (skipn_all2 bs) by lia. cbn [app].
  rewrite skipn_skipn. f_equal. lia.
Qed.

(** The three cases of the second part, by the room left in the
    array. *)
Lemma uf2_init_flash_size_cases (text : list Z) (flash_size : Z) :
  0 <= flash_size < 2 ^ 32 ->
  Z.of_nat (length text) < 2 ^ 32 ->
  (strlen text < length text)%nat ->
  let out := fst (uf2_init_flash_size text flash_size) in
  let txt_len := snd (uf2_init_flash_size text flash_size) in
  length out = length text
  /\ txt_len = Z.of_nat (strlen out)
  /\ ((strlen text + 16 <= length text)%nat ->
      string_of out
      = string_of text ++ hex_digits_u32 flash_size
        ++ bytes_of_string " bytes")
  /\ ((strlen text + 10 <= length text < strlen text + 16)%nat ->
      string_of out = string_of text ++ hex_digits_u32 flash_size)
  /\ ((length text < strlen text + 10)%nat -> out = text).
Proof.
  intros Hv Hlen Hnul. cbn zeta. unfold uf2_init_flash_size. cbn zeta.
  set (L := strlen text) in *.
  pose proof (string_of_nonzero text) as Hbody. fold L in Hbody.
  assert (Hdig : Forall (fun c => c <> 0) (hex_digits_u32 flash_size)).
  { apply Forall_forall. intros c Hin. unfold hex_digits_u32 in Hin.
    apply in_map_iff in Hin. destruct Hin as (i & <- & _).
    apply hex_digit_nonzero, nibble_bounds. }
  assert (Hu1 : u32 (Z.of_nat (length text) - 1 - Z.of_nat L)
                = Z.of_nat (length text) - 1 - Z.of_nat L)
    by (unfold u32; apply Z.mod_small; lia).
  rewrite Hu1, Nat2Z.id.
  destruct (Z.ltb_spec 8 (Z.of_nat (length text) - 1 - Z.of_nat L)) as [H8|H8].
  2:{ cbn [fst snd]. repeat split; try reflexivity; intros; lia. }
  assert (Hu2 : u32 (Z.of_nat L + 8) = Z.of_nat (L + 8))
    by (unfold u32; rewrite Z.mod_small; lia).
  rewrite Hu2, Nat2Z.id.
  assert (Hu3 : u32 (Z.of_nat (length text) - 1 - Z.of_nat (L + 8))
                = Z.of_nat (length text) - 1 - Z.of_nat (L + 8))
    by (unfold u32; apply Z.mod_small; lia).
  rewrite Hu3.
  rewrite u32_to_hexstr_bytes by lia.
  assert (Hl8 : length (hex_digits_u32 flash_size) = 8%nat) by reflexivity.
  destruct (Z.ltb_spec 6 (Z.of_nat (length text) - 1 - Z.of_nat (L + 8)))
    as [H6|H6]; cbn [fst snd].
  - unfold strcpy.
    change (firstn (strlen (bytes_of_string " bytes" ++ [0]))
              (bytes_of_string " bytes" ++ [0]))
      with (bytes_of_string " bytes").
    rewrite <- (write_at_append L (hex_digits_u32 flash_size) [0])
      by (cbn [length]; lia).
    rewrite Hl8, write_at_over
      by (rewrite ?length_write_at by lia; cbn; lia).
    assert (Happ : write_at (L + 8) (bytes_of_string " bytes" ++ [0])
                     (write_at L (hex_digits_u32 flash_size) text)
                   = write_at L (hex_digits_u32 flash_size
                                 ++ bytes_of_string " bytes" ++ [0]) text)
      by (apply (write_at_append L (hex_digits_u32 flash_size)); cbn; lia).
    rewrite Happ. clear Happ.
    assert (Hout : write_at L (hex_digits_u32 flash_size
                               ++ bytes_of_string " bytes" ++ [0]) text
                   = (string_of text ++ hex_digits_u32 flash_size
                      ++ bytes_of_string " bytes")
                     ++ 0 :: skipn (L + 15) text).
    { unfold write_at, string_of. fold L. rewrite <- !app_assoc.
      reflexivity. }
    assert (Hnz : Forall (fun c => c <> 0)
                    (string_of text ++ hex_digits_u32 flash_size
                     ++ bytes_of_string " bytes")).
    { apply Forall_app. split; [exact Hbody|]. apply Forall_app.
      split; [exact Hdig|]. repeat constructor; discriminate. }
    split; [apply length_write_at; cbn; lia|].
    rewrite Hout. split; [|split; [|split]].
    + rewrite strlen_app by exact Hnz. cbn [strlen Z.eqb].
      rewrite !length_app, Hl8. unfold string_of. fold L.
      rewrite length_firstn. unfold u32. rewrite Z.mod_small; cbn; lia.
    + intros _. apply string_of_app. exact Hnz.
    + intros; lia.
    + intros; lia.
  - assert (Hout : write_at L (hex_digits_u32 flash_size ++ [0]) text
                   = (string_of text ++ hex_digits_u32 flash_size)
                     ++ 0 :: skipn (L + 9) text).
    { unfold write_at, string_of. fold L. rewrite <- !app_assoc.
      reflexivity. }
    assert (Hnz : Forall (fun c => c <> 0)
                    (string_of text ++ hex_digits_u32 flash_size))
      by (apply Forall_app; split; assumption).
    split; [apply length_write_at; cbn; lia|].
    rewrite Hout. split; [|split; [|split]].
    + rewrite strlen_app by exact Hnz. cbn [strlen Z.eqb].
      rewrite !length_app, Hl8. unfold string_of. fold L.
      rewrite length_firstn. lia.
    + intros; lia.
    + intros _. apply string_of_app. exact Hnz.
    + intros; lia.
Qed.

(** X19. The flash size in the information text.  On a NUL-terminated
    array, [uf2_init] appends to the text the eight hexadecimal digits
    of the flash size and the word " bytes" when the array has at
    least 16 bytes from the NUL of the text on; the digits alone when
    it has at least 10; and nothing when it has fewer, leaving the
    array as it was.  In each case
    the array keeps its length and [txt_len] is the length of the new
    text. *)
Theorem flash_size_appended (text : list Z) (flash_size : Z) :
  0 <= flash_size < 2 ^ 32 ->
  Z.of_nat (length text) < 2 ^ 32 ->
  (strlen text < length text)%nat ->
  let out := fst (uf2_init_flash_size text flash_size) in
  let txt_len := snd (uf2_init_flash_size text flash_size) in
  length out = length text
  /\ txt_len = Z.of_nat (strlen out)
  /\ ((strlen text + 16 <= length text)%nat ->
      string_of out
      = string_of text ++ hex_digits_u32 flash_size
        ++ bytes_of_string " bytes")
  /\ ((strlen text + 10 <= length text < strlen text + 16)%nat ->
      string_of out = string_of text ++ hex_digits_u32 flash_size)
  /\ ((length text < strlen text + 10)%nat -> out = text).
Proof. exact (uf2_init_flash_size_cases text flash_size). Qed.

Lemma flash_size_appended_witness :
  string_of (fst (uf2_init_flash_size sample_text 0x400000))
  = bytes_of_string
      "Serial Number: AAAAAAAAAAA, Flash Size: 0x00400000 bytes".
Proof.
  refine (proj1 (proj2 (proj2 (flash_size_appended sample_text 0x400000
                                 _ _ _))) _).
  - vm_compute. split; [discriminate | reflexivity].
  - vm_compute. reflexivity.
  - vm_compute. lia.
  - vm_compute. lia.
Defined.

(** *** The serial number *)

Lemma starts_with_spec (chars s : list Z) :
  starts_with chars s = true ->
  s = chars ++ skipn (length chars) s.
Proof.
  revert s. induction chars as [|n chars IH]; intros s H; [reflexivity|].
  destruct s as [|c s]; [discriminate|]. cbn [starts_with] in H.
  apply andb_prop in H. destruct H as [Hc Hs]. apply Z.eqb_eq in Hc.
  subst c. cbn [length skipn app]. f_equal. apply IH, Hs.
Qed.

(** What [strstr] finds: the needle stands at the offset, after
    characters of the string. *)
Lemma find_chars_spec (chars s : list Z) (p : nat) :
  find_chars chars s = Some p ->
  s = firstn p s ++ chars ++ skipn (p + length chars) s
  /\ Forall (fun c => c <> 0) (firstn p s).
Proof.
  revert p. induction s as [|c s IH]; intros p H.
  - cbn [find_chars] in H. destruct (starts_with chars []) eqn:E;
      [|discriminate].
    injection H as <-. split; [|constructor].
    exact (starts_with_spec _ _ E).
  - cbn [find_chars] in H. destruct (starts_with chars (c :: s)) eqn:E.
    + injection H as <-. split; [|constructor].
      exact (starts_with_spec _ _ E).
    + destruct (Z.eqb_spec c 0) as [|Hc]; [discriminate|].
      destruct (find_chars chars s) as [q|] eqn:F; [|discriminate].
      injection H as <-. destruct (IH q eq_refl) as [Hs Hnz].
      cbn [firstn Nat.add skipn app]. split.
      * f_equal. exact Hs.
      * constructor; assumption.
Qed.

Lemma write_at_all (bs d : list Z) :
  length d = length bs -> write_at 0 bs d = bs.
Proof.
  intros H. unfold write_at. cbn [firstn app Nat.add].
  rewrite skipn_all2 by lia. apply app_nil_r.
Qed.

(** The string [uf2_init] builds in [serialNumber]. *)
Lemma serialNumber_string (sn str0 : list Z) :
  length sn = 6%nat -> length str0 = 12%nat ->
  write_at 0 [nth 0 sn 0] (u8_to_hexstr (skipn 1 sn) 5 str0 1)
  = nth 0 sn 0 :: hex_digits_u8 (skipn 1 sn) ++ [0].
Proof.
  intros Hsn Hstr.
  rewrite u8_to_hexstr_bytes by (rewrite ?length_skipn; lia).
  rewrite (firstn_all2 (n := 5)) by (rewrite length_skipn; lia).
  assert (Hl : length (hex_digits_u8 (skipn 1 sn)) = 10%nat)
    by (rewrite length_hex_digits_u8, length_skipn; lia).
  unfold write_at. rewrite length_app, Hl. cbn [length Nat.add firstn app].
  rewrite (skipn_all2 (n := 12)) by lia.
  destruct str0 as [|c0 str0]; [discriminate|].
  cbn [firstn skipn app]. now rewrite app_nil_r.
Qed.

Ltac settled :=
  split;
  [ rewrite ?write_at_all by (cbn [length]; congruence);
    solve [reflexivity | assumption]
  | intros hex0' str0' Hh';
    rewrite ?write_at_all by (cbn [length]; congruence); reflexivity ].

(** Every way through [uf2_init] and [serialnum_from_nvs] leaves six
    bytes in [serialNumberHex] that do not depend on what the local
    held. *)
Lemma serialNumberHex_settled (text : list Z) (nvs_err : Z)
    (r : SerialReplies) (hex0 str0 : list Z) :
  length hex0 = 6%nat -> length (blob_after r) = 6%nat ->
  length (fst (uf2_init_serial text nvs_err r hex0 str0)) = 6%nat
  /\ forall hex0' str0', length hex0' = 6%nat ->
       fst (uf2_init_serial text nvs_err r hex0' str0')
       = fst (uf2_init_serial text nvs_err r hex0 str0).
Proof.
  intros Hh Hb.
  unfold uf2_init_serial, serialnum_from_nvs. cbn zeta.
  destruct (_ || _); [|destruct (negb (nvs_err =? ESP_OK))]; cbn [fst snd].
  1,2: settled.
  destruct (negb (size_err r =? ESP_OK)
            && negb (size_err r =? ESP_ERR_NVS_NOT_FOUND)) eqn:EG.
  - destruct (size_err r =? ESP_ERR_INVALID_SIZE);
      [|destruct (size_err r =? ESP_ERR_NVS_NOT_FOUND);
        [|destruct (size_err r =? ESP_OK); [discriminate|]]];
      cbn [negb fst snd]; settled.
  - destruct (required_size r =? 0).
    { change (ESP_OK =? ESP_ERR_INVALID_SIZE) with false.
      change (ESP_OK =? ESP_ERR_NVS_NOT_FOUND) with false.
      change (ESP_OK =? ESP_OK) with true. cbn [negb fst snd]. settled. }
    destruct (negb (required_size r =? 6)).
    { change (ESP_ERR_INVALID_SIZE =? ESP_ERR_INVALID_SIZE) with true.
      cbn [negb fst snd]. settled. }
    destruct (negb (blob_err r =? ESP_OK)) eqn:Eb.
    + destruct (blob_err r =? ESP_ERR_INVALID_SIZE);
        [|destruct (blob_err r =? ESP_ERR_NVS_NOT_FOUND);
          [|rewrite Eb]]; cbn [negb fst snd]; settled.
    + change (ESP_OK =? ESP_ERR_INVALID_SIZE) with false.
      change (ESP_OK =? ESP_ERR_NVS_NOT_FOUND) with false.
      change (ESP_OK =? ESP_OK) with true. cbn [negb fst snd]. settled.
Qed.

(** The array after the serial-number part, on a working store. *)
Lemma uf2_init_serial_text (text : list Z) (r : SerialReplies)
    (hex0 str0 : list Z) :
  let sn := fst (uf2_init_serial text ESP_OK r hex0 str0) in
  snd (uf2_init_serial text ESP_OK r hex0 str0)
  = match strstr text serial_placeholder with
    | Some serialPosition =>
        strncpy text serialPosition
          (write_at 0 [nth 0 sn 0] (u8_to_hexstr (skipn 1 sn) 5 str0 1)) 11
    | None => text
    end.
Proof.
  cbn zeta. unfold uf2_init_serial. cbn zeta.
  change ((ESP_OK =? ESP_ERR_NVS_NO_FREE_PAGES)
          || (ESP_OK =? ESP_ERR_NVS_NEW_VERSION_FOUND)) with false.
  change (negb (ESP_OK =? ESP_OK)) with false. cbv iota.
  destruct (serialnum_from_nvs r hex0) as [err sn0]. reflexivity.
Qed.

(** What the first part does to the array where it finds the
    placeholder. *)
Lemma uf2_init_serial_patch (text : list Z) (r : SerialReplies)
    (hex0 str0 : list Z) (p : nat) :
  length hex0 = 6%nat -> length str0 = 12%nat ->
  length (blob_after r) = 6%nat ->
  strstr text serial_placeholder = Some p ->
  let sn := fst (uf2_init_serial text ESP_OK r hex0 str0) in
  let out := snd (uf2_init_serial text ESP_OK r hex0 str0) in
  text = firstn p text ++ bytes_of_string "AAAAAAAAAAA" ++ skipn (p + 11) text
  /\ (nth 0 sn 0 <> 0 ->
      out = firstn p text
            ++ (nth 0 sn 0 :: hex_digits_u8 (skipn 1 sn))
            ++ skipn (p + 11) text
      /\ strlen out = strlen text)
  /\ (nth 0 sn 0 = 0 ->
      out = firstn p text ++ repeat 0 11 ++ skipn (p + 11) text
      /\ strlen out = p).
Proof.
  intros Hh Hs Hb Hfind. cbn zeta.
  rewrite uf2_init_serial_text. cbn zeta. rewrite Hfind.
  destruct (serialNumberHex_settled text ESP_OK r hex0 str0 Hh Hb) as [Hsn _].
  set (sn := fst (uf2_init_serial text ESP_OK r hex0 str0)) in *.
  rewrite serialNumber_string by assumption.
  destruct (find_chars_spec _ _ _ Hfind) as [Htext Hpre].
  change (firstn (strlen serial_placeholder) serial_placeholder)
    with (bytes_of_string "AAAAAAAAAAA") in Htext.
  change (length (bytes_of_string "AAAAAAAAAAA")) with 11%nat in Htext.
  assert (Hp : length (firstn p text) = p).
  { apply (f_equal (@length Z)) in Htext.
    rewrite !length_app, length_firstn, length_skipn in Htext.
    change (length (bytes_of_string "AAAAAAAAAAA")) with 11%nat in Htext.
    rewrite length_firstn. lia. }
  assert (Hdig : Forall (fun c => c <> 0) (hex_digits_u8 (skipn 1 sn))).
  { unfold hex_digits_u8. induction (skipn 1 sn) as [|v l IH];
      [constructor|]. cbn [map concat app].
    constructor; [apply hex_digit_nonzero, nibble_bounds|].
    constructor; [apply hex_digit_nonzero, nibble_bounds | exact IH]. }
  assert (Hl : length (hex_digits_u8 (skipn 1 sn)) = 10%nat)
    by (rewrite length_hex_digits_u8, length_skipn; lia).
  split; [exact Htext|]. unfold strncpy. split.
  - intros Hnz.
    assert (Hchars : Forall (fun c => c <> 0)
                       (nth 0 sn 0 :: hex_digits_u8 (skipn 1 sn)))
      by (constructor; assumption).
    assert (Hcopy : firstn 11
                      (firstn (strlen (nth 0 sn 0
                                       :: hex_digits_u8 (skipn 1 sn) ++ [0]))
                         (nth 0 sn 0 :: hex_digits_u8 (skipn 1 sn) ++ [0])
                       ++ repeat 0 11)
                    = nth 0 sn 0 :: hex_digits_u8 (skipn 1 sn)).
    { change (nth 0 sn 0 :: hex_digits_u8 (skipn 1 sn) ++ [0])
        with ((nth 0 sn 0 :: hex_digits_u8 (skipn 1 sn)) ++ [0]).
      fold (string_of ((nth 0 sn 0 :: hex_digits_u8 (skipn 1 sn)) ++ [0])).
      rewrite string_of_app by exact Hchars.
      rewrite firstn_app, firstn_all2 by (cbn [length]; lia).
      cbn [length]. rewrite Hl. cbn [Nat.sub firstn]. apply app_nil_r. }
    rewrite Hcopy. unfold write_at. cbn [length]. rewrite Hl.
    split; [reflexivity|].
    rewrite Htext at 3.
    rewrite !strlen_app by
      (try exact Hpre; try exact Hchars; repeat constructor; discriminate).
    cbn [length]. rewrite Hl. reflexivity.
  - intros Hz. rewrite Hz.
    assert (Hcopy : firstn 11
                      (firstn (strlen (0 :: hex_digits_u8 (skipn 1 sn) ++ [0]))
                         (0 :: hex_digits_u8 (skipn 1 sn) ++ [0])
                       ++ repeat 0 11)
                    = repeat 0 11) by reflexivity.
    rewrite Hcopy. unfold write_at. rewrite repeat_length.
    split; [reflexivity|].
    rewrite strlen_app by exact Hpre. cbn [repeat app strlen Z.eqb]. lia.
Qed.

(** X20. The serial number in the information text.  On a working
    store, where the text holds the placeholder [AAAAAAAAAAA],
    [uf2_init] overwrites these eleven characters and nothing else:
    with the first byte of the serial number as it is and the ten
    hexadecimal digits of its other five bytes, the text keeping its
    length; but when that first byte is zero, with eleven NULs, which
    ends the text where the placeholder stood. *)
Theorem serial_number_patched (text : list Z) (r : SerialReplies)
    (hex0 str0 : list Z) (p : nat) :
  length hex0 = 6%nat -> length str0 = 12%nat ->
  length (blob_after r) = 6%nat ->
  strstr text serial_placeholder = Some p ->
  let sn := fst (uf2_init_serial text ESP_OK r hex0 str0) in
  let out := snd (uf2_init_serial text ESP_OK r hex0 str0) in
  text = firstn p text ++ bytes_of_string "AAAAAAAAAAA" ++ skipn (p + 11) text
  /\ (nth 0 sn 0 <> 0 ->
      out = firstn p text
            ++ (nth 0 sn 0 :: hex_digits_u8 (skipn 1 sn))
            ++ skipn (p + 11) text
      /\ strlen out = strlen text)
  /\ (nth 0 sn 0 = 0 ->
      out = firstn p text ++ repeat 0 11 ++ skipn (p + 11) text
      /\ strlen out = p).
Proof. exact (uf2_init_serial_patch text r hex0 str0 p). Qed.

Lemma serial_number_patched_witness :
  string_of
    (snd (uf2_init_serial sample_text ESP_OK sample_serial
            (repeat 0 6) (repeat 0 12)))
  = bytes_of_string "Serial Number: E1234567890, Flash Size: 0x".
Proof.
  pose proof (serial_number_patched sample_text sample_serial
                (repeat 0 6) (repeat 0 12) 15 eq_refl eq_refl eq_refl eq_refl)
    as (_ & H & _).
  destruct (H ltac:(vm_compute; discriminate)) as [-> _].
  reflexivity.
Defined.

(** X21. The locals of [uf2_init] never show: whatever
    [serialNumberHex] and [serialNumber] hold when the function
    starts, the serial number and the text come out the same; and when
    the store cannot be initialised the text keeps its placeholder,
    the serial numbers the function sets in these branches being used
    for nothing. *)
Theorem uf2_init_serial_ignores_locals (text : list Z) (nvs_err : Z)
    (r : SerialReplies) (hex0 str0 hex0' str0' : list Z) :
  length hex0 = 6%nat -> length str0 = 12%nat ->
  length hex0' = 6%nat -> length str0' = 12%nat ->
  length (blob_after r) = 6%nat ->
  uf2_init_serial text nvs_err r hex0' str0'
  = uf2_init_serial text nvs_err r hex0 str0
  /\ (nvs_err <> ESP_OK ->
      snd (uf2_init_serial text nvs_err r hex0 str0) = text).
Proof.
  intros Hh Hs Hh' Hs' Hb.
  destruct (serialNumberHex_settled text nvs_err r hex0 str0 Hh Hb)
    as [Hsn Hsame].
  specialize (Hsame hex0' str0' Hh').
  destruct (Z.eq_dec nvs_err ESP_OK) as [->|Hne].
  - split; [|congruence].
    rewrite (surjective_pairing (uf2_init_serial text ESP_OK r hex0' str0')).
    rewrite (surjective_pairing (uf2_init_serial text ESP_OK r hex0 str0)).
    rewrite !uf2_init_serial_text. cbn zeta. rewrite Hsame.
    rewrite !serialNumber_string by assumption. reflexivity.
  - assert (Htext : forall h s, snd (uf2_init_serial text nvs_err r h s) = text).
    { intros h s. unfold uf2_init_serial. cbn zeta.
      destruct (_ || _); [reflexivity|].
      destruct (Z.eqb_spec nvs_err ESP_OK); [contradiction | reflexivity]. }
    split; [|intros _; apply Htext].
    rewrite (surjective_pairing (uf2_init_serial text nvs_err r hex0' str0')).
    rewrite (surjective_pairing (uf2_init_serial text nvs_err r hex0 str0)).
    now rewrite Hsame, !Htext.
Qed.

Lemma uf2_init_serial_ignores_locals_witness :
  uf2_init_serial sample_text ESP_OK sample_serial (repeat 7 6) (repeat 9 12)
  = uf2_init_serial sample_text ESP_OK sample_serial (repeat 0 6)
      (repeat 0 12).
Proof.
  exact (proj1 (uf2_init_serial_ignores_locals sample_text ESP_OK
                  sample_serial (repeat 0 6) (repeat 0 12) (repeat 7 6)
                  (repeat 9 12) eq_refl eq_refl eq_refl eq_refl eq_refl)).
Defined.

(** ** The file table after [uf2_init] *)

Lemma set_size_spec (i : nat) (sz : Z) (tbl : list FileContent_t) :
  (i < length tbl)%nat ->
  length (set_size i sz tbl) = length tbl
  /\ map name (set_size i sz tbl) = map name tbl
  /\ map content (set_size i sz tbl) = map content tbl
  /\ forall j, size (nth j (set_size i sz tbl) no_file)
             = if Nat.eqb j i then sz else size (nth j tbl no_file).
Proof.
  revert i. induction tbl as [|f tbl IH]; intros i Hi; [cbn in Hi; lia|].
  destruct i as [|i].
  - unfold set_size. cbn. repeat split. intros [|j]; reflexivity.
  - cbn [length] in Hi. destruct (IH i ltac:(lia)) as (HL & HN & HC & HS).
    unfold set_size in *. cbn [nth_error].
    destruct (nth_error tbl i) as [g|] eqn:E;
      [|apply nth_error_None in E; lia].
    change (firstn (S i) (f :: tbl)) with (f :: firstn i tbl).
    change (skipn (S (S i)) (f :: tbl)) with (skipn (S i) tbl).
    cbn [app length map]. rewrite HL, HN, HC. repeat split.
    intros [|j]; [reflexivity|]. cbn [nth Nat.eqb]. apply HS.
Qed.

(** The first part leaves a NUL-terminated array of the same length. *)
Lemma uf2_init_serial_keeps_nul (text : list Z) (nvs_err : Z)
    (r : SerialReplies) (hex0 str0 : list Z) :
  length hex0 = 6%nat -> length str0 = 12%nat ->
  length (blob_after r) = 6%nat ->
  (strlen text < length text)%nat ->
  let out := snd (uf2_init_serial text nvs_err r hex0 str0) in
  length out = length text /\ (strlen out < length out)%nat.
Proof.
  intros Hh Hs Hb Hnul. cbn zeta.
  destruct (Z.eq_dec nvs_err ESP_OK) as [->|Hne].
  - destruct (strstr text serial_placeholder) as [p|] eqn:F.
    + destruct (uf2_init_serial_patch text r hex0 str0 p Hh Hs Hb F)
        as (Htext & Hnz & Hz).
      destruct (serialNumberHex_settled text ESP_OK r hex0 str0 Hh Hb)
        as [Hsn _].
      set (sn := fst (uf2_init_serial text ESP_OK r hex0 str0)) in *.
      assert (Hl : length (hex_digits_u8 (skipn 1 sn)) = 10%nat)
        by (rewrite length_hex_digits_u8, length_skipn; lia).
      apply (f_equal (@length Z)) in Htext.
      rewrite !length_app in Htext.
      change (length (bytes_of_string "AAAAAAAAAAA")) with 11%nat in Htext.
      destruct (Z.eq_dec (nth 0 sn 0) 0) as [E0|E0].
      * destruct (Hz E0) as [Hout Hlen]. rewrite Hlen.
        rewrite Hout, !length_app, repeat_length.
        rewrite length_firstn in *. split; lia.
      * destruct (Hnz E0) as [Hout Hlen]. rewrite Hlen.
        assert (Hlo : length (snd (uf2_init_serial text ESP_OK r hex0 str0))
                      = length text).
        { rewrite Hout, !length_app. cbn [length]. rewrite Hl.
          rewrite length_firstn in *. lia. }
        rewrite Hlo. split; [reflexivity | exact Hnul].
    + rewrite uf2_init_serial_text. cbn zeta. rewrite F.
      split; [reflexivity | exact Hnul].
  - assert (E : snd (uf2_init_serial text nvs_err r hex0 str0) = text).
    { unfold uf2_init_serial. cbn zeta.
      destruct (_ || _); [reflexivity|].
      destruct (Z.eqb_spec nvs_err ESP_OK); [contradiction | reflexivity]. }
    rewrite E. split; [reflexivity | exact Hnul].
Qed.

(** X22. What [uf2_init] leaves: the file table with its names; the
    information file reading the array as patched (serial number,
    flash size) and every other content as it was; the size of the
    information file equal to the length of the text in that array;
    [CURRENT.UF2] sized for the flash; the measurement file sized for
    the measurement size when the store could be initialised, and left
    at 0 otherwise, with [_measurement_flash_size] 0; the two static
    files with the sizes of their arrays; and cluster fields that are
    those [init_starting_clusters] gives these sizes. *)
Theorem uf2_init_table (cfg : Config) (infoUf2File indexFile : list Z)
    (flash_size nvs_err : Z) (r : SerialReplies) (hex0 str0 : list Z)
    (indeterminate : Z) (meas : nvs_get_blob_result) :
  (strlen infoUf2File < length infoUf2File)%nat ->
  Z.of_nat (length infoUf2File) < 2 ^ 32 ->
  length hex0 = 6%nat -> length str0 = 12%nat ->
  length (blob_after r) = 6%nat ->
  0 <= flash_size < 2 ^ 32 ->
  let res := uf2_init cfg infoUf2File indexFile flash_size nvs_err r hex0 str0
               indeterminate meas in
  let tbl := fst (fst res) in
  let m := snd (fst res) in
  let text := snd res in
  text = fst (uf2_init_flash_size
                (snd (uf2_init_serial infoUf2File nvs_err r hex0 str0))
                flash_size)
  /\ map name tbl = map name (info_static infoUf2File indexFile)
  /\ map content tbl = map content (info_static text indexFile)
  /\ size (nth 0 tbl no_file) = Z.of_nat (strlen text)
  /\ size (nth 1 tbl no_file) = Z.of_nat (length indexFile) - 1
  /\ size (nth 2 tbl no_file) = Z.of_nat (length test_csv_data) - 1
  /\ size (nth 3 tbl no_file)
     = (if nvs_err =? ESP_OK then BYTE_COUNT m else 0)
  /\ size (nth 4 tbl no_file) = BYTE_COUNT flash_size
  /\ m = (if nvs_err =? ESP_OK
          then get_measurment_data_size_nvs indeterminate meas else 0)
  /\ init_starting_clusters cfg tbl = tbl.
Proof.
  intros Hnul Hlen Hh Hs Hb Hfl. cbn zeta.
  destruct (uf2_init_serial_keeps_nul infoUf2File nvs_err r hex0 str0
              Hh Hs Hb Hnul) as [Hl1 Hn1].
  unfold uf2_init. cbn zeta.
  set (text1 := snd (uf2_init_serial infoUf2File nvs_err r hex0 str0)) in *.
  destruct (uf2_init_flash_size_cases text1 flash_size Hfl ltac:(lia) Hn1)
    as (_ & Htl & _).
  set (mm := get_measurment_data_size_nvs indeterminate meas).
  set (t1 := set_size (length (info_static infoUf2File indexFile) - 1)
               (BYTE_COUNT flash_size) (info_static infoUf2File indexFile)).
  assert (Hcase :
    (if (nvs_err =? ESP_ERR_NVS_NO_FREE_PAGES)
        || (nvs_err =? ESP_ERR_NVS_NEW_VERSION_FOUND)
     then (t1, 0)
     else if negb (nvs_err =? ESP_OK) then (t1, 0)
     else (set_size (length (info_static infoUf2File indexFile) - 2)
             (BYTE_COUNT mm) t1, mm))
    = (set_size 3 (if nvs_err =? ESP_OK then BYTE_COUNT mm else 0) t1,
       if nvs_err =? ESP_OK then mm else 0)).
  { destruct (Z.eqb_spec nvs_err ESP_OK) as [->|]; [reflexivity|].
    now destruct (_ || _). }
  rewrite Hcase. clear Hcase.
  destruct (uf2_init_flash_size text1 flash_size) as [text txt_len].
  cbn [fst snd] in *. subst txt_len.
  set (sz3 := if nvs_err =? ESP_OK then BYTE_COUNT mm else 0).
  set (T := set_content 0 text
              (set_size 0 (Z.of_nat (strlen text)) (set_size 3 sz3 t1))).
  assert (HT : T = [ mkFile (bytes_of_string "INFO_UF2TXT") (Some text)
                       (Z.of_nat (strlen text)) 0 0;
                     mkFile (bytes_of_string "INDEX   HTM") (Some indexFile)
                       (Z.of_nat (length indexFile) - 1) 0 0;
                     mkFile (bytes_of_string "TEST    CSV")
                       (Some test_csv_data)
                       (Z.of_nat (length test_csv_data) - 1) 0 0;
                     mkFile (bytes_of_string "MEASDAT CSV") None sz3 0 0;
                     mkFile (bytes_of_string "CURRENT UF2") None
                       (BYTE_COUNT flash_size) 0 0 ]) by reflexivity.
  destruct (init_clusters_from_fields cfg 2 T) as (Hn' & Hc' & _).
  fold (init_starting_clusters cfg T) in Hn', Hc'.
  pose proof (init_clusters_from_again cfg 2 T) as Hi'.
  fold (init_starting_clusters cfg T) in Hi'.
  fold (init_starting_clusters cfg (init_starting_clusters cfg T)) in Hi'.
  assert (Hsize : forall j, size (nth j (init_starting_clusters cfg T) no_file)
                    = size (nth j T no_file))
    by (intros j; apply init_clusters_from_size).
  split; [reflexivity|].
  rewrite Hn', Hc', !Hsize, HT.
  repeat (split; [reflexivity|]).
  split; [|split; [reflexivity|]].
  - subst sz3. now destruct (nvs_err =? ESP_OK).
  - split; [reflexivity|]. rewrite <- HT. exact Hi'.
Qed.

Lemma uf2_init_table_witness :
  size (nth 0 sample_info no_file)
  = Z.of_nat (strlen (snd (sample_init 1024))).
Proof.
  refine (proj1 (proj2 (proj2 (proj2
           (uf2_init_table sample_cfg sample_infoUf2File sample_indexFile
              0x400000 ESP_OK sample_serial (repeat 0 6) (repeat 0 12) 0
              (mkGetBlob ESP_OK (Some 1024)) _ _ _ _ _ _))))).
  - vm_compute. lia.
  - vm_compute. reflexivity.
  - reflexivity.
  - reflexivity.
  - reflexivity.
  - vm_compute. split; [discriminate | reflexivity].
Defined.
